(** * cbor.py: a shallow embedding of the CBOR encoder and decoder

    The module is Python 2 code ([xrange], [unicode], [long], [iteritems],
    [bytes(chr(val))]): byte buffers are [str] objects, indexing a buffer
    gives a one-character [str], and [ord] turns it into an integer.

    Layout: the interpreter's primitives the module uses ([struct],
    indexing, slicing, the utf8 codec, dictionary keys), the encoder
    ([dumps] and its helpers) and the decoder ([_loads], [loads_bytes],
    [tagify]); then the vocabulary of the properties; then the properties
    and their proofs: those of the specification (C1 to C10), and further
    properties of the codec (X1 to X22).  The interpreter's own limit on
    the depth of the call stack is outside the embedding. *)

From Equations Require Import Equations.
From Stdlib Require Import ZArith List Lia Bool.
From Stdlib.Strings Require Import Byte.
Import ListNotations.
Open Scope Z_scope.

Set Implicit Arguments.
Set Warnings "-register-all".

(** ** Exceptions and results *)

(** The exceptions the module raises itself, or lets escape from the
    interpreter.  The first eight are the [raise Exception(...)] sites and
    the [assert]s of the source, told apart by their message. *)
Inductive exn : Type :=
| RecursionDepthLimit       (* Exception("hit CBOR loads recursion depth limit") *)
| Float16Unsupported        (* Exception("don't know how to parse FLOAT16") *)
| UnknownTag7Byte (tb : Z)  (* Exception("unknown cbor tag 7 byte: %02x", tb) *)
| ValueTooBig (val : Z)     (* Exception("value too big for CBOR unsigned number: ...") *)
| DontKnowHowToSerialize    (* Exception("don't know how to cbor serialize object of type %s", ...) *)
| BogusTag (tag_aux : Z)    (* AssertionError: "bogus tag ...", the info bits being tag_aux *)
| UnexpectedComponent       (* AssertionError: 'variable length value contains unexpected component' *)
| NegativeAux               (* AssertionError of [assert val >= 0] *)
| IndexError                (* data[i] with i out of range *)
| StructError               (* struct.error: buffer too short for unpack_from *)
| TypeError
| OverflowError
| UnicodeDecodeError.

(** What a call does: return, raise, or (the embedding only) use up the
    fuel that bounds the recursion. *)
Inductive result (A : Type) : Type :=
| Ok (a : A)
| Raise (e : exn)
| OutOfFuel.
Arguments Ok {A} a.
Arguments Raise {A} e.
Arguments OutOfFuel {A}.

Definition bind {A B : Type} (m : result A) (k : A -> result B) : result B :=
  match m with
  | Ok a => k a
  | Raise e => Raise e
  | OutOfFuel => OutOfFuel
  end.

Notation "x <- m ;; k" := (bind m (fun x => k))
  (at level 61, m at next level, right associativity).
Notation "' p <- m ;; k" := (bind m (fun x => match x with p => k end))
  (at level 61, p pattern, m at next level, right associativity).

(** [[f(x) for x in l]], stopping at the first exception. *)
Definition map_result {A B : Type} (f : A -> result B) : list A -> result (list B) :=
  fix go (l : list A) : result (list B) :=
    match l with
    | [] => Ok []
    | x :: r => y <- f x ;; ys <- go r ;; Ok (y :: ys)
    end.

(** ** Bytes *)

Definition bytes : Type := list byte.

Definition ord (c : byte) : Z := Z.of_N (Byte.to_N c).

(** [chr(i)] for [i] in [range(256)]; every call site of the source passes
    such an [i] (a constant, a value at most 23, or [val & 0x0ff]). *)
Definition chr (i : Z) : byte :=
  match Byte.of_N (Z.to_N (i mod 256)) with
  | Some c => c
  | None => x00
  end.

Definition len {A : Type} (l : list A) : Z := Z.of_nat (length l).

(** Big-endian [n]-byte field of [struct.pack]: formats ['B'], ['!H'],
    ['!I'], ['!Q'] are [n] = 1, 2, 4, 8.  The source only packs values it
    has checked to fit. *)
Fixpoint pack_be (n : nat) (val : Z) : bytes :=
  match n with
  | O => []
  | S k => chr (Z.shiftr val (8 * Z.of_nat k)) :: pack_be k val
  end.

(** The unsigned integer a big-endian byte sequence stands for. *)
Definition unpack_be (bs : bytes) : Z :=
  fold_left (fun out ch => Z.lor (Z.shiftl out 8) (ord ch)) bs 0.

(** [struct.unpack_from(fmt, data, offset)[0]] for an unsigned big-endian
    format of [size] bytes: a negative offset counts from the end, and
    struct.error is raised when the offset is still negative, or fewer
    than [size] bytes are left at it. *)
Definition unpack_from (size : nat) (data : bytes) (offset : Z) : result Z :=
  let offset := if offset <? 0 then offset + len data else offset in
  if (offset <? 0) || (len data - offset <? Z.of_nat size) then Raise StructError
  else Ok (unpack_be (firstn size (skipn (Z.to_nat offset) data))).

(** [data[i]]: a negative index counts from the end. *)
Definition getitem (data : bytes) (i : Z) : result byte :=
  let j := if i <? 0 then i + len data else i in
  if (0 <=? j) && (j <? len data) then
    match nth_error data (Z.to_nat j) with
    | Some c => Ok c
    | None => Raise IndexError
    end
  else Raise IndexError.

(** A bound of [data[lo:hi]] in a buffer of [n] bytes: a negative one
    counts from the end, and the result is clamped to the buffer. *)
Definition slice_index (n i : Z) : Z :=
  let i := if i <? 0 then i + n else i in
  Z.max 0 (Z.min n i).

(** [data[lo:hi]]: nothing is raised when the buffer is too short, or
    when [hi] comes before [lo]. *)
Definition slice (data : bytes) (lo hi : Z) : bytes :=
  let lo := slice_index (len data) lo in
  let hi := slice_index (len data) hi in
  firstn (Z.to_nat (hi - lo)) (skipn (Z.to_nat lo) data).

(** ** Constants *)

Definition CBOR_TYPE_MASK : Z := 0xE0.
Definition CBOR_INFO_BITS : Z := 0x1F.

Definition CBOR_UINT : Z := 0x00.
Definition CBOR_NEGINT : Z := 0x20.
Definition CBOR_BYTES : Z := 0x40.
Definition CBOR_TEXT : Z := 0x60.
Definition CBOR_ARRAY : Z := 0x80.
Definition CBOR_MAP : Z := 0xA0.
Definition CBOR_TAG : Z := 0xC0.
Definition CBOR_7 : Z := 0xE0.

Definition CBOR_UINT8_FOLLOWS : Z := 24.
Definition CBOR_UINT16_FOLLOWS : Z := 25.
Definition CBOR_UINT32_FOLLOWS : Z := 26.
Definition CBOR_UINT64_FOLLOWS : Z := 27.
Definition CBOR_VAR_FOLLOWS : Z := 31.

Definition CBOR_BREAK : Z := 0xFF.

Definition CBOR_FALSE : Z := Z.lor CBOR_7 20.
Definition CBOR_TRUE : Z := Z.lor CBOR_7 21.
Definition CBOR_NULL : Z := Z.lor CBOR_7 22.
Definition CBOR_UNDEFINED : Z := Z.lor CBOR_7 23.

Definition CBOR_FLOAT16 : Z := Z.lor CBOR_7 25.
Definition CBOR_FLOAT32 : Z := Z.lor CBOR_7 26.
Definition CBOR_FLOAT64 : Z := Z.lor CBOR_7 27.

Definition CBOR_TAG_DATE_STRING : Z := 0.
Definition CBOR_TAG_DATE_ARRAY : Z := 1.
Definition CBOR_TAG_BIGNUM : Z := 2.
Definition CBOR_TAG_NEGBIGNUM : Z := 3.
Definition CBOR_TAG_REGEX : Z := 35.

Definition _MAX_DEPTH : Z := 100.

(** ** Bignum codec *)

(** Number of binary digits of [val] ([val.bit_length()]); it bounds the
    number of turns of the loop below. *)
Definition bit_length (val : Z) : nat :=
  if 0 <? val then S (Z.to_nat (Z.log2 val)) else O.

(** [_dumps_bignum_to_bytearray]: the [while val > 0] loop, with [out] the
    list built so far ([out.insert(0, c)] is a cons). *)
Equations? bignum_loop (val : Z) (out : bytes) : bytes by wf (bit_length val) lt :=
  bignum_loop val out with Z_gt_dec val 0 => {
    | left Hpos => bignum_loop (Z.shiftr val 8) (chr (Z.land val 0x0ff) :: out);
    | right _ => out }.
Proof.
  unfold bit_length.
  destruct (0 <? val) eqn:Hv; [|apply Z.ltb_ge in Hv; lia].
  destruct (0 <? Z.shiftr val 8) eqn:Hs; [|lia].
  apply Z.ltb_lt in Hs.
  rewrite Z.log2_shiftr by lia.
  assert (0 <= Z.log2 val) by apply Z.log2_nonneg.
  assert (8 <= Z.log2 val).
  { apply Z.log2_le_pow2; [lia|].
    rewrite Z.shiftr_div_pow2 in Hs by lia.
    change (2 ^ 8) with 256 in *.
    destruct (Z_lt_dec val 256) as [Hlt|]; [|lia].
    rewrite Z.div_small in Hs; lia. }
  lia.
Qed.

Definition _dumps_bignum_to_bytearray (val : Z) : bytes := bignum_loop val [].

(** [_bytes_to_biguint] on the characters of a [str]: the [for ch in bs]
    loop, [out = out << 8; out = out | ord(ch)]. *)
Definition bytes_to_biguint (bs : bytes) : Z :=
  fold_left (fun out ch => Z.lor (Z.shiftl out 8) (ord ch)) bs 0.

(** ** Values *)

(** The Python objects the module handles.  A [float] is given by its
    IEEE-754 binary64 bit pattern (what [struct.pack("!d", _)] writes), a
    [str] by its bytes, a [unicode] by its code points, a [dict] by its
    pairs in the order [iteritems()] yields them.  [VTag] is the module's
    own [Tag] class; [VDatetime] and [VRegex] stand for the objects
    [datetime.datetime.utcfromtimestamp] and [re.compile] build, kept as
    the argument they were built from. *)
Inductive value : Type :=
| VNone
| VBool (b : bool)
| VInt (z : Z)
| VFloat (bits : Z)
| VStr (s : bytes)
| VUnicode (u : list Z)
| VList (l : list value)
| VTuple (l : list value)
| VDict (d : list (value * value))
| VTag (tag : option Z) (v : value)
| VDatetime (timestamp : value)
| VRegex (pattern : value).

(** ** The interpreter's utf8 codec (wide build: one code point per
    character) *)

Definition utf8_encode_char (c : Z) : bytes :=
  if c <? 0x80 then [chr c]
  else if c <? 0x800 then [chr (0xC0 + c / 64); chr (0x80 + c mod 64)]
  else if c <? 0x10000 then
    [chr (0xE0 + c / 4096); chr (0x80 + (c / 64) mod 64); chr (0x80 + c mod 64)]
  else
    [chr (0xF0 + c / 262144); chr (0x80 + (c / 4096) mod 64);
     chr (0x80 + (c / 64) mod 64); chr (0x80 + c mod 64)].

Definition is_high_surrogate (c : Z) : bool := (0xD800 <=? c) && (c <=? 0xDBFF).

Definition is_low_surrogate (c : Z) : bool := (0xDC00 <=? c) && (c <=? 0xDFFF).

(** [u.encode('utf8')]: the interpreter's encoder writes a high surrogate
    that is followed by a low surrogate as the one code point the pair
    stands for, [((ch - 0xD800) << 10 | (ch2 - 0xDC00)) + 0x10000], in
    four bytes; a surrogate on its own is written in three bytes, as any
    other code point below 0x10000. *)
Fixpoint utf8_encode (u : list Z) : bytes :=
  match u with
  | [] => []
  | ch :: r =>
    match r with
    | ch2 :: r' =>
      if is_high_surrogate ch && is_low_surrogate ch2
      then utf8_encode_char (Z.lor (Z.shiftl (ch - 0xD800) 10) (ch2 - 0xDC00) + 0x10000)
           ++ utf8_encode r'
      else utf8_encode_char ch ++ utf8_encode r
    | [] => utf8_encode_char ch
    end
  end.

Definition is_continuation (c : byte) : bool := (0x80 <=? ord c) && (ord c <? 0xC0).

(** [raw.decode('utf8')]: strict, rejecting stray continuation bytes,
    over-long forms and code points above 0x10FFFF (surrogate code points
    pass, as in the interpreter's codec). *)
Fixpoint utf8_decode (raw : bytes) : result (list Z) :=
  match raw with
  | [] => Ok []
  | b0 :: r0 =>
    let c0 := ord b0 in
    if c0 <? 0x80 then u <- utf8_decode r0 ;; Ok (c0 :: u)
    else if c0 <? 0xC2 then Raise UnicodeDecodeError
    else if c0 <? 0xE0 then
      match r0 with
      | b1 :: r1 =>
        if is_continuation b1
        then u <- utf8_decode r1 ;;
             Ok ((c0 - 0xC0) * 64 + (ord b1 - 0x80) :: u)
        else Raise UnicodeDecodeError
      | _ => Raise UnicodeDecodeError
      end
    else if c0 <? 0xF0 then
      match r0 with
      | b1 :: b2 :: r2 =>
        if is_continuation b1 && is_continuation b2
           && negb ((c0 =? 0xE0) && (ord b1 <? 0xA0))
        then u <- utf8_decode r2 ;;
             Ok ((c0 - 0xE0) * 4096 + (ord b1 - 0x80) * 64 + (ord b2 - 0x80) :: u)
        else Raise UnicodeDecodeError
      | _ => Raise UnicodeDecodeError
      end
    else if c0 <? 0xF5 then
      match r0 with
      | b1 :: b2 :: b3 :: r3 =>
        if is_continuation b1 && is_continuation b2 && is_continuation b3
           && negb ((c0 =? 0xF0) && (ord b1 <? 0x90))
           && negb ((c0 =? 0xF4) && (0x8F <? ord b1))
        then u <- utf8_decode r3 ;;
             Ok ((c0 - 0xF0) * 262144 + (ord b1 - 0x80) * 4096
                 + (ord b2 - 0x80) * 64 + (ord b3 - 0x80) :: u)
        else Raise UnicodeDecodeError
      | _ => Raise UnicodeDecodeError
      end
    else Raise UnicodeDecodeError
  end.

(** ** Floats *)

(** [struct.unpack("!f", _)]: the four bytes are read as a C float,
    which the interpreter widens to the double of the same number.  The
    widening keeps the sign and the payload of a NaN and sets its quiet
    bit, so that a signalling NaN comes out quiet; subnormal numbers of
    binary32 are normal in binary64. *)
Definition float32_to_float64 (w : Z) : Z :=
  let sign := Z.shiftl (Z.shiftr w 31) 63 in
  let e := Z.land (Z.shiftr w 23) 0xFF in
  let m := Z.land w 0x7FFFFF in
  if e =? 0xFF then
    if m =? 0 then Z.lor sign (Z.shiftl 0x7FF 52)
    else Z.lor sign (Z.lor (Z.shiftl 0x7FF 52) (Z.lor (Z.shiftl 1 51) (Z.shiftl m 29)))
  else if e =? 0 then
    if m =? 0 then sign
    else
      let k := Z.log2 m in
      Z.lor sign (Z.lor (Z.shiftl (k - 149 + 1023) 52) (Z.shiftl (m - 2 ^ k) (52 - k)))
  else Z.lor sign (Z.lor (Z.shiftl (e - 127 + 1023) 52) (Z.shiftl m 29)).

(** ** Encoder *)

(** [_encode_type_num]; [self] is the function itself at the one
    recursive call. *)
Definition _encode_type_num_body (self : Z -> Z -> result bytes)
    (cbor_type val : Z) : result bytes :=
  if val <? 0 then Raise NegativeAux
  else if val <=? 23 then Ok (pack_be 1 (Z.lor cbor_type val))
  else if val <=? 0x0ff then
    Ok (pack_be 1 (Z.lor cbor_type CBOR_UINT8_FOLLOWS) ++ pack_be 1 val)
  else if val <=? 0x0ffff then
    Ok (pack_be 1 (Z.lor cbor_type CBOR_UINT16_FOLLOWS) ++ pack_be 2 val)
  else if val <=? 0x0ffffffff then
    Ok (pack_be 1 (Z.lor cbor_type CBOR_UINT32_FOLLOWS) ++ pack_be 4 val)
  else if val <=? 0x0ffffffffffffffff then
    Ok (pack_be 1 (Z.lor cbor_type CBOR_UINT64_FOLLOWS) ++ pack_be 8 val)
  else if negb (cbor_type =? CBOR_NEGINT) then Raise (ValueTooBig val)
  else
    let outb := _dumps_bignum_to_bytearray val in
    hd <- self CBOR_BYTES (len outb) ;;
    Ok (chr (Z.lor CBOR_TAG CBOR_TAG_NEGBIGNUM) :: hd ++ outb).

(** The recursive call is at [CBOR_BYTES], which never reaches the
    recursive branch again: two unfoldings are the whole function. *)
Definition _encode_type_num : Z -> Z -> result bytes :=
  _encode_type_num_body (_encode_type_num_body (fun _ _ => OutOfFuel)).

Definition dumps_int (val : Z) : result bytes :=
  if val >=? 0 then
    if val <=? 23 then Ok [chr val]
    else if val <=? 0x0ff then Ok (pack_be 1 CBOR_UINT8_FOLLOWS ++ pack_be 1 val)
    else if val <=? 0x0ffff then Ok (pack_be 1 CBOR_UINT16_FOLLOWS ++ pack_be 2 val)
    else if val <=? 0x0ffffffff then Ok (pack_be 1 CBOR_UINT32_FOLLOWS ++ pack_be 4 val)
    else if val <=? 0x0ffffffffffffffff then
      Ok (pack_be 1 CBOR_UINT64_FOLLOWS ++ pack_be 8 val)
    else
      let outb := _dumps_bignum_to_bytearray val in
      hd <- _encode_type_num CBOR_BYTES (len outb) ;;
      Ok (chr (Z.lor CBOR_TAG CBOR_TAG_BIGNUM) :: hd ++ outb)
  else
    let val := -1 - val in
    _encode_type_num CBOR_NEGINT val.

Definition dumps_float (bits : Z) : result bytes :=
  Ok (pack_be 1 CBOR_FLOAT64 ++ pack_be 8 bits).

(** [dumps_string]; the flags default to [None].  [dumps] is the only
    caller and passes a [str] or a [unicode]. *)
Definition dumps_string (val : value) (is_text is_bytes : option bool) : result bytes :=
  '(val, is_text, is_bytes) <-
     match val with
     | VUnicode u => Ok (utf8_encode u, Some true, Some false)
     | VStr s => Ok (s, is_text, is_bytes)
     | _ => Raise TypeError
     end ;;
  let truthy (f : option bool) := match f with Some true => true | _ => false end in
  if truthy is_bytes || negb (truthy is_text) then
    hd <- _encode_type_num CBOR_BYTES (len val) ;; Ok (hd ++ val)
  else
    hd <- _encode_type_num CBOR_TEXT (len val) ;; Ok (hd ++ val).

Definition dumps_bool (b : bool) : result bytes :=
  if b then Ok (pack_be 1 CBOR_TRUE) else Ok (pack_be 1 CBOR_FALSE).

Section Containers.
(** [dumps_array] and [dumps_dict] call back into [dumps]. *)
Variable dumps : value -> result bytes.

Definition dumps_array (arr : list value) : result bytes :=
  head <- _encode_type_num CBOR_ARRAY (len arr) ;;
  parts <- map_result dumps arr ;;
  Ok (head ++ concat parts).

Definition dumps_dict (d : list (value * value)) : result bytes :=
  head <- _encode_type_num CBOR_MAP (len d) ;;
  parts <- map_result (fun kv => k <- dumps (fst kv) ;; v <- dumps (snd kv) ;; Ok (k ++ v)) d ;;
  Ok (head ++ concat parts).
End Containers.

(** [dumps]: the [isinstance] tests in the order of the source ([bool]
    before [int], of which it is a subclass). *)
Fixpoint dumps (ob : value) : result bytes :=
  match ob with
  | VNone => Ok (pack_be 1 CBOR_NULL)
  | VBool b => dumps_bool b
  | VStr _ | VUnicode _ => dumps_string ob None None
  | VList arr | VTuple arr => dumps_array dumps arr
  | VDict d => dumps_dict dumps d
  | VFloat bits => dumps_float bits
  | VInt val => dumps_int val
  | VTag _ _ | VDatetime _ | VRegex _ => Raise DontKnowHowToSerialize
  end.

(** ** Dynamic typing *)

(** [a & b] for an integer [b]: a [str] operand is a TypeError. *)
Definition py_and (a : value) (b : Z) : result Z :=
  match a with
  | VInt x => Ok (Z.land x b)
  | VBool x => Ok (Z.land (Z.b2z x) b)
  | _ => Raise TypeError
  end.

Definition float_is_nan (bits : Z) : bool :=
  (Z.land (Z.shiftr bits 52) 0x7FF =? 0x7FF) && negb (Z.land bits 0xFFFFFFFFFFFFF =? 0).

Definition float_is_zero (bits : Z) : bool := Z.land bits 0x7FFFFFFFFFFFFFFF =? 0.

(** The integer a float is exactly equal to, if any. *)
Definition float_to_integer (bits : Z) : option Z :=
  let e := Z.land (Z.shiftr bits 52) 0x7FF in
  let m := Z.land bits 0xFFFFFFFFFFFFF in
  let signed (z : Z) := if Z.testbit bits 63 then - z else z in
  if e =? 0x7FF then None
  else if e =? 0 then (if m =? 0 then Some 0 else None)
  else
    let mant := 2 ^ 52 + m in
    let sh := e - 1075 in
    if 0 <=? sh then Some (signed (mant * 2 ^ sh))
    else if mant mod 2 ^ (- sh) =? 0 then Some (signed (mant / 2 ^ (- sh)))
    else None.

Inductive number : Type :=
| NInt (z : Z)
| NFloat (bits : Z).

Definition as_number (v : value) : option number :=
  match v with
  | VBool b => Some (NInt (Z.b2z b))
  | VInt z => Some (NInt z)
  | VFloat bits => Some (NFloat bits)
  | _ => None
  end.

(** [==] on numbers compares the numbers they denote: [True == 1 == 1.0],
    [0.0 == -0.0], and a NaN is equal to nothing. *)
Definition number_eq (x y : number) : bool :=
  match x, y with
  | NInt a, NInt b => a =? b
  | NInt a, NFloat f | NFloat f, NInt a =>
      match float_to_integer f with Some z => z =? a | None => false end
  | NFloat f, NFloat g =>
      negb (float_is_nan f) && negb (float_is_nan g)
      && ((f =? g) || (float_is_zero f && float_is_zero g))
  end.

Definition bytes_eqb (s t : bytes) : bool :=
  (length s =? length t)%nat && forallb (fun p => ord (fst p) =? ord (snd p)) (combine s t).

Definition codes_eqb (u w : list Z) : bool :=
  (length u =? length w)%nat && forallb (fun p => fst p =? snd p) (combine u w).

Definition list_eqb {A : Type} (eqb : A -> A -> bool) : list A -> list A -> bool :=
  fix go (l m : list A) : bool :=
    match l, m with
    | [], [] => true
    | x :: l', y :: m' => eqb x y && go l' m'
    | _, _ => false
    end.

(** [a == b].  A [str] equals a [unicode] when it is ASCII and has the
    same characters; sequences compare element by element; two dicts are
    equal when they hold the same keys with equal values, in any order;
    a [Tag] is only equal to itself, and the decoder makes a new one each
    time.  Datetime and regex objects are compared by what they were built
    from. *)
Fixpoint py_eq (a b : value) {struct a} : bool :=
  match a with
  | VNone => match b with VNone => true | _ => false end
  | VBool _ | VInt _ | VFloat _ =>
      match as_number a, as_number b with
      | Some x, Some y => number_eq x y
      | _, _ => false
      end
  | VStr s =>
      match b with
      | VStr t => bytes_eqb s t
      | VUnicode u => forallb (fun c => ord c <? 128) s && codes_eqb (map ord s) u
      | _ => false
      end
  | VUnicode u =>
      match b with
      | VUnicode w => codes_eqb u w
      | VStr s => forallb (fun c => ord c <? 128) s && codes_eqb (map ord s) u
      | _ => false
      end
  | VList l => match b with VList m => list_eqb py_eq l m | _ => false end
  | VTuple l => match b with VTuple m => list_eqb py_eq l m | _ => false end
  | VDict d =>
      match b with
      | VDict e =>
          (length d =? length e)%nat
          && forallb (fun kv =>
                        existsb (fun kv' => py_eq (fst kv) (fst kv') && py_eq (snd kv) (snd kv')) e)
                     d
      | _ => false
      end
  | VTag _ _ => false
  | VDatetime x => match b with VDatetime y => py_eq x y | _ => false end
  | VRegex x => match b with VRegex y => py_eq x y | _ => false end
  end.

(** [a == b] for an integer [b]. *)
Definition py_eq_int (a : value) (b : Z) : bool := py_eq a (VInt b).

(** Lists and dicts have no hash; a tuple has one when its items do. *)
Fixpoint hashable (v : value) : bool :=
  match v with
  | VList _ | VDict _ => false
  | VTuple l => forallb hashable l
  | _ => true
  end.

(** [d[k] = v] on the pairs of a dict: an equal key keeps its place (and
    the key object already there), a new key is listed last. *)
Fixpoint dict_update (d : list (value * value)) (k v : value) : list (value * value) :=
  match d with
  | [] => [(k, v)]
  | (k', v') :: r => if py_eq k' k then (k', v) :: r else (k', v') :: dict_update r k v
  end.

Definition dict_setitem (d : list (value * value)) (k v : value) : result (list (value * value)) :=
  if hashable k then Ok (dict_update d k v) else Raise TypeError.

(** [for ch in bs]: the items iterating over [bs] yields. *)
Definition py_iter (bs : value) : result (list value) :=
  match bs with
  | VStr s => Ok (map (fun c => VStr [c]) s)
  | VUnicode u => Ok (map (fun c => VUnicode [c]) u)
  | VList l | VTuple l => Ok l
  | VDict d => Ok (map fst d)
  | _ => Raise TypeError
  end.

(** [ord(ch)]: of a string of length one. *)
Definition py_ord (ch : value) : result Z :=
  match ch with
  | VStr [c] => Ok (ord c)
  | VUnicode [c] => Ok c
  | _ => Raise TypeError
  end.

Definition sys_maxint : Z := 2 ^ 63 - 1.

(** [xrange(aux)]: the number of turns of [for i in xrange(aux)]. *)
Definition xrange (aux : option Z) : result Z :=
  match aux with
  | None => Raise TypeError
  | Some n => if n >? sys_maxint then Raise OverflowError else Ok n
  end.

(** [datetime.datetime.utcfromtimestamp(ob)] wants a number (its range
    check is left out). *)
Definition utcfromtimestamp (ob : value) : result value :=
  match as_number ob with
  | Some _ => Ok (VDatetime ob)
  | None => Raise TypeError
  end.

(** [re.compile(ob)] wants a string (its syntax check is left out). *)
Definition re_compile (ob : value) : result value :=
  match ob with
  | VStr _ | VUnicode _ => Ok (VRegex ob)
  | VRegex _ => Ok ob
  | _ => Raise TypeError
  end.

(** ** Decoder *)

Definition _tag_aux (data : bytes) (offset : Z) (tb : value) : result (Z * Z * option Z * Z) :=
  let bytes_read := 1 in
  tag <- py_and tb CBOR_TYPE_MASK ;;
  tag_aux <- py_and tb CBOR_INFO_BITS ;;
  if tag_aux <=? 23 then Ok (tag, tag_aux, Some tag_aux, bytes_read)
  else if tag_aux =? CBOR_UINT8_FOLLOWS then
    aux <- unpack_from 1 data (offset + 1) ;; Ok (tag, tag_aux, Some aux, bytes_read + 1)
  else if tag_aux =? CBOR_UINT16_FOLLOWS then
    aux <- unpack_from 2 data (offset + 1) ;; Ok (tag, tag_aux, Some aux, bytes_read + 2)
  else if tag_aux =? CBOR_UINT32_FOLLOWS then
    aux <- unpack_from 4 data (offset + 1) ;; Ok (tag, tag_aux, Some aux, bytes_read + 4)
  else if tag_aux =? CBOR_UINT64_FOLLOWS then
    aux <- unpack_from 8 data (offset + 1) ;; Ok (tag, tag_aux, Some aux, bytes_read + 8)
  else if tag_aux =? CBOR_VAR_FOLLOWS then Ok (tag, tag_aux, None, bytes_read)
  else Raise (BogusTag tag_aux).

(** The [while True] loop of [loads_bytes].  [tb = data[...]] is a
    one-character [str] here: the source does not take its [ord]. *)
Fixpoint loads_bytes_chunks (fuel : nat) (data : bytes) (offset btag : Z)
    (chunklist : list bytes) (total_bytes_read : Z) : result (bytes * Z) :=
  match fuel with
  | O => OutOfFuel
  | S fuel =>
    c <- getitem data (offset + total_bytes_read) ;;
    let tb := VStr [c] in
    if py_eq_int tb CBOR_BREAK then Ok (concat chunklist, total_bytes_read + 1)
    else
      '(tag, tag_aux, aux, bytes_read) <- _tag_aux data (offset + total_bytes_read) tb ;;
      if negb (tag =? btag) then Raise UnexpectedComponent
      else
        match aux with
        | None => Raise TypeError
        | Some aux =>
          let ob := slice data (offset + total_bytes_read + bytes_read)
                          (offset + total_bytes_read + bytes_read + aux) in
          loads_bytes_chunks fuel data offset btag (chunklist ++ [ob])
                             (total_bytes_read + (bytes_read + aux))
        end
  end.

Definition loads_bytes (fuel : nat) (data : bytes) (offset : Z) (aux : option Z) (btag : Z)
  : result (bytes * Z) :=
  match aux with
  | Some aux => Ok (slice data offset (offset + aux), aux)
  | None => loads_bytes_chunks fuel data offset btag [] 0
  end.

Definition _bytes_to_biguint (bs : value) : result Z :=
  chs <- py_iter bs ;;
  fold_left (fun out ch => out <- out ;; c <- py_ord ch ;; Ok (Z.lor (Z.shiftl out 8) c))
            chs (Ok 0).

(** [tagify]; tag 0 ([CBOR_TAG_DATE_STRING]) is a [pass] and falls through
    to the final [return ob]. *)
Definition tagify (ob : value) (aux : option Z) : result value :=
  let aux_is (n : Z) := match aux with Some a => a =? n | None => false end in
  if aux_is CBOR_TAG_DATE_ARRAY then utcfromtimestamp ob
  else if aux_is CBOR_TAG_BIGNUM then n <- _bytes_to_biguint ob ;; Ok (VInt n)
  else if aux_is CBOR_TAG_NEGBIGNUM then n <- _bytes_to_biguint ob ;; Ok (VInt (-1 - n))
  else if aux_is CBOR_TAG_REGEX then re_compile ob
  else Ok ob.

Section LoadsBody.
(** The body of [_loads] and one turn of each of its two
    [for i in xrange(aux)] loops.  [self] is [_loads] at its recursive
    calls, which the source writes [_loads(data, offset + bytes_read)]:
    [depth] and [returntags] take their defaults, 0 and False, there.
    [array_loop] and [map_loop] are the rest of the loops, and
    [loads_bytes'] is [loads_bytes]. *)
Variable self : bytes -> Z -> Z -> bool -> result (value * Z).
Variable array_loop : bytes -> Z -> Z -> list value -> Z -> result (value * Z).
Variable map_loop : bytes -> Z -> Z -> list (value * value) -> Z -> result (value * Z).
Variable loads_bytes' : bytes -> Z -> option Z -> Z -> result (bytes * Z).

Definition _loads_body (data : bytes) (offset depth : Z) (returntags : bool)
  : result (value * Z) :=
  if depth >? _MAX_DEPTH then Raise RecursionDepthLimit
  else
  c <- getitem data offset ;;
  let tb := ord c in
  if tb =? CBOR_FLOAT16 then Raise Float16Unsupported
  else if tb =? CBOR_FLOAT32 then
    pf <- unpack_from 4 data (offset + 1) ;; Ok (VFloat (float32_to_float64 pf), 5)
  else if tb =? CBOR_FLOAT64 then
    pf <- unpack_from 8 data (offset + 1) ;; Ok (VFloat pf, 9)
  else
  '(tag, tag_aux, aux, bytes_read) <- _tag_aux data offset (VInt tb) ;;
  if tag =? CBOR_UINT then
    Ok (match aux with Some a => VInt a | None => VNone end, bytes_read)
  else if tag =? CBOR_NEGINT then
    match aux with
    | Some a => Ok (VInt (-1 - a), bytes_read)
    | None => Raise TypeError
    end
  else if tag =? CBOR_BYTES then
    '(ob, subpos) <- loads_bytes' data (offset + bytes_read) aux CBOR_BYTES ;;
    Ok (VStr ob, bytes_read + subpos)
  else if tag =? CBOR_TEXT then
    '(raw, subpos) <- loads_bytes' data (offset + bytes_read) aux CBOR_TEXT ;;
    ob <- utf8_decode raw ;;
    Ok (VUnicode ob, bytes_read + subpos)
  else if tag =? CBOR_ARRAY then
    n <- xrange aux ;;
    array_loop data offset n [] bytes_read
  else if tag =? CBOR_MAP then
    n <- xrange aux ;;
    map_loop data offset n [] bytes_read
  else if tag =? CBOR_TAG then
    '(ob, subpos) <- self data (offset + bytes_read) 0 false ;;
    let bytes_read := bytes_read + subpos in
    ob <- (if returntags then Ok (VTag aux ob) else tagify ob aux) ;;
    Ok (ob, bytes_read)
  else if tag =? CBOR_7 then
    if tb =? CBOR_TRUE then Ok (VBool true, bytes_read)
    else if tb =? CBOR_FALSE then Ok (VBool false, bytes_read)
    else if tb =? CBOR_NULL then Ok (VNone, bytes_read)
    else if tb =? CBOR_UNDEFINED then Ok (VNone, bytes_read)
    else Raise (UnknownTag7Byte tb)
  else
    (* no branch of the source is left: [tag] is one of the eight above *)
    Raise TypeError.

(** One turn of the array loop, [n] turns being left. *)
Definition _loads_array_turn (data : bytes) (offset n : Z) (ob : list value)
    (bytes_read : Z) : result (value * Z) :=
  '(subob, subpos) <- self data (offset + bytes_read) 0 false ;;
  array_loop data offset (n - 1) (ob ++ [subob]) (bytes_read + subpos).

(** One turn of the map loop. *)
Definition _loads_map_turn (data : bytes) (offset n : Z) (ob : list (value * value))
    (bytes_read : Z) : result (value * Z) :=
  '(subk, subpos) <- self data (offset + bytes_read) 0 false ;;
  let bytes_read := bytes_read + subpos in
  '(subv, subpos) <- self data (offset + bytes_read) 0 false ;;
  let bytes_read := bytes_read + subpos in
  ob <- dict_setitem ob subk subv ;;
  map_loop data offset (n - 1) ob bytes_read.
End LoadsBody.

(** [_loads], and its loops as [_loads_array] and [_loads_map]. *)
Fixpoint _loads (fuel : nat) (data : bytes) (offset depth : Z) (returntags : bool)
    {struct fuel} : result (value * Z) :=
  match fuel with
  | O => OutOfFuel
  | S fuel =>
    _loads_body (_loads fuel) (_loads_array fuel) (_loads_map fuel) (loads_bytes fuel)
                data offset depth returntags
  end

with _loads_array (fuel : nat) (data : bytes) (offset n : Z) (ob : list value)
    (bytes_read : Z) {struct fuel} : result (value * Z) :=
  if n <=? 0 then Ok (VList ob, bytes_read)
  else
    match fuel with
    | O => OutOfFuel
    | S fuel => _loads_array_turn (_loads fuel) (_loads_array fuel) data offset n ob bytes_read
    end

with _loads_map (fuel : nat) (data : bytes) (offset n : Z) (ob : list (value * value))
    (bytes_read : Z) {struct fuel} : result (value * Z) :=
  if n <=? 0 then Ok (VDict ob, bytes_read)
  else
    match fuel with
    | O => OutOfFuel
    | S fuel => _loads_map_turn (_loads fuel) (_loads_map fuel) data offset n ob bytes_read
    end.

(** Every call of [_loads] that returns has read at least one byte, so
    twice the length of the buffer bounds the calls in flight. *)
Definition loads_fuel (data : bytes) : nat := 2 * length data + 1.

(** [loads]: [_loads(data)[0]]. *)
Definition loads (data : bytes) : result value :=
  '(ob, _) <- _loads (loads_fuel data) data 0 0 false ;; Ok ob.

(** * Vocabulary of the properties *)

(** One turn of the big-endian accumulation. *)
Definition be_step (out : Z) (ch : byte) : Z := Z.lor (Z.shiftl out 8) (ord ch).

(** [w] follow-on bytes hold the auxiliary value [aux]; none are needed
    up to 23. *)
Definition aux_fits (w : nat) (aux : Z) : bool :=
  match w with
  | O => aux <=? 23
  | _ => aux <? 256 ^ Z.of_nat w
  end.

(** The header length the specification asks for: one byte, plus the
    fewest follow-on bytes among 0, 1, 2, 4, 8 that hold the auxiliary
    value. *)
Definition minimal_header_length (aux : Z) : option nat :=
  option_map S (find (fun w => aux_fits w aux) [0; 1; 2; 4; 8]%nat).

(** What signals a malformed simple value: the two explicit failures of
    the source for a byte it does not know, and struct.error when the
    follow-on byte of [0xF8] is missing. *)
Definition malformed_simple (tb : Z) (e : exn) : Prop :=
  e = UnknownTag7Byte tb \/ e = BogusTag (Z.land tb CBOR_INFO_BITS) \/ e = StructError.

(** Failing with something other than the depth-limit exception. *)
Definition not_depth_limit {A : Type} (r : result A) : Prop := r <> Raise RecursionDepthLimit.

(** [n] nested one-element arrays around the integer 0. *)
Definition nested_arrays (n : nat) : bytes := repeat x81 n ++ [x00].

(** The lists [nested_arrays n] stands for. *)
Fixpoint nested_lists (n : nat) : value :=
  match n with
  | O => VInt 0
  | S k => VList [nested_lists k]
  end.

(** The tag numbers [tagify] turns into something else than the payload. *)
Definition recognized_tags : list (option Z) :=
  [Some CBOR_TAG_DATE_ARRAY; Some CBOR_TAG_BIGNUM; Some CBOR_TAG_NEGBIGNUM; Some CBOR_TAG_REGEX].

(** [r'] is [r], unless [r] ran out of fuel. *)
Definition refines {A : Type} (r r' : result A) : Prop := r = OutOfFuel \/ r = r'.

(** The fuel was enough. *)
Definition terminates {A : Type} (r : result A) : Prop := r <> OutOfFuel.

(** Bytes left in the buffer from [offset] on. *)
Definition remaining (data : bytes) (offset : Z) : Z := Z.max 0 (len data - offset).

(** [b] is a complete encoding of [v]: decoding [b] returns [v] and
    reports all of [b], and no more, as read. *)
Definition complete_encoding (b : bytes) (v : value) : Prop :=
  exists fuel, _loads fuel b 0 0 false = Ok (v, len b).

(** The code points of a [unicode] string. *)
Definition code_point (c : Z) : bool := (0 <=? c) && (c <=? 0x10FFFF).

(** No high surrogate of the string is followed at once by a low
    surrogate: [utf8_encode] then writes every character on its own. *)
Fixpoint no_surrogate_pair (u : list Z) : bool :=
  match u with
  | [] => true
  | ch :: r =>
    match r with
    | ch2 :: _ => negb (is_high_surrogate ch && is_low_surrogate ch2)
    | [] => true
    end && no_surrogate_pair r
  end.

(** The major types that come with an auxiliary value. *)
Definition major_types : list Z :=
  [CBOR_UINT; CBOR_NEGINT; CBOR_BYTES; CBOR_TEXT; CBOR_ARRAY; CBOR_MAP; CBOR_TAG].

(** The first byte [cbor_type | info] splits back into its two fields,
    and is none of the three float markers. *)
Definition first_byte_ok (cbor_type info : Z) : bool :=
  let tb := ord (chr (Z.lor cbor_type info)) in
  (Z.land tb CBOR_TYPE_MASK =? cbor_type) && (Z.land tb CBOR_INFO_BITS =? info)
  && negb (tb =? CBOR_FLOAT16) && negb (tb =? CBOR_FLOAT32) && negb (tb =? CBOR_FLOAT64).

(** The values that can be dict keys on both sides of the codec. *)
Definition scalar (v : value) : bool :=
  match v with
  | VNone | VBool _ | VInt _ | VFloat _ | VStr _ | VUnicode _ => true
  | _ => false
  end.

(** No key of a dict is equal to a later one. *)
Fixpoint keys_distinct (d : list (value * value)) : bool :=
  match d with
  | [] => true
  | kv :: r => forallb (fun kv' => negb (py_eq (fst kv) (fst kv'))) r && keys_distinct r
  end.

(** The bytes of a bignum are a string the interpreter can hold. *)
Definition int_representable (z : Z) : bool :=
  len (_dumps_bignum_to_bytearray (if z >=? 0 then z else -1 - z)) <=? sys_maxint.

(** The values the round trip is stated for: [None], booleans, integers,
    floats other than NaN, byte and text strings, lists of such values,
    and dicts of such values whose keys are scalars, no two of them equal.
    A text string may hold surrogates, but no high surrogate followed at
    once by a low one: the encoder writes such a pair as one character.
    The bounds on lengths hold of every object the interpreter can build
    ([len] is at most [sys.maxint]); tuples and the objects only the
    decoder makes are left out. *)
Fixpoint representable (v : value) : bool :=
  match v with
  | VNone | VBool _ => true
  | VInt z => int_representable z
  | VFloat bits => (0 <=? bits) && (bits <? 2 ^ 64) && negb (float_is_nan bits)
  | VStr s => len s <=? sys_maxint
  | VUnicode u =>
      forallb code_point u && no_surrogate_pair u && (len (utf8_encode u) <=? sys_maxint)
  | VList l => (len l <=? sys_maxint) && forallb representable l
  | VDict d =>
      (len d <=? sys_maxint)
      && forallb (fun kv => scalar (fst kv) && representable (fst kv) && representable (snd kv)) d
      && keys_distinct d
  | VTuple _ | VTag _ _ | VDatetime _ | VRegex _ => false
  end.

(** [bs] decodes to [v] wherever it sits in a buffer, [len bs] bytes
    being reported as read, once the fuel is enough. *)
Definition decodes_to (bs : bytes) (v : value) : Prop :=
  exists fuel0, forall fuel data pre post,
    (fuel0 <= fuel)%nat -> data = pre ++ bs ++ post ->
    _loads fuel data (len pre) 0 false = Ok (v, len bs).

(** What [_loads] does once the header is read: the second half of
    [_loads_body]. *)
Definition after_header (self : bytes -> Z -> Z -> bool -> result (value * Z))
    (array_loop : bytes -> Z -> Z -> list value -> Z -> result (value * Z))
    (map_loop : bytes -> Z -> Z -> list (value * value) -> Z -> result (value * Z))
    (loads_bytes' : bytes -> Z -> option Z -> Z -> result (bytes * Z))
    (data : bytes) (offset : Z) (returntags : bool) (tb tag : Z) (aux : option Z)
    (bytes_read : Z) : result (value * Z) :=
  if tag =? CBOR_UINT then
    Ok (match aux with Some a => VInt a | None => VNone end, bytes_read)
  else if tag =? CBOR_NEGINT then
    match aux with
    | Some a => Ok (VInt (-1 - a), bytes_read)
    | None => Raise TypeError
    end
  else if tag =? CBOR_BYTES then
    '(ob, subpos) <- loads_bytes' data (offset + bytes_read) aux CBOR_BYTES ;;
    Ok (VStr ob, bytes_read + subpos)
  else if tag =? CBOR_TEXT then
    '(raw, subpos) <- loads_bytes' data (offset + bytes_read) aux CBOR_TEXT ;;
    ob <- utf8_decode raw ;;
    Ok (VUnicode ob, bytes_read + subpos)
  else if tag =? CBOR_ARRAY then
    n <- xrange aux ;;
    array_loop data offset n [] bytes_read
  else if tag =? CBOR_MAP then
    n <- xrange aux ;;
    map_loop data offset n [] bytes_read
  else if tag =? CBOR_TAG then
    '(ob, subpos) <- self data (offset + bytes_read) 0 false ;;
    let bytes_read := bytes_read + subpos in
    ob <- (if returntags then Ok (VTag aux ob) else tagify ob aux) ;;
    Ok (ob, bytes_read)
  else if tag =? CBOR_7 then
    if tb =? CBOR_TRUE then Ok (VBool true, bytes_read)
    else if tb =? CBOR_FALSE then Ok (VBool false, bytes_read)
    else if tb =? CBOR_NULL then Ok (VNone, bytes_read)
    else if tb =? CBOR_UNDEFINED then Ok (VNone, bytes_read)
    else Raise (UnknownTag7Byte tb)
  else Raise TypeError.

(** The encoding of a pair is the encoding of its key followed by that of
    its value. *)
Definition pair_decodes_to (part : bytes) (kv : value * value) : Prop :=
  exists kb vb, part = kb ++ vb /\ decodes_to kb (fst kv) /\ decodes_to vb (snd kv).

(** What [dumps_dict] appends for a pair. *)
Definition dumps_pair (kv : value * value) : result bytes :=
  k <- dumps (fst kv) ;; v <- dumps (snd kv) ;; Ok (k ++ v).

(** The number of follow-on bytes the info field announces. *)
Definition follow_size (info : Z) : nat :=
  if info <=? 23 then 0
  else if info =? CBOR_UINT8_FOLLOWS then 1
  else if info =? CBOR_UINT16_FOLLOWS then 2
  else if info =? CBOR_UINT32_FOLLOWS then 4
  else 8.

(** The two exceptions of a read past the end of the buffer: of
    [data[offset]] and of [struct.unpack_from]. *)
Definition truncation_error {A : Type} (r : result A) : Prop :=
  r = Raise IndexError \/ r = Raise StructError.

(** Cut anywhere before its end, [bs] fails to decode with one of these. *)
Definition prefix_raises (bs : bytes) : Prop :=
  exists fuel0, forall fuel pre p rest,
    (fuel0 <= fuel)%nat -> bs = p ++ rest -> rest <> [] ->
    truncation_error (_loads fuel (pre ++ p) (len pre) 0 false).

(** The values whose encoding holds no string: no byte or text string,
    and no integer beyond 64 bits (written as a tagged byte string). *)
Fixpoint string_free (v : value) : bool :=
  match v with
  | VNone | VBool _ | VFloat _ => true
  | VInt z => (- 2 ^ 64 <=? z) && (z <=? 2 ^ 64 - 1)
  | VList l => forallb string_free l
  | VDict d => forallb (fun kv => string_free (fst kv) && string_free (snd kv)) d
  | _ => false
  end.

(** A pair whose key and value decode, and fail to when cut short. *)
Definition pair_truncates (part : bytes) (kv : value * value) : Prop :=
  exists kb vb, part = kb ++ vb
                /\ decodes_to kb (fst kv) /\ decodes_to vb (snd kv)
                /\ prefix_raises kb /\ prefix_raises vb.

(** A value with every kind of item the round trip covers. *)
Definition roundtrip_sample : value :=
  VDict [(VInt 1, VList [VNone; VBool true; VInt (-2 ^ 64 - 1); VFloat 0x3FF0000000000000]);
         (VUnicode [0x20AC; 0x61], VStr [x00; xff]);
         (VStr [x61], VDict [(VInt (2 ^ 64), VList [])])].

(** A length or count that fits the 64-bit auxiliary value of a header. *)
Definition fits_header (n : Z) : bool := n <=? 0x0ffffffffffffffff.

(** The values [dumps] has a branch for, all the way down, with lengths
    that fit their header: an integer beyond 64 bits is written as a byte
    string, whose length has to fit. *)
Fixpoint serializable (v : value) : bool :=
  match v with
  | VNone | VBool _ | VFloat _ => true
  | VInt z =>
      let m := if z >=? 0 then z else -1 - z in
      fits_header m || fits_header (len (_dumps_bignum_to_bytearray m))
  | VStr s => fits_header (len s)
  | VUnicode u => fits_header (len (utf8_encode u))
  | VList l | VTuple l => fits_header (len l) && forallb serializable l
  | VDict d =>
      fits_header (len d)
      && forallb (fun kv => serializable (fst kv) && serializable (snd kv)) d
  | VTag _ _ | VDatetime _ | VRegex _ => false
  end.

(** The major type [dumps] writes in the first byte for a value it has a
    branch for. *)
Definition encoded_major_type (v : value) : Z :=
  match v with
  | VInt z =>
      if z >=? 0 then (if fits_header z then CBOR_UINT else CBOR_TAG)
      else if fits_header (-1 - z) then CBOR_NEGINT else CBOR_TAG
  | VStr _ => CBOR_BYTES
  | VUnicode _ => CBOR_TEXT
  | VList _ | VTuple _ => CBOR_ARRAY
  | VDict _ => CBOR_MAP
  | _ => CBOR_7
  end.

(** The two failures of the encoder: an object of a type it has no branch
    for, and a length beyond 64 bits. *)
Definition encoder_failure (e : exn) : Prop :=
  e = DontKnowHowToSerialize \/ exists n, 0x0ffffffffffffffff < n /\ e = ValueTooBig n.

(** What encoding [v] comes to: some bytes, the first of them with the
    major type of [v], when [v] is serializable; one of the two failures
    when it is not. *)
Definition dumps_outcome (v : value) (r : result bytes) : Prop :=
  if serializable v
  then exists c tl, r = Ok (c :: tl)
                    /\ Z.land (ord c) CBOR_TYPE_MASK = encoded_major_type v
  else exists e, r = Raise e /\ encoder_failure e.

(** The objects the decoder builds: no tuple and no [Tag] anywhere, and
    every dict key has a hash. *)
Fixpoint decoder_made (v : value) : bool :=
  match v with
  | VNone | VBool _ | VInt _ | VFloat _ | VStr _ | VUnicode _ => true
  | VList l => forallb decoder_made l
  | VDict d =>
      forallb (fun kv => hashable (fst kv) && decoder_made (fst kv) && decoder_made (snd kv)) d
  | VDatetime x | VRegex x => decoder_made x
  | VTuple _ | VTag _ _ => false
  end.

(** The dict that assigning the pairs in order builds ([ob[k] = v] for
    each of them, starting from the empty dict). *)
Definition dict_of_pairs (d : list (value * value)) : list (value * value) :=
  fold_left (fun ob kv => dict_update ob (fst kv) (snd kv)) d [].

(** The characters of an ASCII [str]. *)
Definition ascii (s : bytes) : bool := forallb (fun c => ord c <? 128) s.

(** The number an IEEE-754 bit pattern stands for, read off its fields: a
    sign bit above [we] exponent bits above [wm] fraction bits.  A finite
    number is given by its sign and its magnitude times [scale] (so that
    both formats give integers: a binary64 pattern counts in units of
    [2 ^ -1074], a binary32 pattern in units of [2 ^ -149]). *)
Inductive ieee : Type :=
| NaN
| Infinity (negative : bool)
| Finite (negative : bool) (scaled : Z).

Definition ieee_read (we wm scale bits : Z) : ieee :=
  let negative := Z.testbit bits (we + wm) in
  let e := Z.land (Z.shiftr bits wm) (Z.ones we) in
  let m := Z.land bits (Z.ones wm) in
  if e =? Z.ones we then (if m =? 0 then Infinity negative else NaN)
  else if e =? 0 then Finite negative (m * scale)
  else Finite negative ((2 ^ wm + m) * 2 ^ (e - 1) * scale).

(** Both formats on one scale, the magnitude times [2 ^ 1074]. *)
Definition binary32_value (w : Z) : ieee := ieee_read 8 23 (2 ^ 925) w.
Definition binary64_value (bits : Z) : ieee := ieee_read 11 52 1 bits.

(** * Properties *)

(** ** Bytes and big-endian numbers *)

Lemma ord_range (c : byte) : 0 <= ord c < 256.
Proof.
  unfold ord. pose proof (Byte.to_N_bounded c). lia.
Qed.

Lemma ord_chr (i : Z) : 0 <= i < 256 -> ord (chr i) = i.
Proof.
  intros Hi. unfold ord, chr.
  rewrite Z.mod_small by lia.
  destruct (Byte.of_N (Z.to_N i)) as [c|] eqn:E.
  - apply Byte.to_of_N in E. rewrite E. lia.
  - apply Byte.of_N_None_iff in E. lia.
Qed.

Lemma chr_ord (c : byte) : chr (ord c) = c.
Proof.
  unfold chr, ord.
  pose proof (Byte.to_N_bounded c).
  rewrite Z.mod_small by lia.
  rewrite N2Z.id, Byte.of_to_N. reflexivity.
Qed.

Lemma chr_mod (i : Z) : chr (i mod 256) = chr i.
Proof.
  unfold chr. rewrite Z.mod_mod by lia. reflexivity.
Qed.

Lemma lor_shiftl_8 (a b : Z) : 0 <= b < 256 -> Z.lor (Z.shiftl a 8) b = a * 256 + b.
Proof.
  intros Hb.
  assert (Hdisj : Z.land (Z.shiftl a 8) b = 0).
  { apply Z.bits_inj'. intros i Hi.
    rewrite Z.land_spec, Z.bits_0.
    destruct (Z_lt_dec i 8).
    - rewrite Z.shiftl_spec_low by lia. reflexivity.
    - replace (Z.testbit b i) with false; [apply andb_false_r|].
      symmetry. apply Z.bits_above_log2; [lia|].
      destruct (Z.eq_dec b 0) as [->|]; [simpl; lia|].
      apply Z.log2_lt_pow2; [lia|].
      apply Z.lt_le_trans with (2 ^ 8); [simpl; lia|].
      apply Z.pow_le_mono_r; lia. }
  rewrite <- Z.lxor_lor, <- Z.add_nocarry_lxor by assumption.
  rewrite Z.shiftl_mul_pow2 by lia. reflexivity.
Qed.

Lemma len_nonneg {A : Type} (l : list A) : 0 <= len l.
Proof. unfold len. lia. Qed.

Lemma len_cons' {A : Type} (x : A) (l : list A) : len (x :: l) = Z.succ (len l).
Proof. unfold len. simpl length. lia. Qed.

Lemma be_step_eq (out : Z) (ch : byte) : be_step out ch = out * 256 + ord ch.
Proof. apply lor_shiftl_8, ord_range. Qed.

Lemma fold_be_step (bs : bytes) (acc : Z) :
  fold_left be_step bs acc = acc * 256 ^ len bs + fold_left be_step bs 0.
Proof.
  revert acc. induction bs as [|c bs IH]; intros acc.
  - simpl. unfold len. simpl. lia.
  - cbn [fold_left]. rewrite IH. rewrite (IH (be_step 0 c)). rewrite !be_step_eq.
    rewrite len_cons', Z.pow_succ_r by apply len_nonneg. ring.
Qed.

Lemma bytes_to_biguint_cons (c : byte) (bs : bytes) :
  bytes_to_biguint (c :: bs) = ord c * 256 ^ len bs + bytes_to_biguint bs.
Proof.
  change (bytes_to_biguint (c :: bs)) with (fold_left be_step bs (be_step 0 c)).
  change (bytes_to_biguint bs) with (fold_left be_step bs 0).
  rewrite fold_be_step, be_step_eq. ring.
Qed.

Lemma bytes_to_biguint_range (bs : bytes) : 0 <= bytes_to_biguint bs < 256 ^ len bs.
Proof.
  induction bs as [|c bs IH].
  - unfold bytes_to_biguint, len. simpl. lia.
  - rewrite bytes_to_biguint_cons.
    pose proof (ord_range c).
    rewrite len_cons', Z.pow_succ_r by apply len_nonneg.
    nia.
Qed.

Lemma len_cons {A : Type} (x : A) (l : list A) : len (x :: l) = len l + 1.
Proof. unfold len. simpl length. lia. Qed.

Lemma len_app {A : Type} (l m : list A) : len (l ++ m) = len l + len m.
Proof. unfold len. rewrite length_app. lia. Qed.


Lemma len_pack_be (n : nat) (val : Z) : len (pack_be n val) = Z.of_nat n.
Proof.
  unfold len. f_equal. induction n; simpl; congruence.
Qed.

(** Packing a number that fits and reading the field back. *)
Lemma unpack_pack_be (n : nat) (val : Z) :
  0 <= val < 256 ^ Z.of_nat n -> bytes_to_biguint (pack_be n val) = val.
Proof.
  revert val. induction n as [|n IH]; intros val Hval.
  - simpl in Hval. unfold bytes_to_biguint. simpl. lia.
  - cbn [pack_be]. rewrite bytes_to_biguint_cons, len_pack_be.
    rewrite Nat2Z.inj_succ, Z.pow_succ_r in Hval by lia.
    rewrite Z.shiftr_div_pow2 by lia.
    replace (2 ^ (8 * Z.of_nat n)) with (256 ^ Z.of_nat n)
      by (change 256 with (2 ^ 8); rewrite <- Z.pow_mul_r by lia; reflexivity).
    assert (Hp : 0 < 256 ^ Z.of_nat n) by (apply Z.pow_pos_nonneg; lia).
    rewrite ord_chr.
    2:{ split; [apply Z.div_pos; lia|]. apply Z.div_lt_upper_bound; lia. }
    assert (Hlow : bytes_to_biguint (pack_be n val) = val mod 256 ^ Z.of_nat n).
    { clear Hval. revert val. clear IH. induction n as [|n IHn]; intros val.
      - simpl. rewrite Z.mod_1_r. reflexivity.
      - cbn [pack_be]. rewrite bytes_to_biguint_cons, len_pack_be.
        rewrite IHn by (apply Z.pow_pos_nonneg; lia).
        rewrite Z.shiftr_div_pow2 by lia.
        replace (2 ^ (8 * Z.of_nat n)) with (256 ^ Z.of_nat n)
          by (change 256 with (2 ^ 8); rewrite <- Z.pow_mul_r by lia; reflexivity).
        rewrite Nat2Z.inj_succ, Z.pow_succ_r by lia.
        assert (Hq : 0 < 256 ^ Z.of_nat n) by (apply Z.pow_pos_nonneg; lia).
        rewrite <- chr_mod. rewrite ord_chr by (apply Z.mod_pos_bound; lia).
        rewrite (Z.mul_comm 256), Z.rem_mul_r by lia. ring. }
    rewrite Hlow.
    rewrite (Z.div_mod val (256 ^ Z.of_nat n)) at 3 by lia. ring.
Qed.

(** ** Bignum codec *)

Lemma bignum_loop_value (val : Z) (out : bytes) :
  0 <= val ->
  bytes_to_biguint (bignum_loop val out) = val * 256 ^ len out + bytes_to_biguint out.
Proof.
  funelim (bignum_loop val out); intros Hval.
  - rewrite H by (apply Z.shiftr_nonneg; lia).
    rewrite bytes_to_biguint_cons.
    change 0x0ff with (Z.ones 8). rewrite Z.land_ones by lia.
    rewrite ord_chr by (apply Z.mod_pos_bound; lia).
    rewrite Z.shiftr_div_pow2 by lia.
    rewrite len_cons', Z.pow_succ_r by apply len_nonneg.
    change (2 ^ 8) with 256.
    rewrite (Z.div_mod val 256) at 3 by lia. ring.
  - assert (val = 0) by lia. subst. lia.
Qed.

Lemma bignum_loop_eq (val : Z) (out : bytes) :
  bignum_loop val out =
  if val >? 0 then bignum_loop (Z.shiftr val 8) (chr (Z.land val 0x0ff) :: out) else out.
Proof.
  funelim (bignum_loop val out).
  - rewrite (proj2 (Z.gtb_gt val 0)) by lia. reflexivity.
  - destruct (val >? 0) eqn:E; [apply Z.gtb_gt in E; lia|reflexivity].
Qed.

Lemma shiftr_8_lt (val : Z) : 0 < val -> 0 <= Z.shiftr val 8 < val.
Proof.
  intros H. rewrite Z.shiftr_div_pow2 by lia. change (2 ^ 8) with 256.
  split; [apply Z.div_pos; lia|apply Z.div_lt; lia].
Qed.

Lemma bignum_loop_app (val : Z) (out : bytes) :
  bignum_loop val out = bignum_loop val [] ++ out.
Proof.
  destruct (Z_le_gt_dec 0 val) as [Hval|Hval].
  - revert out. pattern val. apply Z_lt_induction; [|assumption].
    clear val Hval. intros val IH out.
    rewrite (bignum_loop_eq val out), (bignum_loop_eq val []).
    destruct (val >? 0) eqn:E; [|reflexivity].
    apply Z.gtb_gt in E.
    assert (Hs : 0 <= Z.shiftr val 8 < val) by (apply shiftr_8_lt; lia).
    rewrite (IH _ Hs (_ :: out)), (IH _ Hs [_]).
    rewrite <- app_assoc. reflexivity.
  - rewrite (bignum_loop_eq val out), (bignum_loop_eq val []).
    destruct (val >? 0) eqn:E; [apply Z.gtb_gt in E; lia|reflexivity].
Qed.

Lemma bignum_loop_nonpos (val : Z) (out : bytes) : val <= 0 -> bignum_loop val out = out.
Proof.
  intros H. rewrite bignum_loop_eq.
  destruct (val >? 0) eqn:E; [apply Z.gtb_gt in E; lia|reflexivity].
Qed.

(** The first byte written for a positive number is not zero. *)
Lemma bignum_loop_head (val : Z) :
  0 < val ->
  exists c r, _dumps_bignum_to_bytearray val = c :: r /\ ord c <> 0.
Proof.
  intros Hval. unfold _dumps_bignum_to_bytearray.
  assert (H0 : 0 <= val) by lia. revert Hval.
  pattern val. apply Z_lt_induction; [|assumption].
  clear val H0. intros val IH Hval.
  rewrite bignum_loop_eq. rewrite (proj2 (Z.gtb_gt val 0)) by lia.
  rewrite bignum_loop_app.
  pose proof (shiftr_8_lt Hval) as Hs.
  destruct (Z.eq_dec (Z.shiftr val 8) 0) as [Hz|Hnz].
  - rewrite Hz, bignum_loop_nonpos by lia. cbn [app].
    eexists _, _. split; [reflexivity|].
    change 0x0ff with (Z.ones 8). rewrite Z.land_ones by lia.
    rewrite ord_chr by (apply Z.mod_pos_bound; lia).
    rewrite Z.shiftr_div_pow2 in Hz by lia. change (2 ^ 8) with 256 in *.
    intros Hm. pose proof (Z.div_mod val 256). lia.
  - destruct (IH (Z.shiftr val 8)) as (c & r & E & Hc); [lia|lia|].
    rewrite E. eexists _, _. split; [reflexivity|assumption].
Qed.

Lemma pow256_lt_inv (a b : nat) : 256 ^ Z.of_nat a < 256 ^ Z.of_nat b -> (a < b)%nat.
Proof.
  intros H. destruct (le_lt_dec b a) as [Hle|]; [|assumption].
  exfalso. assert (256 ^ Z.of_nat b <= 256 ^ Z.of_nat a) by (apply Z.pow_le_mono_r; lia).
  lia.
Qed.

Lemma _bytes_to_biguint_str (s : bytes) :
  _bytes_to_biguint (VStr s) = Ok (bytes_to_biguint s).
Proof.
  unfold _bytes_to_biguint, bytes_to_biguint. cbn [py_iter bind].
  generalize 0. induction s as [|c s IH]; intros acc; [reflexivity|].
  cbn [map fold_left py_ord bind]. apply IH.
Qed.

Lemma _bytes_to_biguint_chars (s : bytes) :
  _bytes_to_biguint (VList (map (fun c => VStr [c]) s)) = Ok (bytes_to_biguint s).
Proof.
  rewrite <- _bytes_to_biguint_str. reflexivity.
Qed.

(** C10: the bignum byte conversion writes nothing for zero, never
    starts with a zero byte, is the shortest byte sequence that
    accumulates to [n], and accumulating it back gives [n] (both on the
    list of characters [_dumps_bignum_to_bytearray] returns and on the
    byte string the decoder hands to [_bytes_to_biguint]). *)
Theorem bignum_roundtrip (n : Z) :
  0 <= n ->
  let outb := _dumps_bignum_to_bytearray n in
  _bytes_to_biguint (VList (map (fun c => VStr [c]) outb)) = Ok n
  /\ _bytes_to_biguint (VStr outb) = Ok n
  /\ (outb = [] <-> n = 0)
  /\ (forall c r, outb = c :: r -> ord c <> 0)
  /\ (forall bs, bytes_to_biguint bs = n -> (length outb <= length bs)%nat).
Proof.
  intros Hn outb.
  assert (Hval : bytes_to_biguint outb = n).
  { unfold outb, _dumps_bignum_to_bytearray. rewrite bignum_loop_value by assumption.
    unfold len, bytes_to_biguint. simpl. lia. }
  assert (Hhead : forall c r, outb = c :: r -> ord c <> 0).
  { intros c r E. destruct (Z.eq_dec n 0) as [->|Hnz].
    - unfold outb, _dumps_bignum_to_bytearray in E.
      rewrite bignum_loop_nonpos in E by lia. discriminate.
    - destruct (@bignum_loop_head n) as (c' & r' & E' & Hc); [lia|].
      fold outb in E'. congruence. }
  repeat split.
  - rewrite _bytes_to_biguint_chars. congruence.
  - rewrite _bytes_to_biguint_str. congruence.
  - intros E. rewrite E in Hval. unfold bytes_to_biguint in Hval. simpl in Hval. lia.
  - intros ->. unfold outb, _dumps_bignum_to_bytearray. apply bignum_loop_nonpos. lia.
  - assumption.
  - intros bs Hbs. destruct outb as [|c r] eqn:E; [simpl; lia|].
    pose proof (Hhead c r eq_refl) as Hc. pose proof (ord_range c) as Hr.
    pose proof (bytes_to_biguint_range bs) as Hb.
    pose proof (bytes_to_biguint_range r) as Hrr.
    rewrite bytes_to_biguint_cons in Hval.
    assert (Hlt : 256 ^ Z.of_nat (length r) < 256 ^ Z.of_nat (length bs)).
    { unfold len in *. nia. }
    apply pow256_lt_inv in Hlt. simpl. lia.
Qed.

Lemma bignum_roundtrip_witness :
  0 <= 256 /\ _bytes_to_biguint (VStr (_dumps_bignum_to_bytearray 256)) = Ok 256.
Proof.
  split; [lia|]. apply (bignum_roundtrip (n := 256)). lia.
Defined.

(** ** Header widths *)

Lemma _encode_type_num_body_ext (self self' : Z -> Z -> result bytes) (cbor_type val : Z) :
  (forall n, self CBOR_BYTES n = self' CBOR_BYTES n) ->
  _encode_type_num_body self cbor_type val = _encode_type_num_body self' cbor_type val.
Proof.
  intros H. unfold _encode_type_num_body. rewrite H. reflexivity.
Qed.

Lemma _encode_type_num_body_bytes (self self' : Z -> Z -> result bytes) (val : Z) :
  _encode_type_num_body self CBOR_BYTES val = _encode_type_num_body self' CBOR_BYTES val.
Proof.
  unfold _encode_type_num_body.
  change (negb (CBOR_BYTES =? CBOR_NEGINT)) with true. reflexivity.
Qed.

(** The unfolding of [_encode_type_num] is the function of the source. *)
Lemma _encode_type_num_eq (cbor_type val : Z) :
  _encode_type_num cbor_type val = _encode_type_num_body _encode_type_num cbor_type val.
Proof.
  unfold _encode_type_num. apply _encode_type_num_body_ext.
  intros n. apply _encode_type_num_body_bytes.
Qed.

Lemma _encode_type_num_length (cbor_type aux : Z) :
  0 <= aux <= 0x0ffffffffffffffff ->
  exists bs, _encode_type_num cbor_type aux = Ok bs
             /\ Some (length bs) = minimal_header_length aux.
Proof.
  intros H. rewrite _encode_type_num_eq. unfold _encode_type_num_body.
  unfold minimal_header_length, find, aux_fits.
  change (256 ^ Z.of_nat 1) with 256. change (256 ^ Z.of_nat 2) with 65536.
  change (256 ^ Z.of_nat 4) with 4294967296.
  change (256 ^ Z.of_nat 8) with 18446744073709551616.
  destruct (aux <? 0) eqn:E0; [apply Z.ltb_lt in E0; lia|].
  destruct (aux <=? 23) eqn:E1; [eexists; split; reflexivity|].
  destruct (aux <=? 255) eqn:E2.
  { rewrite (proj2 (Z.ltb_lt aux 256)) by (apply Z.leb_le in E2; lia).
    eexists; split; reflexivity. }
  rewrite (proj2 (Z.ltb_ge aux 256)) by (apply Z.leb_gt in E2; lia).
  destruct (aux <=? 65535) eqn:E3.
  { rewrite (proj2 (Z.ltb_lt aux 65536)) by (apply Z.leb_le in E3; lia).
    eexists; split; reflexivity. }
  rewrite (proj2 (Z.ltb_ge aux 65536)) by (apply Z.leb_gt in E3; lia).
  destruct (aux <=? 4294967295) eqn:E4.
  { rewrite (proj2 (Z.ltb_lt aux 4294967296)) by (apply Z.leb_le in E4; lia).
    eexists; split; reflexivity. }
  rewrite (proj2 (Z.ltb_ge aux 4294967296)) by (apply Z.leb_gt in E4; lia).
  rewrite (proj2 (Z.leb_le aux 18446744073709551615)) by lia.
  rewrite (proj2 (Z.ltb_lt aux 18446744073709551616)) by lia.
  eexists; split; reflexivity.
Qed.

Lemma dumps_int_nonneg_eq (val : Z) :
  0 <= val <= 0x0ffffffffffffffff -> dumps_int val = _encode_type_num CBOR_UINT val.
Proof.
  intros H. rewrite _encode_type_num_eq. unfold dumps_int, _encode_type_num_body.
  rewrite (proj2 (Z.geb_le val 0)) by lia.
  rewrite (proj2 (Z.ltb_ge val 0)) by lia.
  destruct (val <=? 23) eqn:E1.
  { apply Z.leb_le in E1. cbn [pack_be]. rewrite Z.shiftr_0_r.
    change (Z.lor CBOR_UINT val) with val. reflexivity. }
  destruct (val <=? 255); [reflexivity|].
  destruct (val <=? 65535); [reflexivity|].
  destruct (val <=? 4294967295); [reflexivity|].
  rewrite (proj2 (Z.leb_le val 18446744073709551615)) by lia.
  reflexivity.
Qed.

(** C5: integers within the 64-bit range get a header of the minimal
    width, on the non-negative side (the auxiliary value is [val]) and on
    the negative side (the integer [-1 - val] has auxiliary value [val]);
    the boundary values of the specification are encoded as it says. *)
Theorem dumps_int_minimal_width :
  (forall val, 0 <= val <= 0x0ffffffffffffffff ->
     exists bs bs',
       dumps_int val = Ok bs /\ Some (length bs) = minimal_header_length val
       /\ dumps_int (-1 - val) = Ok bs' /\ Some (length bs') = minimal_header_length val)
  /\ dumps_int 23 = Ok [x17]
  /\ dumps_int 24 = Ok [x18; x18]
  /\ dumps_int 255 = Ok [x18; xff]
  /\ dumps_int 256 = Ok [x19; x01; x00]
  /\ dumps_int 65535 = Ok [x19; xff; xff]
  /\ dumps_int 65536 = Ok [x1a; x00; x01; x00; x00]
  /\ dumps_int (2 ^ 32 - 1) = Ok [x1a; xff; xff; xff; xff]
  /\ dumps_int (2 ^ 32) = Ok [x1b; x00; x00; x00; x01; x00; x00; x00; x00]
  /\ dumps_int (-1) = Ok [x20]
  /\ dumps_int (-24) = Ok [x37]
  /\ dumps_int (-25) = Ok [x38; x18].
Proof.
  split; [|repeat split; reflexivity].
  intros val H.
  destruct (_encode_type_num_length CBOR_UINT H) as (bs & E & L).
  destruct (_encode_type_num_length CBOR_NEGINT H) as (bs' & E' & L').
  exists bs, bs'. rewrite dumps_int_nonneg_eq by assumption.
  repeat split; try assumption.
  unfold dumps_int.
  destruct (-1 - val >=? 0) eqn:G; [apply Z.geb_le in G; lia|].
  replace (-1 - (-1 - val)) with val by lia. exact E'.
Qed.

Lemma dumps_int_minimal_width_witness :
  exists bs bs',
    dumps_int 1000 = Ok bs /\ Some (length bs) = minimal_header_length 1000
    /\ dumps_int (-1 - 1000) = Ok bs' /\ Some (length bs') = minimal_header_length 1000.
Proof.
  apply (proj1 dumps_int_minimal_width 1000). lia.
Defined.

(** ** Reading a buffer *)

(** From 0 on, an offset is taken as it is. *)
Lemma unpack_from_nonneg (size : nat) (data : bytes) (offset : Z) :
  0 <= offset ->
  unpack_from size data offset
  = if len data - offset <? Z.of_nat size then Raise StructError
    else Ok (unpack_be (firstn size (skipn (Z.to_nat offset) data))).
Proof.
  intros H. unfold unpack_from. cbv zeta.
  rewrite !(proj2 (Z.ltb_ge offset 0)) by lia. reflexivity.
Qed.

Lemma slice_index_nonneg (n i : Z) : 0 <= n -> 0 <= i -> slice_index n i = Z.min n i.
Proof.
  intros Hn Hi. unfold slice_index. rewrite (proj2 (Z.ltb_ge i 0)) by lia. lia.
Qed.

(** Between two bounds from 0 on, a slice is what is left of the buffer
    after [lo] bytes, up to [hi - lo] bytes of it. *)
Lemma slice_nonneg (data : bytes) (lo hi : Z) :
  0 <= lo -> 0 <= hi ->
  slice data lo hi = firstn (Z.to_nat (hi - lo)) (skipn (Z.to_nat lo) data).
Proof.
  intros Hlo Hhi. unfold slice. cbv zeta. pose proof (len_nonneg data) as Hn.
  rewrite !slice_index_nonneg by assumption. unfold len in *.
  destruct (Z_le_gt_dec (Z.of_nat (length data)) lo) as [H1|H1].
  - rewrite !skipn_all2 by lia. rewrite !firstn_nil. reflexivity.
  - rewrite (Z.min_r _ lo) by lia.
    destruct (Z_le_gt_dec hi (Z.of_nat (length data))) as [H2|H2].
    + rewrite (Z.min_r _ hi) by lia. reflexivity.
    + rewrite (Z.min_l _ hi) by lia.
      rewrite !firstn_all2; [reflexivity| |]; rewrite length_skipn; lia.
Qed.

Lemma getitem_app (pre post : bytes) (c : byte) :
  getitem (pre ++ c :: post) (len pre) = Ok c.
Proof.
  unfold getitem. pose proof (len_nonneg pre) as Hp.
  rewrite (proj2 (Z.ltb_ge (len pre) 0)) by lia.
  rewrite len_app, len_cons. pose proof (len_nonneg post).
  rewrite (proj2 (Z.leb_le 0 (len pre))) by lia.
  rewrite (proj2 (Z.ltb_lt (len pre) _)) by lia. cbn [andb].
  unfold len. rewrite Nat2Z.id, nth_error_app2 by lia.
  rewrite Nat.sub_diag. reflexivity.
Qed.

Lemma getitem_cons_0 (c : byte) (rest : bytes) : getitem (c :: rest) 0 = Ok c.
Proof. apply (getitem_app [] rest c). Qed.

Lemma getitem_Ok (data : bytes) (i : Z) (c : byte) :
  0 <= i -> getitem data i = Ok c ->
  i < len data /\ nth_error data (Z.to_nat i) = Some c.
Proof.
  intros Hi. unfold getitem.
  rewrite (proj2 (Z.ltb_ge i 0)) by lia.
  destruct ((0 <=? i) && (i <? len data)) eqn:E; [|discriminate].
  apply andb_prop in E. destruct E as [_ E]. apply Z.ltb_lt in E.
  destruct (nth_error data (Z.to_nat i)) eqn:N; [|discriminate].
  intros [= ->]. auto.
Qed.

Lemma skipn_len_app (pre rest : bytes) : skipn (Z.to_nat (len pre)) (pre ++ rest) = rest.
Proof.
  unfold len. rewrite Nat2Z.id, skipn_app, Nat.sub_diag, skipn_all. reflexivity.
Qed.

Lemma unpack_from_app (size : nat) (pre fld post : bytes) :
  length fld = size ->
  unpack_from size (pre ++ fld ++ post) (len pre) = Ok (bytes_to_biguint fld).
Proof.
  intros <-. rewrite unpack_from_nonneg by apply len_nonneg.
  rewrite !len_app. pose proof (len_nonneg post).
  rewrite (proj2 (Z.ltb_ge _ _)) by (unfold len in *; lia).
  rewrite skipn_len_app, firstn_app, Nat.sub_diag, firstn_all, firstn_O, app_nil_r.
  reflexivity.
Qed.

Lemma slice_app (pre s post : bytes) :
  slice (pre ++ s ++ post) (len pre) (len pre + len s) = s.
Proof.
  pose proof (len_nonneg pre). pose proof (len_nonneg s).
  rewrite slice_nonneg by lia. rewrite skipn_len_app.
  replace (len pre + len s - len pre) with (len s) by lia.
  unfold len. rewrite Nat2Z.id, firstn_app, Nat.sub_diag, firstn_all, firstn_O, app_nil_r.
  reflexivity.
Qed.

(** ** Unfolding the decoder *)

Lemma loads_fuel_S (data : bytes) : loads_fuel data = S (2 * length data).
Proof. unfold loads_fuel. lia. Qed.

Lemma _loads_S (fuel : nat) (data : bytes) (offset depth : Z) (returntags : bool) :
  _loads (S fuel) data offset depth returntags =
  _loads_body (_loads fuel) (_loads_array fuel) (_loads_map fuel) (loads_bytes fuel)
              data offset depth returntags.
Proof. reflexivity. Qed.

Lemma _loads_array_eq (fuel : nat) (data : bytes) (offset n : Z) (ob : list value)
    (bytes_read : Z) :
  _loads_array fuel data offset n ob bytes_read =
  if n <=? 0 then Ok (VList ob, bytes_read)
  else match fuel with
       | O => OutOfFuel
       | S fuel =>
         _loads_array_turn (_loads fuel) (_loads_array fuel) data offset n ob bytes_read
       end.
Proof. destruct fuel; reflexivity. Qed.

Lemma _loads_map_eq (fuel : nat) (data : bytes) (offset n : Z) (ob : list (value * value))
    (bytes_read : Z) :
  _loads_map fuel data offset n ob bytes_read =
  if n <=? 0 then Ok (VDict ob, bytes_read)
  else match fuel with
       | O => OutOfFuel
       | S fuel =>
         _loads_map_turn (_loads fuel) (_loads_map fuel) data offset n ob bytes_read
       end.
Proof. destruct fuel; reflexivity. Qed.

Lemma loads_cons (c : byte) (rest : bytes) :
  loads (c :: rest) =
  '(ob, _) <- _loads_body (_loads (2 * length (c :: rest)))
                          (_loads_array (2 * length (c :: rest)))
                          (_loads_map (2 * length (c :: rest)))
                          (loads_bytes (2 * length (c :: rest)))
                          (c :: rest) 0 0 false ;;
  Ok ob.
Proof. unfold loads. rewrite loads_fuel_S, _loads_S. reflexivity. Qed.

Global Opaque _loads _loads_array _loads_map.

(** ** C6: major type 7 *)

Lemma loads_simple_other (c : byte) (rest : bytes) :
  Z.land (ord c) CBOR_TYPE_MASK = CBOR_7 ->
  ~ In c [xf4; xf5; xf6; xf7; xf9; xfa; xfb] ->
  exists e, loads (c :: rest) = Raise e /\ malformed_simple (ord c) e.
Proof.
  intros Htag Hnot. rewrite loads_cons. unfold _loads_body.
  rewrite getitem_cons_0. cbn [bind]. unfold malformed_simple.
  destruct c; try (exfalso; vm_compute in Htag; discriminate Htag);
    try (exfalso; apply Hnot; cbn [In]; tauto);
    try (eexists; split; [reflexivity|vm_compute; tauto]).
  (* 0xF8: the value is in the next byte *)
  destruct rest as [|c1 rest].
  - eexists; split; [reflexivity|vm_compute; tauto].
  - change (_tag_aux (xf8 :: c1 :: rest) 0 (VInt (ord xf8)))
      with (aux <- unpack_from 1 ([xf8] ++ [c1] ++ rest) (len [xf8]) ;;
            Ok (CBOR_7, 24, Some aux, 2)).
    rewrite unpack_from_app by reflexivity.
    eexists; split; [reflexivity|vm_compute; tauto].
Qed.

(** ** Widening a binary32 pattern *)

Lemma lor_shiftl (a b n : Z) :
  0 <= n -> 0 <= b < 2 ^ n -> Z.lor (Z.shiftl a n) b = a * 2 ^ n + b.
Proof.
  intros Hn Hb.
  assert (Hdisj : Z.land (Z.shiftl a n) b = 0).
  { apply Z.bits_inj'. intros i Hi.
    rewrite Z.land_spec, Z.bits_0.
    destruct (Z_lt_dec i n).
    - rewrite Z.shiftl_spec_low by lia. reflexivity.
    - replace (Z.testbit b i) with false; [apply andb_false_r|].
      symmetry.
      destruct (Z.eq_dec b 0) as [->|]; [apply Z.bits_0|].
      apply Z.bits_above_log2; [lia|].
      apply Z.log2_lt_pow2; [lia|].
      apply Z.lt_le_trans with (2 ^ n); [apply Hb|].
      apply Z.pow_le_mono_r; lia. }
  rewrite <- Z.lxor_lor, <- Z.add_nocarry_lxor by assumption.
  rewrite Z.shiftl_mul_pow2 by lia. reflexivity.
Qed.

(** The fields of a binary64 pattern put together from its parts. *)
Lemma binary64_fields (s E M : Z) :
  0 <= s <= 1 -> 0 <= E < 2 ^ 11 -> 0 <= M < 2 ^ 52 ->
  let r := Z.lor (Z.shiftl s 63) (Z.lor (Z.shiftl E 52) M) in
  Z.testbit r 63 = Z.odd s
  /\ Z.land (Z.shiftr r 52) (Z.ones 11) = E
  /\ Z.land r (Z.ones 52) = M.
Proof.
  intros Hs HE HM r.
  assert (Hr : r = s * 2 ^ 63 + (E * 2 ^ 52 + M)).
  { unfold r. rewrite (@lor_shiftl E M 52) by lia.
    apply lor_shiftl; [lia|].
    change (2 ^ 11) with 2048 in HE. change (2 ^ 52) with 4503599627370496 in *.
    change (2 ^ 63) with 9223372036854775808. lia. }
  clearbody r.
  rewrite Z.testbit_odd, !Z.land_ones, !Z.shiftr_div_pow2 by lia.
  change (2 ^ 11) with 2048 in *. change (2 ^ 52) with 4503599627370496 in *.
  change (2 ^ 63) with 9223372036854775808 in *.
  repeat split.
  - f_equal. subst r. Z.to_euclidean_division_equations. lia.
  - subst r. Z.to_euclidean_division_equations. lia.
  - subst r. Z.to_euclidean_division_equations. lia.
Qed.

(** The fields of a binary32 pattern. *)
Lemma binary32_fields (w : Z) :
  0 <= w < 2 ^ 32 ->
  0 <= Z.shiftr w 31 <= 1
  /\ 0 <= Z.land (Z.shiftr w 23) 0xFF < 256
  /\ 0 <= Z.land w 0x7FFFFF < 2 ^ 23.
Proof.
  intros Hw.
  change 0xFF with (Z.ones 8). change 0x7FFFFF with (Z.ones 23).
  rewrite !Z.land_ones, !Z.shiftr_div_pow2 by lia.
  change (2 ^ 32) with 4294967296 in Hw.
  change (2 ^ 31) with 2147483648. change (2 ^ 23) with 8388608. change (2 ^ 8) with 256.
  Z.to_euclidean_division_equations. lia.
Qed.

(** The double that [float32_to_float64] gives stands for the number the
    binary32 pattern stands for: the same sign and magnitude, infinity
    for infinity, and a NaN for a NaN. *)
Lemma float32_to_float64_value (w : Z) :
  0 <= w < 2 ^ 32 -> binary64_value (float32_to_float64 w) = binary32_value w.
Proof.
  intros Hw.
  destruct (@binary32_fields w Hw) as (Hs & He & Hm).
  unfold binary32_value, binary64_value, ieee_read, float32_to_float64.
  cbv zeta.
  change (8 + 23) with 31. change (11 + 52) with 63.
  change (Z.ones 8) with 0xFF. change (Z.ones 23) with 0x7FFFFF.
  rewrite (Z.testbit_odd w 31).
  set (s := Z.shiftr w 31) in *.
  set (e := Z.land (Z.shiftr w 23) 0xFF) in *.
  set (m := Z.land w 0x7FFFFF) in *.
  destruct (e =? 0xFF) eqn:E1.
  - destruct (m =? 0) eqn:M0.
    + destruct (@binary64_fields s 0x7FF 0 Hs) as (F1 & F2 & F3); [simpl; lia|simpl; lia|].
      rewrite Z.lor_0_r in F1, F2, F3. rewrite F1, F2, F3. reflexivity.
    + assert (HM : 0 <= Z.lor (Z.shiftl 1 51) (Z.shiftl m 29) < 2 ^ 52
                   /\ Z.lor (Z.shiftl 1 51) (Z.shiftl m 29) <> 0).
      { assert (Hm29 : 0 <= Z.shiftl m 29 < 2 ^ 52).
        { rewrite Z.shiftl_mul_pow2 by lia.
          change (2 ^ 23) with 8388608 in Hm. change (2 ^ 29) with 536870912.
          change (2 ^ 52) with 4503599627370496. lia. }
        split; [split|].
        - apply Z.lor_nonneg. split; [simpl; lia|lia].
        - destruct (Z.eq_dec (Z.shiftl m 29) 0) as [->|Hnz]; [simpl; lia|].
          assert (0 < Z.lor (Z.shiftl 1 51) (Z.shiftl m 29)).
          { assert (Z.lor (Z.shiftl 1 51) (Z.shiftl m 29) <> 0).
            { intros H0. apply Z.lor_eq_0_iff in H0. simpl in H0. lia. }
            assert (0 <= Z.lor (Z.shiftl 1 51) (Z.shiftl m 29))
              by (apply Z.lor_nonneg; split; [simpl; lia|lia]).
            lia. }
          apply Z.log2_lt_pow2; [assumption|].
          rewrite Z.log2_lor by (try lia; simpl; lia).
          apply Z.max_lub_lt; [simpl; lia|].
          apply Z.log2_lt_pow2; lia.
        - intros H0. apply Z.lor_eq_0_iff in H0. simpl in H0. lia. }
      destruct HM as [HM HM0].
      destruct (@binary64_fields s 0x7FF _ Hs ltac:(simpl; lia) HM) as (F1 & F2 & F3).
      rewrite F1, F2, F3.
      change (2047 =? Z.ones 11) with true. cbv iota.
      apply Z.eqb_neq in HM0. rewrite HM0. reflexivity.
  - destruct (e =? 0) eqn:E0.
    + destruct (m =? 0) eqn:M0.
      * apply Z.eqb_eq in M0.
        destruct (@binary64_fields s 0 0 Hs) as (F1 & F2 & F3); [simpl; lia|simpl; lia|].
        rewrite Z.shiftl_0_l, !Z.lor_0_r in F1, F2, F3. rewrite F1, F2, F3, M0. reflexivity.
      * apply Z.eqb_neq in M0.
        assert (Hpos : 0 < m) by lia.
        pose proof (Z.log2_nonneg m) as Hk0.
        destruct (Z.log2_spec m Hpos) as [Hlo Hhi].
        assert (Hk : Z.log2 m < 23) by (apply Z.log2_lt_pow2; lia).
        set (k := Z.log2 m) in *.
        replace (2 ^ Z.succ k) with (2 * 2 ^ k) in Hhi by (rewrite Z.pow_succ_r by lia; reflexivity).
        assert (Hsplit : 2 ^ 52 = 2 ^ k * 2 ^ (52 - k)).
        { rewrite <- Z.pow_add_r by lia. f_equal. lia. }
        assert (Hp : 0 < 2 ^ (52 - k)) by (apply Z.pow_pos_nonneg; lia).
        assert (HM : 0 <= Z.shiftl (m - 2 ^ k) (52 - k) < 2 ^ 52).
        { rewrite Z.shiftl_mul_pow2 by lia. rewrite Hsplit. nia. }
        assert (HE : 0 <= k - 149 + 1023 < 2 ^ 11) by (change (2 ^ 11) with 2048; lia).
        destruct (@binary64_fields s _ _ Hs HE HM) as (F1 & F2 & F3).
        rewrite F1, F2, F3.
        replace (k - 149 + 1023 =? Z.ones 11) with false by (symmetry; apply Z.eqb_neq; change (Z.ones 11) with 2047; lia).
        replace (k - 149 + 1023 =? 0) with false by (symmetry; apply Z.eqb_neq; lia).
        f_equal.
        rewrite Z.shiftl_mul_pow2 by lia.
        replace (2 ^ 52 + (m - 2 ^ k) * 2 ^ (52 - k)) with (m * 2 ^ (52 - k)) by (rewrite Hsplit; ring).
        replace (k - 149 + 1023 - 1) with (k + 873) by lia.
        rewrite Z.mul_1_r, <- Z.mul_assoc, <- Z.pow_add_r by lia.
        do 2 f_equal. lia.
    + apply Z.eqb_neq in E1, E0.
      assert (HM : 0 <= Z.shiftl m 29 < 2 ^ 52).
      { rewrite Z.shiftl_mul_pow2 by lia.
        change (2 ^ 23) with 8388608 in Hm. change (2 ^ 29) with 536870912.
        change (2 ^ 52) with 4503599627370496. lia. }
      assert (HE : 0 <= e - 127 + 1023 < 2 ^ 11) by (change (2 ^ 11) with 2048; lia).
      destruct (@binary64_fields s _ _ Hs HE HM) as (F1 & F2 & F3).
      rewrite F1, F2, F3.
      replace (e - 127 + 1023 =? Z.ones 11) with false by (symmetry; apply Z.eqb_neq; change (Z.ones 11) with 2047; lia).
      replace (e - 127 + 1023 =? 0) with false by (symmetry; apply Z.eqb_neq; lia).
      f_equal.
      rewrite Z.shiftl_mul_pow2 by lia.
      replace (2 ^ 52 + m * 2 ^ 29) with ((2 ^ 23 + m) * 2 ^ 29) by (change (2 ^ 52) with (2 ^ 23 * 2 ^ 29); ring).
      replace (e - 127 + 1023 - 1) with (e - 1 + 896) by lia.
      rewrite Z.mul_1_r, (Z.pow_add_r 2 (e - 1) 896) by lia.
      change (2 ^ 925) with (2 ^ 29 * 2 ^ 896).
      generalize (2 ^ 29) (2 ^ 896) (2 ^ 23) (2 ^ (e - 1)). intros. ring.
Qed.

(** C6: what a major-type-7 first byte decodes to, whatever follows it
    in the buffer.  The four bytes after 0xFA are read as an IEEE-754
    binary32 number and returned as the double of the same number: same
    sign and magnitude, infinity for infinity, a NaN for a NaN (1.5, the
    smallest subnormal, minus infinity, minus zero and a signalling NaN,
    which comes out quiet, are spelt out).  The eight bytes after 0xFB
    are the bit pattern of the double returned.  The failure on the
    16-bit marker is the source's "don't know how to parse FLOAT16", and
    every other byte of major type 7 fails. *)
Theorem loads_major_type_7 :
  (forall rest, loads (xf4 :: rest) = Ok (VBool false))
  /\ (forall rest, loads (xf5 :: rest) = Ok (VBool true))
  /\ (forall rest, loads (xf6 :: rest) = Ok VNone)
  /\ (forall rest, loads (xf7 :: rest) = Ok VNone)
  /\ (forall rest, loads (xf9 :: rest) = Raise Float16Unsupported)
  /\ (forall raw rest, length raw = 4%nat ->
        loads (xfa :: raw ++ rest) = Ok (VFloat (float32_to_float64 (bytes_to_biguint raw)))
        /\ binary64_value (float32_to_float64 (bytes_to_biguint raw))
           = binary32_value (bytes_to_biguint raw))
  /\ (forall rest,
        loads ([xfa; x3f; xc0; x00; x00] ++ rest) = Ok (VFloat 0x3FF8000000000000)
        /\ loads ([xfa; x00; x00; x00; x01] ++ rest) = Ok (VFloat 0x36A0000000000000)
        /\ loads ([xfa; xff; x80; x00; x00] ++ rest) = Ok (VFloat 0xFFF0000000000000)
        /\ loads ([xfa; x80; x00; x00; x00] ++ rest) = Ok (VFloat 0x8000000000000000)
        /\ loads ([xfa; x7f; x80; x00; x01] ++ rest) = Ok (VFloat 0x7FF8000020000000))
  /\ (forall raw rest, length raw = 8%nat ->
        loads (xfb :: raw ++ rest) = Ok (VFloat (bytes_to_biguint raw)))
  /\ (forall c rest,
        Z.land (ord c) CBOR_TYPE_MASK = CBOR_7 ->
        ~ In c [xf4; xf5; xf6; xf7; xf9; xfa; xfb] ->
        exists e, loads (c :: rest) = Raise e /\ malformed_simple (ord c) e).
Proof.
  assert (F32 : forall raw rest, length raw = 4%nat ->
            loads (xfa :: raw ++ rest)
            = Ok (VFloat (float32_to_float64 (bytes_to_biguint raw)))).
  { intros raw rest Hraw.
    rewrite loads_cons. unfold _loads_body. rewrite getitem_cons_0. cbn [bind].
    change (ord xfa =? CBOR_FLOAT16) with false. change (ord xfa =? CBOR_FLOAT32) with true.
    cbv iota.
    change (unpack_from 4 (xfa :: raw ++ rest) (0 + 1))
      with (unpack_from 4 ([xfa] ++ raw ++ rest) (len [xfa])).
    rewrite unpack_from_app by assumption. reflexivity. }
  repeat match goal with |- _ /\ _ => split end;
    try (intros rest; rewrite loads_cons; unfold _loads_body; rewrite getitem_cons_0;
         reflexivity).
  - intros raw rest Hraw. split; [apply F32; assumption|].
    apply float32_to_float64_value.
    pose proof (bytes_to_biguint_range raw) as R.
    replace (len raw) with 4 in R by (unfold len; lia). exact R.
  - intros rest. repeat split.
    + apply (F32 [x3f; xc0; x00; x00]). reflexivity.
    + apply (F32 [x00; x00; x00; x01]). reflexivity.
    + apply (F32 [xff; x80; x00; x00]). reflexivity.
    + apply (F32 [x80; x00; x00; x00]). reflexivity.
    + apply (F32 [x7f; x80; x00; x01]). reflexivity.
  - intros raw rest Hraw. rewrite loads_cons. unfold _loads_body. rewrite getitem_cons_0. cbn [bind].
    change (ord xfb =? CBOR_FLOAT16) with false. change (ord xfb =? CBOR_FLOAT32) with false.
    change (ord xfb =? CBOR_FLOAT64) with true. cbv iota.
    change (unpack_from 8 (xfb :: raw ++ rest) (0 + 1))
      with (unpack_from 8 ([xfb] ++ raw ++ rest) (len [xfb])).
    rewrite unpack_from_app by assumption. reflexivity.
  - intros c rest Hc Hn. apply loads_simple_other; assumption.
Qed.

Lemma loads_major_type_7_witness :
  loads (xfa :: [x3f; x80; x00; x00] ++ []) = Ok (VFloat 0x3FF0000000000000)
  /\ binary64_value 0x3FF0000000000000 = binary32_value 0x3F800000
  /\ binary32_value 0x3F800000 = Finite false (2 ^ 1074).
Proof.
  destruct loads_major_type_7 as (_ & _ & _ & _ & _ & H & _).
  destruct (H [x3f; x80; x00; x00] [] eq_refl) as [Hl Hv].
  split; [exact Hl|]. split; [exact Hv|reflexivity].
Defined.

(** ** Exceptions the decoder can raise *)

Lemma not_depth_limit_bind {A B : Type} (m : result A) (k : A -> result B) :
  not_depth_limit m -> (forall a, not_depth_limit (k a)) -> not_depth_limit (bind m k).
Proof.
  unfold not_depth_limit. intros Hm Hk.
  destruct m as [a|e|]; cbn [bind];
    [apply Hk|intros [= ->]; apply Hm; reflexivity|discriminate].
Qed.

Ltac ndl := unfold not_depth_limit; discriminate.

Lemma getitem_cases (data : bytes) (i : Z) :
  getitem data i = Raise IndexError \/ exists c, getitem data i = Ok c.
Proof.
  unfold getitem. cbv zeta.
  destruct ((0 <=? _) && _); [destruct (nth_error _ _)|]; eauto.
Qed.

Lemma not_depth_limit_getitem (data : bytes) (i : Z) : not_depth_limit (getitem data i).
Proof.
  unfold getitem.
  destruct ((0 <=? _) && _); [destruct (nth_error _ _)|]; ndl.
Qed.

Lemma not_depth_limit_unpack_from (size : nat) (data : bytes) (i : Z) :
  not_depth_limit (unpack_from size data i).
Proof. unfold unpack_from. cbv zeta. destruct (_ || _); ndl. Qed.

Lemma not_depth_limit__tag_aux (data : bytes) (offset : Z) (tb : value) :
  not_depth_limit (_tag_aux data offset tb).
Proof.
  unfold _tag_aux.
  apply not_depth_limit_bind; [destruct tb; ndl|intros tag].
  apply not_depth_limit_bind; [destruct tb; ndl|intros tag_aux].
  repeat match goal with
         | |- not_depth_limit (if ?b then _ else _) => destruct b
         | |- not_depth_limit (bind _ _) =>
             apply not_depth_limit_bind; [apply not_depth_limit_unpack_from|intros ?]
         end; ndl.
Qed.

(** The chunk loop never gets past its first byte: that byte is a [str],
    never equal to the integer [CBOR_BREAK], and [_tag_aux] cannot mask it. *)
Lemma loads_bytes_chunks_raises (fuel : nat) (data : bytes) (offset btag : Z)
    (chunklist : list bytes) (total_bytes_read : Z) :
  loads_bytes_chunks (S fuel) data offset btag chunklist total_bytes_read = Raise IndexError
  \/ loads_bytes_chunks (S fuel) data offset btag chunklist total_bytes_read = Raise TypeError.
Proof.
  cbn [loads_bytes_chunks].
  destruct (getitem_cases data (offset + total_bytes_read)) as [E|[c E]]; rewrite E.
  - left. reflexivity.
  - right. reflexivity.
Qed.

Lemma not_depth_limit_loads_bytes (fuel : nat) (data : bytes) (offset : Z) (aux : option Z)
    (btag : Z) :
  not_depth_limit (loads_bytes fuel data offset aux btag).
Proof.
  destruct aux; [ndl|]. cbn [loads_bytes].
  destruct fuel; [ndl|].
  destruct (loads_bytes_chunks_raises fuel data offset btag [] 0) as [E|E];
    rewrite E; ndl.
Qed.

Lemma not_depth_limit_utf8_decode (raw : bytes) : not_depth_limit (utf8_decode raw).
Proof.
  assert (H : forall n raw, (length raw <= n)%nat -> not_depth_limit (utf8_decode raw)).
  { clear raw. induction n as [|n IH]; intros raw Hn.
    - destruct raw; [ndl|simpl in Hn; lia].
    - destruct raw as [|b0 r0]; [ndl|]. cbn [utf8_decode].
      cbn [length] in Hn.
      repeat match goal with
             | |- not_depth_limit (if ?b then _ else _) => destruct b
             | |- not_depth_limit (match ?r with [] => _ | _ :: _ => _ end) =>
                 destruct r; cbn [length] in Hn
             | |- not_depth_limit (bind _ _) =>
                 apply not_depth_limit_bind; [apply IH; lia|intros ?]
             end; ndl. }
  apply (H (length raw)). lia.
Qed.

Lemma not_depth_limit__bytes_to_biguint (bs : value) : not_depth_limit (_bytes_to_biguint bs).
Proof.
  unfold _bytes_to_biguint.
  apply not_depth_limit_bind; [destruct bs; ndl|intros chs].
  assert (H : forall acc : result Z, not_depth_limit acc ->
            not_depth_limit
              (fold_left (fun out ch => out <- out ;; c <- py_ord ch ;;
                                        Ok (Z.lor (Z.shiftl out 8) c)) chs acc)).
  { induction chs as [|ch chs IH]; intros acc Hacc; [exact Hacc|].
    cbn [fold_left]. apply IH.
    apply not_depth_limit_bind; [exact Hacc|intros out].
    apply not_depth_limit_bind; [|intros; ndl].
    unfold py_ord. destruct ch as [| | | |[|? [|? ?]]|[|? [|? ?]]| | | | | |]; ndl. }
  apply H. ndl.
Qed.

Lemma not_depth_limit_tagify (ob : value) (aux : option Z) : not_depth_limit (tagify ob aux).
Proof.
  unfold tagify.
  repeat match goal with
         | |- not_depth_limit (if ?b then _ else _) => destruct b
         end.
  - unfold utcfromtimestamp. destruct (as_number ob); ndl.
  - apply not_depth_limit_bind; [apply not_depth_limit__bytes_to_biguint|intros; ndl].
  - apply not_depth_limit_bind; [apply not_depth_limit__bytes_to_biguint|intros; ndl].
  - unfold re_compile. destruct ob; ndl.
  - ndl.
Qed.

Lemma not_depth_limit_xrange (aux : option Z) : not_depth_limit (xrange aux).
Proof. unfold xrange. destruct aux; [destruct (_ >? _)|]; ndl. Qed.

Section DepthBody.
Variable self : bytes -> Z -> Z -> bool -> result (value * Z).
Variable array_loop : bytes -> Z -> Z -> list value -> Z -> result (value * Z).
Variable map_loop : bytes -> Z -> Z -> list (value * value) -> Z -> result (value * Z).
Variable fuel : nat.
Hypothesis Hself : forall data offset rt, not_depth_limit (self data offset 0 rt).
Hypothesis Harray : forall data offset n ob br, not_depth_limit (array_loop data offset n ob br).
Hypothesis Hmap : forall data offset n ob br, not_depth_limit (map_loop data offset n ob br).

Lemma not_depth_limit_body (data : bytes) (offset depth : Z) (rt : bool) :
  depth <= _MAX_DEPTH ->
  not_depth_limit (_loads_body self array_loop map_loop (loads_bytes fuel)
                               data offset depth rt).
Proof.
  intros Hd. unfold _loads_body.
  destruct (depth >? _MAX_DEPTH) eqn:G; [apply Z.gtb_gt in G; lia|].
  apply not_depth_limit_bind; [apply not_depth_limit_getitem|intros c].
  repeat match goal with
         | |- not_depth_limit (if ?b then _ else _) => destruct b
         | |- not_depth_limit (bind (unpack_from _ _ _) _) =>
             apply not_depth_limit_bind; [apply not_depth_limit_unpack_from|intros ?]
         | |- not_depth_limit (bind (_tag_aux _ _ _) _) =>
             apply not_depth_limit_bind;
             [apply not_depth_limit__tag_aux|intros [[[tag tag_aux] aux] bytes_read]]
         | |- not_depth_limit (bind (loads_bytes _ _ _ _ _) _) =>
             apply not_depth_limit_bind; [apply not_depth_limit_loads_bytes|intros [? ?]]
         | |- not_depth_limit (bind (utf8_decode _) _) =>
             apply not_depth_limit_bind; [apply not_depth_limit_utf8_decode|intros ?]
         | |- not_depth_limit (bind (xrange _) _) =>
             apply not_depth_limit_bind; [apply not_depth_limit_xrange|intros ?]
         | |- not_depth_limit (bind (self _ _ _ _) _) =>
             apply not_depth_limit_bind; [apply Hself|intros [? ?]]
         | |- not_depth_limit (bind (if ?rt then Ok _ else tagify _ _) _) =>
             apply not_depth_limit_bind;
             [destruct rt; [ndl|apply not_depth_limit_tagify]|intros ?]
         | |- not_depth_limit (bind (Ok _) _) => cbn [bind]
         | |- not_depth_limit (match ?a with Some _ => _ | None => _ end) => destruct a
         end;
    try apply Harray; try apply Hmap; try ndl.
Qed.

Lemma not_depth_limit_array_turn (data : bytes) (offset n : Z) (ob : list value) (br : Z) :
  not_depth_limit (_loads_array_turn self array_loop data offset n ob br).
Proof.
  unfold _loads_array_turn.
  apply not_depth_limit_bind; [apply Hself|intros [? ?]]. apply Harray.
Qed.

Lemma not_depth_limit_map_turn (data : bytes) (offset n : Z) (ob : list (value * value))
    (br : Z) :
  not_depth_limit (_loads_map_turn self map_loop data offset n ob br).
Proof.
  unfold _loads_map_turn.
  apply not_depth_limit_bind; [apply Hself|intros [? ?]].
  apply not_depth_limit_bind; [apply Hself|intros [? ?]].
  apply not_depth_limit_bind; [|intros; apply Hmap].
  unfold dict_setitem. destruct (hashable _); ndl.
Qed.
End DepthBody.

Lemma not_depth_limit__loads (fuel : nat) :
  (forall data offset rt, not_depth_limit (_loads fuel data offset 0 rt))
  /\ (forall data offset n ob br, not_depth_limit (_loads_array fuel data offset n ob br))
  /\ (forall data offset n ob br, not_depth_limit (_loads_map fuel data offset n ob br)).
Proof.
  induction fuel as [|fuel (IHl & IHa & IHm)].
  - repeat split; intros.
    + ndl.
    + rewrite _loads_array_eq. destruct (n <=? 0); ndl.
    + rewrite _loads_map_eq. destruct (n <=? 0); ndl.
  - repeat split; intros.
    + rewrite _loads_S. apply not_depth_limit_body; auto. unfold _MAX_DEPTH. lia.
    + rewrite _loads_array_eq. destruct (n <=? 0); [ndl|].
      apply not_depth_limit_array_turn; auto.
    + rewrite _loads_map_eq. destruct (n <=? 0); [ndl|].
      apply not_depth_limit_map_turn; auto.
Qed.

(** ** C2: the depth limit *)

(** C2 (the source departs from it): decoding 101 nested one-element
    arrays returns the 101 nested lists, as decoding 100 of them does; no
    buffer at all makes [loads] raise the depth-limit exception, because
    every recursive call is entered at depth 0.  The check itself is
    there: a caller that passes a depth above 100 gets the exception. *)
Theorem loads_depth_limit_not_enforced :
  loads (nested_arrays 101) = Ok (nested_lists 101)
  /\ loads (nested_arrays 100) = Ok (nested_lists 100)
  /\ (forall data, loads data <> Raise RecursionDepthLimit)
  /\ (forall fuel data offset rt,
        _loads (S fuel) data offset 101 rt = Raise RecursionDepthLimit).
Proof.
  split; [vm_compute; reflexivity|].
  split; [vm_compute; reflexivity|].
  split.
  - intros data. unfold loads.
    apply (@not_depth_limit_bind _ _ (_loads (loads_fuel data) data 0 0 false)).
    + apply not_depth_limit__loads.
    + intros [ob n]. ndl.
  - intros. rewrite _loads_S. reflexivity.
Qed.

(** ** C8: byte and text strings *)

(** C8 (the source departs from it on indefinite length): with a definite
    length the [aux] bytes at the offset are sliced out and [aux] is
    reported as read; with the indefinite-length marker the chunk loop
    stops on its first byte with a TypeError (or an IndexError when the
    buffer ends there), for a byte string and for a text string alike,
    instead of joining the chunks up to the break byte. *)
Theorem loads_bytes_indefinite_raises :
  loads [x5f; x41; x61; xff] = Raise TypeError
  /\ loads [x7f; x61; x61; xff] = Raise TypeError
  /\ loads [x5f; xff] = Raise TypeError
  /\ (forall fuel data offset btag,
        loads_bytes (S fuel) data offset None btag = Raise IndexError
        \/ loads_bytes (S fuel) data offset None btag = Raise TypeError)
  /\ (forall fuel data offset aux btag,
        loads_bytes fuel data offset (Some aux) btag
        = Ok (slice data offset (offset + aux), aux))
  /\ loads [x42; x01; x02; x03] = Ok (VStr [x01; x02]).
Proof.
  repeat split; try (vm_compute; reflexivity).
  intros. apply loads_bytes_chunks_raises.
Qed.

(** ** C4: tags *)

Lemma _tag_aux_int (data : bytes) (offset tb tag tag_aux : Z) (aux : option Z)
    (bytes_read : Z) :
  _tag_aux data offset (VInt tb) = Ok (tag, tag_aux, aux, bytes_read) ->
  tag = Z.land tb CBOR_TYPE_MASK /\ tag_aux = Z.land tb CBOR_INFO_BITS
  /\ 1 <= bytes_read <= 9.
Proof.
  unfold _tag_aux, py_and. cbn [bind].
  repeat match goal with
         | |- (if ?b then _ else _) = _ -> _ => destruct b
         | |- bind ?m _ = _ -> _ => destruct m; cbn [bind]
         end; intros [= <- <- <- <-] || discriminate; repeat split; lia.
Qed.

Lemma tagify_unrecognized (ob : value) (aux : option Z) :
  ~ In aux recognized_tags -> tagify ob aux = Ok ob.
Proof.
  intros H. unfold tagify.
  destruct aux as [a|]; [|reflexivity].
  repeat match goal with
         | |- (if ?a =? ?n then _ else _) = _ =>
             destruct (Z.eqb_spec a n) as [->|_];
             [exfalso; apply H; unfold recognized_tags; cbn [In]; tauto|]
         end.
  reflexivity.
Qed.

(** C4 (as the source has it): a tagged item whose tag number is none of
    1, 2, 3, 35 decodes to its payload alone, the tag number being
    dropped, and raises nothing once the payload has decoded; the [Tag]
    wrapper holding the tag number and the payload is what [_loads]
    returns when asked with [returntags], for every tag number. *)
Theorem loads_unrecognized_tag (fuel : nat) (data : bytes) (offset depth : Z) (c : byte)
    (tag_aux : Z) (aux : option Z) (bytes_read : Z) (ob : value) (subpos : Z) :
  depth <= _MAX_DEPTH ->
  getitem data offset = Ok c ->
  _tag_aux data offset (VInt (ord c)) = Ok (CBOR_TAG, tag_aux, aux, bytes_read) ->
  _loads fuel data (offset + bytes_read) 0 false = Ok (ob, subpos) ->
  (~ In aux recognized_tags ->
   _loads (S fuel) data offset depth false = Ok (ob, bytes_read + subpos))
  /\ _loads (S fuel) data offset depth true = Ok (VTag aux ob, bytes_read + subpos).
Proof.
  intros Hd Hc Haux Hsub.
  destruct (_tag_aux_int _ _ _ Haux) as (Htag & _ & _).
  assert (Hbody : forall rt,
    _loads (S fuel) data offset depth rt =
    (r <- (if rt then Ok (VTag aux ob) else tagify ob aux) ;; Ok (r, bytes_read + subpos))).
  { intros rt. rewrite _loads_S. unfold _loads_body.
    destruct (depth >? _MAX_DEPTH) eqn:G; [apply Z.gtb_gt in G; lia|].
    rewrite Hc. cbn [bind].
    destruct (Z.eqb_spec (ord c) CBOR_FLOAT16) as [E|_];
      [rewrite E in Htag; vm_compute in Htag; discriminate|].
    destruct (Z.eqb_spec (ord c) CBOR_FLOAT32) as [E|_];
      [rewrite E in Htag; vm_compute in Htag; discriminate|].
    destruct (Z.eqb_spec (ord c) CBOR_FLOAT64) as [E|_];
      [rewrite E in Htag; vm_compute in Htag; discriminate|].
    rewrite Haux. cbn [bind].
    change (CBOR_TAG =? CBOR_UINT) with false. change (CBOR_TAG =? CBOR_NEGINT) with false.
    change (CBOR_TAG =? CBOR_BYTES) with false. change (CBOR_TAG =? CBOR_TEXT) with false.
    change (CBOR_TAG =? CBOR_ARRAY) with false. change (CBOR_TAG =? CBOR_MAP) with false.
    change (CBOR_TAG =? CBOR_TAG) with true. cbv iota.
    rewrite Hsub. reflexivity. }
  split.
  - intros Hnot. rewrite Hbody, tagify_unrecognized by assumption. reflexivity.
  - rewrite Hbody. reflexivity.
Qed.

Lemma loads_unrecognized_tag_witness :
  _loads 2 [xc4; x01] 0 0 false = Ok (VInt 1, 1 + 1)
  /\ _loads 2 [xc4; x01] 0 0 true = Ok (VTag (Some 4) (VInt 1), 1 + 1).
Proof.
  assert (H := @loads_unrecognized_tag 1 [xc4; x01] 0 0 xc4 4 (Some 4) 1 (VInt 1) 1).
  destruct H as [H1 H2]; try (vm_compute; reflexivity || discriminate).
  split; [apply H1|exact H2].
  unfold recognized_tags. cbn [In]. intros [E|[E|[E|[E|[]]]]]; discriminate E.
Defined.

(** C4, as stated, fails: tag 4 around the integer 1 decodes to the
    integer 1, not to a wrapper carrying the tag number. *)
Lemma loads_unrecognized_tag_drops_number :
  loads [xc4; x01] = Ok (VInt 1)
  /\ loads [xc4; x01] <> Ok (VTag (Some 4) (VInt 1)).
Proof.
  split; [vm_compute; reflexivity|vm_compute; discriminate].
Qed.

(** ** Fuel *)

Lemma refines_refl {A : Type} (r : result A) : refines r r.
Proof. right. reflexivity. Qed.

Lemma refines_bind {A B : Type} (m m' : result A) (k k' : A -> result B) :
  refines m m' -> (forall a, refines (k a) (k' a)) -> refines (bind m k) (bind m' k').
Proof.
  intros [->| ->] Hk; [left; reflexivity|].
  destruct m' as [a|e|]; cbn [bind]; [apply Hk|apply refines_refl|apply refines_refl].
Qed.

Lemma refines_bind_same {A B : Type} (m : result A) (k k' : A -> result B) :
  (forall a, refines (k a) (k' a)) -> refines (bind m k) (bind m k').
Proof. intros Hk. apply refines_bind; [apply refines_refl|exact Hk]. Qed.

Lemma refines_Ok {A : Type} (r r' : result A) (a : A) : refines r r' -> r = Ok a -> r' = Ok a.
Proof. intros [->| ->]; [discriminate|auto]. Qed.

Lemma loads_bytes_chunks_mono (fuel fuel' : nat) (data : bytes) (offset btag : Z)
    (chunklist : list bytes) (total : Z) :
  (fuel <= fuel')%nat ->
  refines (loads_bytes_chunks fuel data offset btag chunklist total)
          (loads_bytes_chunks fuel' data offset btag chunklist total).
Proof.
  revert fuel' chunklist total. induction fuel as [|fuel IH]; intros fuel' chunklist total Hle.
  - left. reflexivity.
  - destruct fuel' as [|fuel']; [lia|]. cbn [loads_bytes_chunks].
    apply refines_bind_same. intros c.
    destruct (py_eq_int _ _); [apply refines_refl|].
    apply refines_bind_same. intros [[[tag tag_aux] aux] bytes_read].
    destruct (negb _); [apply refines_refl|].
    destruct aux; [|apply refines_refl]. apply IH. lia.
Qed.

Lemma loads_bytes_mono (fuel fuel' : nat) (data : bytes) (offset : Z) (aux : option Z)
    (btag : Z) :
  (fuel <= fuel')%nat ->
  refines (loads_bytes fuel data offset aux btag) (loads_bytes fuel' data offset aux btag).
Proof.
  intros Hle. destruct aux; [apply refines_refl|]. apply loads_bytes_chunks_mono, Hle.
Qed.

Section BodyMono.
Variables self self' : bytes -> Z -> Z -> bool -> result (value * Z).
Variables array_loop array_loop' : bytes -> Z -> Z -> list value -> Z -> result (value * Z).
Variables map_loop map_loop' :
  bytes -> Z -> Z -> list (value * value) -> Z -> result (value * Z).
Variables lb lb' : bytes -> Z -> option Z -> Z -> result (bytes * Z).
Hypothesis Hself : forall data offset d rt, refines (self data offset d rt) (self' data offset d rt).
Hypothesis Harray : forall data offset n ob br,
  refines (array_loop data offset n ob br) (array_loop' data offset n ob br).
Hypothesis Hmap : forall data offset n ob br,
  refines (map_loop data offset n ob br) (map_loop' data offset n ob br).
Hypothesis Hlb : forall data offset aux btag,
  refines (lb data offset aux btag) (lb' data offset aux btag).

Lemma _loads_body_mono (data : bytes) (offset depth : Z) (rt : bool) :
  refines (_loads_body self array_loop map_loop lb data offset depth rt)
          (_loads_body self' array_loop' map_loop' lb' data offset depth rt).
Proof.
  unfold _loads_body.
  repeat match goal with
         | |- refines ?r ?r => apply refines_refl
         | |- refines (if ?b then _ else _) (if ?b then _ else _) => destruct b
         | |- refines (match ?a with Some _ => _ | None => _ end) _ => destruct a
         | |- refines (bind (self _ _ _ _) _) _ => apply refines_bind; [apply Hself|intros [? ?]]
         | |- refines (bind (lb _ _ _ _) _) _ => apply refines_bind; [apply Hlb|intros [? ?]]
         | |- refines (bind (_tag_aux _ _ _) _) _ =>
             apply refines_bind_same; intros [[[tag tag_aux] aux] bytes_read]
         | |- refines (bind ?m _) (bind ?m _) => apply refines_bind_same; intros ?
         | |- refines (array_loop _ _ _ _ _) _ => apply Harray
         | |- refines (map_loop _ _ _ _ _) _ => apply Hmap
         end.
Qed.

Lemma _loads_array_turn_mono (data : bytes) (offset n : Z) (ob : list value) (br : Z) :
  refines (_loads_array_turn self array_loop data offset n ob br)
          (_loads_array_turn self' array_loop' data offset n ob br).
Proof.
  unfold _loads_array_turn. apply refines_bind; [apply Hself|intros [? ?]]. apply Harray.
Qed.

Lemma _loads_map_turn_mono (data : bytes) (offset n : Z) (ob : list (value * value)) (br : Z) :
  refines (_loads_map_turn self map_loop data offset n ob br)
          (_loads_map_turn self' map_loop' data offset n ob br).
Proof.
  unfold _loads_map_turn.
  apply refines_bind; [apply Hself|intros [? ?]].
  apply refines_bind; [apply Hself|intros [? ?]].
  apply refines_bind_same. intros ?. apply Hmap.
Qed.
End BodyMono.

(** More fuel does not change a result that was reached. *)
Lemma _loads_mono (fuel : nat) :
  forall fuel', (fuel <= fuel')%nat ->
  (forall data offset d rt,
     refines (_loads fuel data offset d rt) (_loads fuel' data offset d rt))
  /\ (forall data offset n ob br,
        refines (_loads_array fuel data offset n ob br) (_loads_array fuel' data offset n ob br))
  /\ (forall data offset n ob br,
        refines (_loads_map fuel data offset n ob br) (_loads_map fuel' data offset n ob br)).
Proof.
  induction fuel as [|fuel IH]; intros fuel' Hle.
  - repeat split; intros.
    + left. reflexivity.
    + rewrite !_loads_array_eq. destruct (n <=? 0); [apply refines_refl|left; reflexivity].
    + rewrite !_loads_map_eq. destruct (n <=? 0); [apply refines_refl|left; reflexivity].
  - destruct fuel' as [|fuel']; [lia|].
    destruct (IH fuel' ltac:(lia)) as (IHl & IHa & IHm).
    repeat split; intros.
    + rewrite !_loads_S. apply _loads_body_mono; auto.
      intros. apply loads_bytes_mono. lia.
    + rewrite !_loads_array_eq. destruct (n <=? 0); [apply refines_refl|].
      apply _loads_array_turn_mono; auto.
    + rewrite !_loads_map_eq. destruct (n <=? 0); [apply refines_refl|].
      apply _loads_map_turn_mono; auto.
Qed.

Lemma _loads_more_fuel (fuel fuel' : nat) (data : bytes) (offset d : Z) (rt : bool)
    (r : value * Z) :
  (fuel <= fuel')%nat ->
  _loads fuel data offset d rt = Ok r -> _loads fuel' data offset d rt = Ok r.
Proof.
  intros Hle. apply refines_Ok. apply _loads_mono, Hle.
Qed.

(** ** Every successful call reads at least one byte *)

(** One step of inversion of [H : ... = Ok _] along the code. *)
Ltac invert_run H :=
  lazymatch type of H with
  | Raise _ = Ok _ => discriminate H
  | OutOfFuel = Ok _ => discriminate H
  | (if ?b then _ else _) = Ok _ => destruct b eqn:?
  | bind ?m _ = Ok _ =>
      let a := fresh "a" in
      destruct m as [a| |] eqn:?; cbn [bind] in H; [|discriminate H|discriminate H]
  | match ?x with Some _ => _ | None => _ end = Ok _ => destruct x eqn:?
  | match ?x with pair _ _ => _ end = Ok _ => destruct x
  end.

Lemma unpack_from_Ok (size : nat) (data : bytes) (offset x : Z) :
  0 <= offset ->
  unpack_from size data offset = Ok x ->
  offset + Z.of_nat size <= len data /\ 0 <= x
  /\ x = bytes_to_biguint (firstn size (skipn (Z.to_nat offset) data)).
Proof.
  intros Hoff. rewrite unpack_from_nonneg by assumption.
  destruct (_ <? _) eqn:E; [discriminate|].
  intros [= <-]. apply Z.ltb_ge in E.
  repeat split; [lia|apply bytes_to_biguint_range].
Qed.

Lemma _tag_aux_Ok (data : bytes) (offset tb tag tag_aux : Z) (aux : option Z)
    (bytes_read : Z) :
  0 <= tb -> 0 <= offset ->
  _tag_aux data offset (VInt tb) = Ok (tag, tag_aux, aux, bytes_read) ->
  1 <= bytes_read <= 9
  /\ offset + bytes_read <= Z.max (len data) (offset + 1)
  /\ match aux with Some a => 0 <= a | None => True end.
Proof.
  intros Htb Hoff H. unfold _tag_aux, py_and in H. cbn [bind] in H.
  assert (0 <= Z.land tb CBOR_INFO_BITS) by (apply Z.land_nonneg; lia).
  repeat invert_run H;
    injection H as <- <- <- <-;
    repeat match goal with
           | E : unpack_from _ _ _ = Ok _ |- _ => apply unpack_from_Ok in E; [|lia]
           end;
    repeat split; try lia.
Qed.

Lemma loads_bytes_Ok (fuel : nat) (data : bytes) (offset : Z) (aux : option Z) (btag : Z)
    (ob : bytes) (subpos : Z) :
  loads_bytes fuel data offset aux btag = Ok (ob, subpos) ->
  aux = Some subpos /\ ob = slice data offset (offset + subpos).
Proof.
  destruct aux as [a|]; cbn [loads_bytes].
  - intros [= <- <-]. auto.
  - destruct fuel; [discriminate|].
    destruct (loads_bytes_chunks_raises fuel data offset btag [] 0) as [E|E];
      rewrite E; discriminate.
Qed.

Section BodyProgress.
Variable self : bytes -> Z -> Z -> bool -> result (value * Z).
Variable array_loop : bytes -> Z -> Z -> list value -> Z -> result (value * Z).
Variable map_loop : bytes -> Z -> Z -> list (value * value) -> Z -> result (value * Z).
Variable fuel : nat.
Hypothesis Hself : forall data offset d rt v n,
  0 <= offset -> self data offset d rt = Ok (v, n) -> offset < len data /\ 1 <= n.
Hypothesis Harray : forall data offset k ob br v n,
  0 <= offset -> 0 <= br -> array_loop data offset k ob br = Ok (v, n) -> br <= n.
Hypothesis Hmap : forall data offset k ob br v n,
  0 <= offset -> 0 <= br -> map_loop data offset k ob br = Ok (v, n) -> br <= n.

Lemma _loads_body_progress (data : bytes) (offset depth : Z) (rt : bool) (v : value) (n : Z) :
  0 <= offset ->
  _loads_body self array_loop map_loop (loads_bytes fuel) data offset depth rt = Ok (v, n) ->
  offset < len data /\ 1 <= n.
Proof.
  intros Hoff H. unfold _loads_body in H.
  invert_run H; [discriminate H|]. invert_run H.
  match goal with E : getitem _ _ = Ok _ |- _ => apply getitem_Ok in E; [|lia] end.
  split; [tauto|].
  pose proof (ord_range a) as Hord.
  repeat invert_run H;
    repeat match goal with
           | E : _tag_aux _ _ _ = Ok _ |- _ => apply _tag_aux_Ok in E; [|lia|lia]
           | E : loads_bytes _ _ _ _ _ = Ok _ |- _ => apply loads_bytes_Ok in E; destruct E
           | E : self _ _ _ _ = Ok _ |- _ => apply Hself in E; [|lia]
           end;
    try (injection H as <- <-); subst; try lia.
  - apply Harray in H; lia.
  - apply Hmap in H; lia.
Qed.

Lemma _loads_array_turn_progress (data : bytes) (offset k : Z) (ob : list value) (br : Z)
    (v : value) (n : Z) :
  0 <= offset -> 0 <= br ->
  _loads_array_turn self array_loop data offset k ob br = Ok (v, n) -> br <= n.
Proof.
  intros Hoff Hbr H. unfold _loads_array_turn in H.
  repeat invert_run H.
  match goal with E : self _ _ _ _ = Ok _ |- _ => apply Hself in E; [|lia] end.
  apply Harray in H; lia.
Qed.

Lemma _loads_map_turn_progress (data : bytes) (offset k : Z) (ob : list (value * value))
    (br : Z) (v : value) (n : Z) :
  0 <= offset -> 0 <= br ->
  _loads_map_turn self map_loop data offset k ob br = Ok (v, n) -> br <= n.
Proof.
  intros Hoff Hbr H. unfold _loads_map_turn in H.
  invert_run H. invert_run H.
  match goal with E : self _ _ _ _ = Ok _ |- _ => apply Hself in E; [|lia] end.
  invert_run H. invert_run H.
  match goal with E : self _ _ _ _ = Ok _ |- _ => apply Hself in E; [|lia] end.
  invert_run H.
  apply Hmap in H; lia.
Qed.
End BodyProgress.

Lemma _loads_progress (fuel : nat) :
  (forall data offset d rt v n,
     0 <= offset -> _loads fuel data offset d rt = Ok (v, n) -> offset < len data /\ 1 <= n)
  /\ (forall data offset k ob br v n,
        0 <= offset -> 0 <= br -> _loads_array fuel data offset k ob br = Ok (v, n) -> br <= n)
  /\ (forall data offset k ob br v n,
        0 <= offset -> 0 <= br -> _loads_map fuel data offset k ob br = Ok (v, n) -> br <= n).
Proof.
  induction fuel as [|fuel (IHl & IHa & IHm)].
  - repeat split; try discriminate; intros *; intros Hoff Hbr H.
    + rewrite _loads_array_eq in H. destruct (k <=? 0); [|discriminate]. injection H as _ <-. lia.
    + rewrite _loads_map_eq in H. destruct (k <=? 0); [|discriminate]. injection H as _ <-. lia.
  - split; [|split].
    + intros * Hoff H. rewrite _loads_S in H.
      eapply _loads_body_progress; eauto.
    + intros * Hoff Hbr H. rewrite _loads_array_eq in H.
      destruct (k <=? 0); [injection H as _ <-; lia|]. cbv iota in H.
      eapply _loads_array_turn_progress; [| |exact Hoff|exact Hbr|exact H]; assumption.
    + intros * Hoff Hbr H. rewrite _loads_map_eq in H.
      destruct (k <=? 0); [injection H as _ <-; lia|]. cbv iota in H.
      eapply _loads_map_turn_progress; [| |exact Hoff|exact Hbr|exact H]; assumption.
Qed.

(** ** The fuel [loads] gives is enough *)

Lemma terminates_bind {A B : Type} (m : result A) (k : A -> result B) :
  terminates m -> (forall a, m = Ok a -> terminates (k a)) -> terminates (bind m k).
Proof.
  unfold terminates. intros Hm Hk.
  destruct m as [a|e|]; cbn [bind]; [apply Hk; reflexivity|discriminate|contradiction].
Qed.

Ltac term_done := unfold terminates; discriminate.

Lemma terminates_getitem (data : bytes) (i : Z) : terminates (getitem data i).
Proof. destruct (getitem_cases data i) as [E|[c E]]; rewrite E; term_done. Qed.

Lemma terminates_unpack_from (size : nat) (data : bytes) (i : Z) :
  terminates (unpack_from size data i).
Proof. unfold unpack_from. cbv zeta. destruct (_ || _); term_done. Qed.

Lemma terminates__tag_aux (data : bytes) (offset : Z) (tb : value) :
  terminates (_tag_aux data offset tb).
Proof.
  unfold _tag_aux.
  apply terminates_bind; [destruct tb; term_done|intros tag _].
  apply terminates_bind; [destruct tb; term_done|intros tag_aux _].
  repeat match goal with
         | |- terminates (if ?b then _ else _) => destruct b
         | |- terminates (bind _ _) =>
             apply terminates_bind; [apply terminates_unpack_from|intros ? _]
         end; term_done.
Qed.

Lemma terminates_loads_bytes (fuel : nat) (data : bytes) (offset : Z) (aux : option Z)
    (btag : Z) :
  terminates (loads_bytes (S fuel) data offset aux btag).
Proof.
  destruct aux; [term_done|]. cbn [loads_bytes].
  destruct (loads_bytes_chunks_raises fuel data offset btag [] 0) as [E|E];
    rewrite E; term_done.
Qed.

Lemma terminates_utf8_decode (raw : bytes) : terminates (utf8_decode raw).
Proof.
  assert (H : forall n raw, (length raw <= n)%nat -> terminates (utf8_decode raw)).
  { clear raw. induction n as [|n IH]; intros raw Hn.
    - destruct raw; [term_done|simpl in Hn; lia].
    - destruct raw as [|b0 r0]; [term_done|]. cbn [utf8_decode].
      cbn [length] in Hn.
      repeat match goal with
             | |- terminates (if ?b then _ else _) => destruct b
             | |- terminates (match ?r with [] => _ | _ :: _ => _ end) =>
                 destruct r; cbn [length] in Hn
             | |- terminates (bind _ _) =>
                 apply terminates_bind; [apply IH; lia|intros ? _]
             end; term_done. }
  apply (H (length raw)). lia.
Qed.

Lemma terminates__bytes_to_biguint (bs : value) : terminates (_bytes_to_biguint bs).
Proof.
  unfold _bytes_to_biguint.
  apply terminates_bind; [destruct bs; term_done|intros chs _].
  assert (H : forall acc : result Z, terminates acc ->
            terminates
              (fold_left (fun out ch => out <- out ;; c <- py_ord ch ;;
                                        Ok (Z.lor (Z.shiftl out 8) c)) chs acc)).
  { induction chs as [|ch chs IH]; intros acc Hacc; [exact Hacc|].
    cbn [fold_left]. apply IH.
    apply terminates_bind; [exact Hacc|intros out _].
    apply terminates_bind; [|intros; term_done].
    unfold py_ord. destruct ch as [| | | |[|? [|? ?]]|[|? [|? ?]]| | | | | |]; term_done. }
  apply H. term_done.
Qed.

Lemma terminates_tagify (ob : value) (aux : option Z) : terminates (tagify ob aux).
Proof.
  unfold tagify.
  repeat match goal with
         | |- terminates (if ?b then _ else _) => destruct b
         end.
  - unfold utcfromtimestamp. destruct (as_number ob); term_done.
  - apply terminates_bind; [apply terminates__bytes_to_biguint|intros; term_done].
  - apply terminates_bind; [apply terminates__bytes_to_biguint|intros; term_done].
  - unfold re_compile. destruct ob; term_done.
  - term_done.
Qed.

Lemma terminates_xrange (aux : option Z) : terminates (xrange aux).
Proof. unfold xrange. destruct aux; [destruct (_ >? _)|]; term_done. Qed.

Section BodyTerminates.
Variable self : bytes -> Z -> Z -> bool -> result (value * Z).
Variable array_loop : bytes -> Z -> Z -> list value -> Z -> result (value * Z).
Variable map_loop : bytes -> Z -> Z -> list (value * value) -> Z -> result (value * Z).
Variable fuel : nat.
Hypothesis Hprog : forall data offset d rt v n,
  0 <= offset -> self data offset d rt = Ok (v, n) -> offset < len data /\ 1 <= n.
Hypothesis Hself : forall data offset d rt,
  0 <= offset -> 2 * remaining data offset + 1 <= Z.of_nat fuel ->
  terminates (self data offset d rt).
Hypothesis Harray : forall data offset k ob br,
  0 <= offset -> 0 <= br -> 2 * remaining data (offset + br) + 2 <= Z.of_nat fuel ->
  terminates (array_loop data offset k ob br).
Hypothesis Hmap : forall data offset k ob br,
  0 <= offset -> 0 <= br -> 2 * remaining data (offset + br) + 2 <= Z.of_nat fuel ->
  terminates (map_loop data offset k ob br).

Lemma _loads_body_terminates (data : bytes) (offset depth : Z) (rt : bool) :
  0 <= offset -> 2 * remaining data offset + 1 <= Z.of_nat (S fuel) ->
  terminates (_loads_body self array_loop map_loop (loads_bytes fuel) data offset depth rt).
Proof.
  intros Hoff Hfuel. unfold _loads_body.
  destruct (depth >? _MAX_DEPTH); [term_done|].
  apply terminates_bind; [apply terminates_getitem|intros c Hc].
  apply getitem_Ok in Hc; [|lia]. destruct Hc as [Hlt _].
  pose proof (ord_range c) as Hord.
  assert (Hf : 2 <= Z.of_nat fuel) by (unfold remaining in Hfuel; lia).
  destruct fuel as [|fuel0] eqn:Efuel; [simpl in Hf; lia|]. rewrite <- Efuel in *.
  repeat match goal with
         | |- terminates (if ?b then _ else _) => destruct b
         | |- terminates (bind (unpack_from _ _ _) _) =>
             apply terminates_bind; [apply terminates_unpack_from|intros ? _]
         | |- terminates (bind (_tag_aux _ _ _) _) =>
             apply terminates_bind;
             [apply terminates__tag_aux
             |intros [[[tag tag_aux] aux] bytes_read] Haux; apply _tag_aux_Ok in Haux; [|lia|lia]]
         | |- terminates (bind (loads_bytes _ _ _ _ _) _) =>
             apply terminates_bind;
             [rewrite Efuel; apply terminates_loads_bytes|intros [? ?] _]
         | |- terminates (bind (utf8_decode _) _) =>
             apply terminates_bind; [apply terminates_utf8_decode|intros ? _]
         | |- terminates (bind (xrange _) _) =>
             apply terminates_bind; [apply terminates_xrange|intros ? _]
         | |- terminates (bind (self _ _ _ _) _) =>
             apply terminates_bind;
             [apply Hself; unfold remaining in *; lia|intros [? ?] _]
         | |- terminates (bind (if ?rt then Ok _ else tagify _ _) _) =>
             apply terminates_bind;
             [destruct rt; [term_done|apply terminates_tagify]|intros ? _]
         | |- terminates (match ?a with Some _ => _ | None => _ end) => destruct a
         | |- terminates (array_loop _ _ _ _ _) => apply Harray; unfold remaining in *; lia
         | |- terminates (map_loop _ _ _ _ _) => apply Hmap; unfold remaining in *; lia
         end; try term_done.
Qed.

Lemma _loads_array_turn_terminates (data : bytes) (offset k : Z) (ob : list value) (br : Z) :
  0 <= offset -> 0 <= br -> 2 * remaining data (offset + br) + 2 <= Z.of_nat (S fuel) ->
  terminates (_loads_array_turn self array_loop data offset k ob br).
Proof.
  intros Hoff Hbr Hfuel. unfold _loads_array_turn.
  apply terminates_bind; [apply Hself; unfold remaining in *; lia|intros [subob subpos] Hsub].
  apply Hprog in Hsub; [|lia].
  apply Harray; unfold remaining in *; lia.
Qed.

Lemma _loads_map_turn_terminates (data : bytes) (offset k : Z) (ob : list (value * value))
    (br : Z) :
  0 <= offset -> 0 <= br -> 2 * remaining data (offset + br) + 2 <= Z.of_nat (S fuel) ->
  terminates (_loads_map_turn self map_loop data offset k ob br).
Proof.
  intros Hoff Hbr Hfuel. unfold _loads_map_turn.
  apply terminates_bind; [apply Hself; unfold remaining in *; lia|intros [subk subpos] Hk].
  apply Hprog in Hk; [|lia].
  apply terminates_bind; [apply Hself; unfold remaining in *; lia|intros [subv subpos'] Hv].
  apply Hprog in Hv; [|lia].
  apply terminates_bind; [unfold dict_setitem; destruct (hashable _); term_done|intros ? _].
  apply Hmap; unfold remaining in *; lia.
Qed.
End BodyTerminates.

Lemma _loads_terminates (fuel : nat) :
  (forall data offset d rt,
     0 <= offset -> 2 * remaining data offset + 1 <= Z.of_nat fuel ->
     terminates (_loads fuel data offset d rt))
  /\ (forall data offset k ob br,
        0 <= offset -> 0 <= br -> 2 * remaining data (offset + br) + 2 <= Z.of_nat fuel ->
        terminates (_loads_array fuel data offset k ob br))
  /\ (forall data offset k ob br,
        0 <= offset -> 0 <= br -> 2 * remaining data (offset + br) + 2 <= Z.of_nat fuel ->
        terminates (_loads_map fuel data offset k ob br)).
Proof.
  induction fuel as [|fuel (IHl & IHa & IHm)].
  - repeat split; intros *; unfold remaining; intros; lia.
  - pose proof (_loads_progress fuel) as (Pl & _ & _).
    split; [|split].
    + intros * Hoff Hf. rewrite _loads_S. apply _loads_body_terminates; auto.
    + intros * Hoff Hbr Hf. rewrite _loads_array_eq. destruct (k <=? 0); [term_done|].
      apply _loads_array_turn_terminates with (fuel := fuel); auto.
    + intros * Hoff Hbr Hf. rewrite _loads_map_eq. destruct (k <=? 0); [term_done|].
      apply _loads_map_turn_terminates with (fuel := fuel); auto.
Qed.

(** [loads] never runs out of the fuel it gives itself: the embedding
    decides every buffer. *)
Lemma loads_terminates (data : bytes) : terminates (loads data).
Proof.
  unfold loads. apply terminates_bind; [|intros [? ?] _; term_done].
  apply _loads_terminates; [lia|].
  unfold remaining, loads_fuel, len. lia.
Qed.

(** A result reached with some fuel is the result of [loads]. *)
Lemma loads_of_run (fuel : nat) (data : bytes) (v : value) (n : Z) :
  _loads fuel data 0 0 false = Ok (v, n) -> loads data = Ok v.
Proof.
  intros H. unfold loads.
  assert (Ht : terminates (_loads (loads_fuel data) data 0 0 false)).
  { apply _loads_terminates; [lia|]. unfold remaining, loads_fuel, len. lia. }
  set (big := Nat.max fuel (loads_fuel data)).
  assert (Hle1 : (fuel <= big)%nat) by (unfold big; lia).
  assert (Hle2 : (loads_fuel data <= big)%nat) by (unfold big; lia).
  pose proof (_loads_more_fuel _ _ _ _ Hle1 H) as H1.
  destruct (proj1 (_loads_mono Hle2) data 0 0 false) as [E|E].
  - contradiction.
  - rewrite E, H1. reflexivity.
Qed.

(** ** Bytes after the item are not looked at *)

Lemma getitem_ext (data t : bytes) (i : Z) (c : byte) :
  0 <= i -> getitem data i = Ok c -> getitem (data ++ t) i = Ok c.
Proof.
  intros Hi H. destruct (getitem_Ok _ Hi H) as [Hlt Hn].
  unfold getitem. rewrite (proj2 (Z.ltb_ge i 0)) by lia.
  rewrite len_app. pose proof (len_nonneg t).
  rewrite (proj2 (Z.leb_le 0 i)) by lia. rewrite (proj2 (Z.ltb_lt i _)) by lia.
  cbn [andb]. rewrite nth_error_app1 by (unfold len in Hlt; lia). rewrite Hn. reflexivity.
Qed.

Lemma skipn_app_within (data t : bytes) (n : nat) :
  (n <= length data)%nat -> skipn n (data ++ t) = skipn n data ++ t.
Proof.
  intros H. rewrite skipn_app. replace (n - length data)%nat with O by lia. reflexivity.
Qed.

Lemma firstn_app_within (l t : bytes) (n : nat) :
  (n <= length l)%nat -> firstn n (l ++ t) = firstn n l.
Proof.
  intros H. rewrite firstn_app. replace (n - length l)%nat with O by lia.
  rewrite firstn_O, app_nil_r. reflexivity.
Qed.

Lemma unpack_from_ext (size : nat) (data t : bytes) (i x : Z) :
  0 <= i -> unpack_from size data i = Ok x -> unpack_from size (data ++ t) i = Ok x.
Proof.
  intros Hi H. destruct (unpack_from_Ok _ _ Hi H) as (Hb & _ & ->).
  rewrite unpack_from_nonneg by assumption. rewrite len_app. pose proof (len_nonneg t).
  rewrite (proj2 (Z.ltb_ge _ _)) by lia. unfold len in Hb.
  rewrite skipn_app_within by lia.
  rewrite firstn_app_within by (rewrite length_skipn; lia). reflexivity.
Qed.

Lemma slice_ext (data t : bytes) (lo hi : Z) :
  0 <= lo -> 0 <= hi -> hi <= len data -> slice (data ++ t) lo hi = slice data lo hi.
Proof.
  intros Hlo Hhi0 Hhi. rewrite !slice_nonneg by assumption. unfold len in Hhi.
  destruct (Z_le_gt_dec hi lo) as [Hle|Hgt].
  - replace (Z.to_nat (hi - lo)) with O by lia. reflexivity.
  - rewrite skipn_app_within by lia.
    rewrite firstn_app_within by (rewrite length_skipn; lia). reflexivity.
Qed.

(** Replaying, in the goal, the steps recorded by [invert_run]. *)
Ltac replay :=
  repeat first
    [ progress cbn [bind]
    | match goal with
      | E : ?m = Ok _ |- context [bind ?m _] => rewrite E
      | E : ?b = true |- context [if ?b then _ else _] => rewrite E
      | E : ?b = false |- context [if ?b then _ else _] => rewrite E
      end ].

Lemma _tag_aux_ext (data t : bytes) (offset : Z) (tb : value)
    (r : Z * Z * option Z * Z) :
  0 <= offset -> _tag_aux data offset tb = Ok r -> _tag_aux (data ++ t) offset tb = Ok r.
Proof.
  intros Hoff H. unfold _tag_aux in *.
  repeat invert_run H;
    repeat match goal with
           | E : unpack_from _ data _ = Ok _ |- _ =>
               apply (@unpack_from_ext _ _ t) in E; [|lia]
           end;
    replay; exact H.
Qed.

Lemma loads_bytes_ext (fuel : nat) (data t : bytes) (offset : Z) (aux : option Z) (btag : Z)
    (ob : bytes) (subpos : Z) :
  0 <= offset -> offset + subpos <= len data ->
  match aux with Some a => 0 <= a | None => True end ->
  loads_bytes fuel data offset aux btag = Ok (ob, subpos) ->
  loads_bytes fuel (data ++ t) offset aux btag = Ok (ob, subpos).
Proof.
  intros Hoff Hb Ha H. destruct (loads_bytes_Ok _ _ _ _ _ H) as [-> ->].
  cbn [loads_bytes]. rewrite slice_ext by lia. reflexivity.
Qed.

Section BodyExt.
Variable self : bytes -> Z -> Z -> bool -> result (value * Z).
Variable array_loop : bytes -> Z -> Z -> list value -> Z -> result (value * Z).
Variable map_loop : bytes -> Z -> Z -> list (value * value) -> Z -> result (value * Z).
Variable fuel : nat.
Variable t : bytes.
Hypothesis Pself : forall data offset d rt v n,
  0 <= offset -> self data offset d rt = Ok (v, n) -> offset < len data /\ 1 <= n.
Hypothesis Parray : forall data offset k ob br v n,
  0 <= offset -> 0 <= br -> array_loop data offset k ob br = Ok (v, n) -> br <= n.
Hypothesis Pmap : forall data offset k ob br v n,
  0 <= offset -> 0 <= br -> map_loop data offset k ob br = Ok (v, n) -> br <= n.
Hypothesis Eself : forall data offset d rt v n,
  0 <= offset -> offset + n <= len data ->
  self data offset d rt = Ok (v, n) -> self (data ++ t) offset d rt = Ok (v, n).
Hypothesis Earray : forall data offset k ob br v n,
  0 <= offset -> 0 <= br -> offset + n <= len data ->
  array_loop data offset k ob br = Ok (v, n) ->
  array_loop (data ++ t) offset k ob br = Ok (v, n).
Hypothesis Emap : forall data offset k ob br v n,
  0 <= offset -> 0 <= br -> offset + n <= len data ->
  map_loop data offset k ob br = Ok (v, n) ->
  map_loop (data ++ t) offset k ob br = Ok (v, n).

Lemma _loads_body_ext (data : bytes) (offset depth : Z) (rt : bool) (v : value) (n : Z) :
  0 <= offset -> offset + n <= len data ->
  _loads_body self array_loop map_loop (loads_bytes fuel) data offset depth rt = Ok (v, n) ->
  _loads_body self array_loop map_loop (loads_bytes fuel) (data ++ t) offset depth rt
  = Ok (v, n).
Proof.
  intros Hoff Hb H. unfold _loads_body in *.
  invert_run H; [discriminate H|]. invert_run H.
  match goal with
  | E : getitem _ _ = Ok ?c |- _ =>
      pose proof (ord_range c); apply (@getitem_ext _ t) in E; [|lia]
  end.
  repeat invert_run H;
    repeat match goal with
           | E : unpack_from _ data _ = Ok _ |- _ =>
               apply (@unpack_from_ext _ _ t) in E; [|lia]
           | E : _tag_aux data _ _ = Ok _ |- _ =>
               let P := fresh "P" in
               assert (P := E); apply _tag_aux_Ok in P; [|lia|lia];
               apply (@_tag_aux_ext _ t) in E; [|lia]
           end;
    replay; try exact H.
  - (* byte string *)
    injection H as <- <-.
    match goal with E : loads_bytes _ data _ _ _ = Ok _ |- _ =>
      apply (@loads_bytes_ext _ _ t) in E; [|lia|lia|apply P] end.
    replay. reflexivity.
  - (* text string *)
    injection H as <- <-.
    match goal with E : loads_bytes _ data _ _ _ = Ok _ |- _ =>
      apply (@loads_bytes_ext _ _ t) in E; [|lia|lia|apply P] end.
    replay. reflexivity.
  - (* array *)
    apply Earray; auto; lia.
  - (* map *)
    apply Emap; auto; lia.
  - (* tag *)
    injection H as <- <-.
    match goal with E : self data _ _ _ = Ok _ |- _ => apply Eself in E; [|lia|lia] end.
    replay. reflexivity.
Qed.

Lemma _loads_array_turn_ext (data : bytes) (offset k : Z) (ob : list value) (br : Z)
    (v : value) (n : Z) :
  0 <= offset -> 0 <= br -> offset + n <= len data ->
  _loads_array_turn self array_loop data offset k ob br = Ok (v, n) ->
  _loads_array_turn self array_loop (data ++ t) offset k ob br = Ok (v, n).
Proof.
  intros Hoff Hbr Hb H. unfold _loads_array_turn in *.
  repeat invert_run H.
  match goal with E : self data _ _ _ = Ok _ |- _ =>
    let P := fresh "P" in
    assert (P := E); apply Pself in P; [|lia];
    assert (Q := H); apply Parray in Q; [|lia|lia];
    apply Eself in E; [|lia|lia] end.
  replay. apply Earray; auto; lia.
Qed.

Lemma _loads_map_turn_ext (data : bytes) (offset k : Z) (ob : list (value * value)) (br : Z)
    (v : value) (n : Z) :
  0 <= offset -> 0 <= br -> offset + n <= len data ->
  _loads_map_turn self map_loop data offset k ob br = Ok (v, n) ->
  _loads_map_turn self map_loop (data ++ t) offset k ob br = Ok (v, n).
Proof.
  intros Hoff Hbr Hb H. unfold _loads_map_turn in *.
  invert_run H. invert_run H.
  match goal with E : self data _ _ _ = Ok _ |- _ =>
    assert (P1 := E); apply Pself in P1; [|lia]; rename E into E1 end.
  invert_run H. invert_run H.
  match goal with E : self data (_ + (_ + _)) _ _ = Ok _ |- _ =>
    assert (P2 := E); apply Pself in P2; [|lia]; rename E into E2 end.
  invert_run H.
  assert (Q := H). apply Pmap in Q; [|lia|lia].
  apply Eself in E1; [|lia|lia]. apply Eself in E2; [|lia|lia].
  replay. apply Emap; auto; lia.
Qed.
End BodyExt.

Lemma _loads_ext (t : bytes) (fuel : nat) :
  (forall data offset d rt v n,
     0 <= offset -> offset + n <= len data ->
     _loads fuel data offset d rt = Ok (v, n) ->
     _loads fuel (data ++ t) offset d rt = Ok (v, n))
  /\ (forall data offset k ob br v n,
        0 <= offset -> 0 <= br -> offset + n <= len data ->
        _loads_array fuel data offset k ob br = Ok (v, n) ->
        _loads_array fuel (data ++ t) offset k ob br = Ok (v, n))
  /\ (forall data offset k ob br v n,
        0 <= offset -> 0 <= br -> offset + n <= len data ->
        _loads_map fuel data offset k ob br = Ok (v, n) ->
        _loads_map fuel (data ++ t) offset k ob br = Ok (v, n)).
Proof.
  induction fuel as [|fuel (IHl & IHa & IHm)].
  - repeat split; try discriminate; intros * Hoff Hbr Hb H.
    + rewrite _loads_array_eq in *. destruct (k <=? 0); [exact H|discriminate].
    + rewrite _loads_map_eq in *. destruct (k <=? 0); [exact H|discriminate].
  - pose proof (_loads_progress fuel) as (Pl & Pa & Pm).
    split; [|split].
    + intros * Hoff Hb H. rewrite _loads_S in *.
      apply _loads_body_ext; auto.
    + intros * Hoff Hbr Hb H. rewrite _loads_array_eq in *.
      destruct (k <=? 0); [exact H|]. cbv iota in *.
      apply _loads_array_turn_ext; auto.
    + intros * Hoff Hbr Hb H. rewrite _loads_map_eq in *.
      destruct (k <=? 0); [exact H|]. cbv iota in *.
      apply _loads_map_turn_ext; auto.
Qed.

(** ** C9: trailing bytes *)

(** C9: whatever follows a complete encoding in the buffer, [loads]
    returns the value of the encoding and raises nothing. *)
Theorem loads_ignores_trailing_bytes (b t : bytes) (v : value) :
  complete_encoding b v -> loads (b ++ t) = Ok v.
Proof.
  intros [fuel H].
  apply (@loads_of_run fuel (b ++ t) v (len b)).
  apply _loads_ext; [lia|lia|exact H].
Qed.

Lemma loads_ignores_trailing_bytes_witness :
  complete_encoding [x83; x01; x02; x03] (VList [VInt 1; VInt 2; VInt 3])
  /\ loads ([x83; x01; x02; x03] ++ [xff; x00; x41]) = Ok (VList [VInt 1; VInt 2; VInt 3]).
Proof.
  assert (H : complete_encoding [x83; x01; x02; x03] (VList [VInt 1; VInt 2; VInt 3])).
  { exists 9%nat. vm_compute. reflexivity. }
  split; [exact H|].
  apply (@loads_ignores_trailing_bytes _ [xff; x00; x41] _ H).
Defined.


(** ** The utf8 codec *)

Ltac zlia := Z.div_mod_to_equations; lia.

Ltac decide_cond :=
  match goal with
  | |- context [?a <? ?b] =>
      first [rewrite (proj2 (Z.ltb_lt a b)) by zlia | rewrite (proj2 (Z.ltb_ge a b)) by zlia]
  | |- context [?a <=? ?b] =>
      first [rewrite (proj2 (Z.leb_le a b)) by zlia | rewrite (proj2 (Z.leb_gt a b)) by zlia]
  | |- context [?a =? ?b] =>
      first [rewrite (proj2 (Z.eqb_eq a b)) by zlia | rewrite (proj2 (Z.eqb_neq a b)) by zlia]
  end.

Lemma utf8_decode_encode_char (c : Z) (rest : bytes) :
  0 <= c <= 0x10FFFF ->
  utf8_decode (utf8_encode_char c ++ rest) = (u <- utf8_decode rest ;; Ok (c :: u)).
Proof.
  intros Hc. unfold utf8_encode_char.
  destruct (c <? 128) eqn:E1; [apply Z.ltb_lt in E1|apply Z.ltb_ge in E1].
  { cbn [app utf8_decode]. rewrite ord_chr by lia.
    rewrite (proj2 (Z.ltb_lt c 128)) by lia. reflexivity. }
  destruct (c <? 2048) eqn:E2; [apply Z.ltb_lt in E2|apply Z.ltb_ge in E2].
  { cbn [app utf8_decode]. unfold is_continuation.
    rewrite !ord_chr by zlia. repeat decide_cond. cbn [andb negb].
    replace ((192 + c / 64 - 192) * 64 + (128 + c mod 64 - 128)) with c by zlia.
    reflexivity. }
  destruct (c <? 65536) eqn:E3; [apply Z.ltb_lt in E3|apply Z.ltb_ge in E3].
  { cbn [app utf8_decode]. unfold is_continuation.
    rewrite !ord_chr by zlia. repeat decide_cond. cbn [andb negb].
    destruct (Z.eq_dec (c / 4096) 0) as [E0|E0].
    - rewrite (proj2 (Z.eqb_eq (224 + c / 4096) 224)) by lia.
      rewrite (proj2 (Z.ltb_ge (128 + (c / 64) mod 64) 160)) by zlia. cbn [andb negb].
      replace ((224 + c / 4096 - 224) * 4096 + (128 + (c / 64) mod 64 - 128) * 64
               + (128 + c mod 64 - 128)) with c by zlia.
      reflexivity.
    - rewrite (proj2 (Z.eqb_neq (224 + c / 4096) 224)) by lia. cbn [andb negb].
      replace ((224 + c / 4096 - 224) * 4096 + (128 + (c / 64) mod 64 - 128) * 64
               + (128 + c mod 64 - 128)) with c by zlia.
      reflexivity. }
  cbn [app utf8_decode]. unfold is_continuation.
  rewrite !ord_chr by zlia.
  rewrite (proj2 (Z.ltb_ge (240 + c / 262144) 128)) by zlia.
  rewrite (proj2 (Z.ltb_ge (240 + c / 262144) 194)) by zlia.
  rewrite (proj2 (Z.ltb_ge (240 + c / 262144) 224)) by zlia.
  rewrite (proj2 (Z.ltb_ge (240 + c / 262144) 240)) by zlia.
  rewrite (proj2 (Z.ltb_lt (240 + c / 262144) 245)) by zlia.
  rewrite (proj2 (Z.leb_le 128 (128 + (c / 4096) mod 64))) by zlia.
  rewrite (proj2 (Z.ltb_lt (128 + (c / 4096) mod 64) 192)) by zlia.
  rewrite (proj2 (Z.leb_le 128 (128 + (c / 64) mod 64))) by zlia.
  rewrite (proj2 (Z.ltb_lt (128 + (c / 64) mod 64) 192)) by zlia.
  rewrite (proj2 (Z.leb_le 128 (128 + c mod 64))) by zlia.
  rewrite (proj2 (Z.ltb_lt (128 + c mod 64) 192)) by zlia.
  cbn [andb].
  replace ((240 + c / 262144 - 240) * 262144 + (128 + (c / 4096) mod 64 - 128) * 4096
           + (128 + (c / 64) mod 64 - 128) * 64 + (128 + c mod 64 - 128)) with c by zlia.
  assert (Hover : ((240 + c / 262144 =? 240) && (128 + (c / 4096) mod 64 <? 144)) = false).
  { destruct (Z.eqb_spec (240 + c / 262144) 240) as [E|E]; [|reflexivity].
    cbn [andb]. apply Z.ltb_ge. zlia. }
  assert (Hmax : ((240 + c / 262144 =? 244) && (143 <? 128 + (c / 4096) mod 64)) = false).
  { destruct (Z.eqb_spec (240 + c / 262144) 244) as [E|E]; [|reflexivity].
    cbn [andb]. apply Z.ltb_ge. zlia. }
  rewrite Hover, Hmax. reflexivity.
Qed.

(** Where no surrogate pair starts, the first character is written on its
    own. *)
Lemma utf8_encode_cons (c : Z) (u : list Z) :
  no_surrogate_pair (c :: u) = true ->
  utf8_encode (c :: u) = utf8_encode_char c ++ utf8_encode u.
Proof.
  intros H. cbn [no_surrogate_pair] in H. apply andb_prop in H. destruct H as [H _].
  destruct u as [|c2 u]; [cbn [utf8_encode]; rewrite app_nil_r; reflexivity|].
  apply negb_true_iff in H.
  change (utf8_encode (c :: c2 :: u))
    with (if is_high_surrogate c && is_low_surrogate c2
          then utf8_encode_char (Z.lor (Z.shiftl (c - 0xD800) 10) (c2 - 0xDC00) + 0x10000)
               ++ utf8_encode u
          else utf8_encode_char c ++ utf8_encode (c2 :: u)).
  rewrite H. reflexivity.
Qed.

Lemma utf8_decode_encode (u : list Z) :
  forallb code_point u = true -> no_surrogate_pair u = true ->
  utf8_decode (utf8_encode u) = Ok u.
Proof.
  induction u as [|c u IH]; intros H Hp; [reflexivity|].
  cbn [forallb] in H. apply andb_prop in H. destruct H as [Hc Hu].
  unfold code_point in Hc. apply andb_prop in Hc. destruct Hc as [H0 H1].
  apply Z.leb_le in H0. apply Z.leb_le in H1.
  rewrite utf8_encode_cons by assumption.
  rewrite utf8_decode_encode_char by lia.
  cbn [no_surrogate_pair] in Hp. apply andb_prop in Hp. destruct Hp as [_ Hp].
  rewrite IH by assumption. reflexivity.
Qed.

(** ** Headers read back *)

Lemma first_byte_table :
  forallb (fun t => forallb (fun i => first_byte_ok t (Z.of_nat i)) (seq 0 28)) major_types
  = true.
Proof. vm_compute. reflexivity. Qed.

Lemma first_byte_fields (cbor_type info : Z) :
  In cbor_type major_types -> 0 <= info <= 27 ->
  let tb := ord (chr (Z.lor cbor_type info)) in
  Z.land tb CBOR_TYPE_MASK = cbor_type /\ Z.land tb CBOR_INFO_BITS = info
  /\ (tb =? CBOR_FLOAT16) = false /\ (tb =? CBOR_FLOAT32) = false
  /\ (tb =? CBOR_FLOAT64) = false.
Proof.
  intros Ht Hi tb.
  pose proof first_byte_table as T. rewrite forallb_forall in T.
  specialize (T _ Ht). rewrite forallb_forall in T.
  specialize (T (Z.to_nat info)). rewrite Z2Nat.id in T by lia.
  assert (Hin : In (Z.to_nat info) (seq 0 28)) by (apply in_seq; lia).
  specialize (T Hin). unfold first_byte_ok in T. fold tb in T.
  repeat (apply andb_prop in T; destruct T as [T ?]).
  repeat match goal with
         | H : negb _ = true |- _ => apply negb_true_iff in H
         | H : (_ =? _) = true |- _ => apply Z.eqb_eq in H
         end.
  auto.
Qed.

Lemma pack_be_1 (val : Z) : pack_be 1 val = [chr val].
Proof. cbn [pack_be]. change (8 * Z.of_nat 0) with 0. rewrite Z.shiftr_0_r. reflexivity. Qed.

Lemma _tag_aux_int_eq (data : bytes) (offset tb : Z) :
  _tag_aux data offset (VInt tb) =
  let tag := Z.land tb CBOR_TYPE_MASK in
  let tag_aux := Z.land tb CBOR_INFO_BITS in
  if tag_aux <=? 23 then Ok (tag, tag_aux, Some tag_aux, 1)
  else if tag_aux =? CBOR_UINT8_FOLLOWS then
    aux <- unpack_from 1 data (offset + 1) ;; Ok (tag, tag_aux, Some aux, 1 + 1)
  else if tag_aux =? CBOR_UINT16_FOLLOWS then
    aux <- unpack_from 2 data (offset + 1) ;; Ok (tag, tag_aux, Some aux, 1 + 2)
  else if tag_aux =? CBOR_UINT32_FOLLOWS then
    aux <- unpack_from 4 data (offset + 1) ;; Ok (tag, tag_aux, Some aux, 1 + 4)
  else if tag_aux =? CBOR_UINT64_FOLLOWS then
    aux <- unpack_from 8 data (offset + 1) ;; Ok (tag, tag_aux, Some aux, 1 + 8)
  else if tag_aux =? CBOR_VAR_FOLLOWS then Ok (tag, tag_aux, None, 1)
  else Raise (BogusTag tag_aux).
Proof. reflexivity. Qed.

Lemma unpack_from_field (size : nat) (pre : bytes) (c : byte) (val : Z) (post : bytes) :
  0 <= val < 256 ^ Z.of_nat size ->
  unpack_from size (pre ++ c :: pack_be size val ++ post) (len pre + 1) = Ok val.
Proof.
  intros Hval.
  replace (pre ++ c :: pack_be size val ++ post)
    with ((pre ++ [c]) ++ pack_be size val ++ post)
    by (rewrite <- app_assoc; reflexivity).
  replace (len pre + 1) with (len (pre ++ [c])) by (rewrite len_app; reflexivity).
  rewrite unpack_from_app.
  - rewrite unpack_pack_be by assumption. reflexivity.
  - pose proof (len_pack_be size val) as L. unfold len in L. lia.
Qed.

Lemma Ok_inj {A : Type} (a b : A) : Ok a = Ok b -> a = b.
Proof. intros [= ->]. reflexivity. Qed.

(** A header written by [_encode_type_num] for an auxiliary value within
    64 bits is read back by [_tag_aux], wherever it sits in a buffer. *)
Lemma header_roundtrip (cbor_type aux : Z) (hd pre post : bytes) :
  In cbor_type major_types ->
  0 <= aux <= 0x0ffffffffffffffff ->
  _encode_type_num cbor_type aux = Ok hd ->
  exists c tl tag_aux,
    hd = c :: tl
    /\ (ord c =? CBOR_FLOAT16) = false /\ (ord c =? CBOR_FLOAT32) = false
    /\ (ord c =? CBOR_FLOAT64) = false
    /\ _tag_aux (pre ++ hd ++ post) (len pre) (VInt (ord c))
       = Ok (cbor_type, tag_aux, Some aux, len hd).
Proof.
  intros Ht Haux H. rewrite _encode_type_num_eq in H. unfold _encode_type_num_body in H.
  rewrite (proj2 (Z.ltb_ge aux 0)) in H by lia.
  rewrite !(pack_be_1 (Z.lor cbor_type _)) in H.
  destruct (aux <=? 23) eqn:E1.
  { apply Z.leb_le in E1. apply Ok_inj in H. subst hd.
    destruct (@first_byte_fields cbor_type aux Ht ltac:(lia)) as (F1 & F2 & F3 & F4 & F5).
    eexists _, _, _. split; [reflexivity|]. repeat split; try assumption.
    rewrite _tag_aux_int_eq. cbv zeta. rewrite F1, F2.
    rewrite (proj2 (Z.leb_le aux 23)) by lia. reflexivity. }
  apply Z.leb_gt in E1.
  destruct (aux <=? 255) eqn:E2.
  { apply Z.leb_le in E2. apply Ok_inj in H. subst hd.
    destruct (@first_byte_fields cbor_type 24 Ht ltac:(lia)) as (F1 & F2 & F3 & F4 & F5).
    eexists _, _, _. split; [reflexivity|]. repeat split; try assumption.
    rewrite _tag_aux_int_eq. cbv zeta.
    change CBOR_UINT8_FOLLOWS with 24 in *. rewrite F1, F2.
    change (24 <=? 23) with false. change (24 =? 24) with true. cbv iota.
    cbn [app]. rewrite unpack_from_field by (simpl; lia). reflexivity. }
  apply Z.leb_gt in E2.
  destruct (aux <=? 65535) eqn:E3.
  { apply Z.leb_le in E3. apply Ok_inj in H. subst hd.
    destruct (@first_byte_fields cbor_type 25 Ht ltac:(lia)) as (F1 & F2 & F3 & F4 & F5).
    eexists _, _, _. split; [reflexivity|]. repeat split; try assumption.
    rewrite _tag_aux_int_eq. cbv zeta.
    change CBOR_UINT16_FOLLOWS with 25 in *. rewrite F1, F2.
    change (25 <=? 23) with false. change (25 =? CBOR_UINT8_FOLLOWS) with false.
    change (25 =? 25) with true. cbv iota.
    cbn [app]. rewrite unpack_from_field by (simpl; lia). reflexivity. }
  apply Z.leb_gt in E3.
  destruct (aux <=? 4294967295) eqn:E4.
  { apply Z.leb_le in E4. apply Ok_inj in H. subst hd.
    destruct (@first_byte_fields cbor_type 26 Ht ltac:(lia)) as (F1 & F2 & F3 & F4 & F5).
    eexists _, _, _. split; [reflexivity|]. repeat split; try assumption.
    rewrite _tag_aux_int_eq. cbv zeta.
    change CBOR_UINT32_FOLLOWS with 26 in *. rewrite F1, F2.
    change (26 <=? 23) with false. change (26 =? CBOR_UINT8_FOLLOWS) with false.
    change (26 =? CBOR_UINT16_FOLLOWS) with false.
    change (26 =? 26) with true. cbv iota.
    cbn [app]. rewrite unpack_from_field by (simpl; lia). reflexivity. }
  apply Z.leb_gt in E4.
  rewrite (proj2 (Z.leb_le aux 18446744073709551615)) in H by lia.
  apply Ok_inj in H. subst hd.
  destruct (@first_byte_fields cbor_type 27 Ht ltac:(lia)) as (F1 & F2 & F3 & F4 & F5).
  eexists _, _, _. split; [reflexivity|]. repeat split; try assumption.
  rewrite _tag_aux_int_eq. cbv zeta.
  change CBOR_UINT64_FOLLOWS with 27 in *. rewrite F1, F2.
  change (27 <=? 23) with false. change (27 =? CBOR_UINT8_FOLLOWS) with false.
  change (27 =? CBOR_UINT16_FOLLOWS) with false. change (27 =? CBOR_UINT32_FOLLOWS) with false.
  change (27 =? 27) with true. cbv iota.
  cbn [app]. rewrite unpack_from_field by (simpl; lia). reflexivity.
Qed.

(** ** Round trip *)

(** Induction on values that reaches the items of lists, tuples and
    dicts. *)
Section ValueInduction.
Variable P : value -> Prop.
Hypothesis HNone : P VNone.
Hypothesis HBool : forall b, P (VBool b).
Hypothesis HInt : forall z, P (VInt z).
Hypothesis HFloat : forall bits, P (VFloat bits).
Hypothesis HStr : forall s, P (VStr s).
Hypothesis HUnicode : forall u, P (VUnicode u).
Hypothesis HList : forall l, Forall P l -> P (VList l).
Hypothesis HTuple : forall l, Forall P l -> P (VTuple l).
Hypothesis HDict : forall d, Forall (fun kv => P (fst kv) /\ P (snd kv)) d -> P (VDict d).
Hypothesis HTag : forall tag v, P v -> P (VTag tag v).
Hypothesis HDatetime : forall v, P v -> P (VDatetime v).
Hypothesis HRegex : forall v, P v -> P (VRegex v).

Fixpoint value_nested_ind (v : value) : P v :=
  match v with
  | VNone => HNone
  | VBool b => HBool b
  | VInt z => HInt z
  | VFloat bits => HFloat bits
  | VStr s => HStr s
  | VUnicode u => HUnicode u
  | VList l =>
      HList ((fix items (l : list value) : Forall P l :=
                match l with
                | [] => Forall_nil P
                | x :: r => Forall_cons x (value_nested_ind x) (items r)
                end) l)
  | VTuple l =>
      HTuple ((fix items (l : list value) : Forall P l :=
                 match l with
                 | [] => Forall_nil P
                 | x :: r => Forall_cons x (value_nested_ind x) (items r)
                 end) l)
  | VDict d =>
      HDict ((fix pairs (d : list (value * value))
                : Forall (fun kv => P (fst kv) /\ P (snd kv)) d :=
                match d with
                | [] => Forall_nil _
                | kv :: r =>
                    Forall_cons kv (conj (value_nested_ind (fst kv))
                                         (value_nested_ind (snd kv))) (pairs r)
                end) d)
  | VTag tag w => HTag tag (value_nested_ind w)
  | VDatetime w => HDatetime (value_nested_ind w)
  | VRegex w => HRegex (value_nested_ind w)
  end.
End ValueInduction.

Lemma decodes_to_simple (c : byte) (v : value) :
  (forall data offset, getitem data offset = Ok c ->
     _loads_body (_loads 0) (_loads_array 0) (_loads_map 0) (loads_bytes 0)
                 data offset 0 false = Ok (v, 1)) ->
  decodes_to [c] v.
Proof.
  intros H. exists 1%nat. intros fuel data pre post Hf ->.
  apply (@_loads_more_fuel 1 fuel); [assumption|].
  rewrite _loads_S. apply H. apply getitem_app.
Qed.

Lemma decodes_to_None : decodes_to (pack_be 1 CBOR_NULL) VNone.
Proof.
  apply (@decodes_to_simple xf6). intros data offset E.
  unfold _loads_body. rewrite E. reflexivity.
Qed.

Lemma decodes_to_Bool (b : bool) (bs : bytes) : dumps_bool b = Ok bs -> decodes_to bs (VBool b).
Proof.
  destruct b; intros [= <-].
  - apply (@decodes_to_simple xf5). intros data offset E.
    unfold _loads_body. rewrite E. reflexivity.
  - apply (@decodes_to_simple xf4). intros data offset E.
    unfold _loads_body. rewrite E. reflexivity.
Qed.

Lemma decodes_to_Float (bits : Z) :
  0 <= bits < 2 ^ 64 -> decodes_to (pack_be 1 CBOR_FLOAT64 ++ pack_be 8 bits) (VFloat bits).
Proof.
  intros Hb. exists 1%nat. intros fuel data pre post Hf ->.
  apply (@_loads_more_fuel 1 fuel); [assumption|].
  rewrite _loads_S. unfold _loads_body.
  change (pack_be 1 CBOR_FLOAT64) with [xfb]. cbn [app].
  rewrite getitem_app. cbn [bind].
  change (0 >? _MAX_DEPTH) with false. change (ord xfb =? CBOR_FLOAT16) with false.
  change (ord xfb =? CBOR_FLOAT32) with false. change (ord xfb =? CBOR_FLOAT64) with true.
  cbv iota. rewrite unpack_from_field by (simpl; lia). reflexivity.
Qed.

Lemma _loads_body_after_header
    (self : bytes -> Z -> Z -> bool -> result (value * Z))
    (array_loop : bytes -> Z -> Z -> list value -> Z -> result (value * Z))
    (map_loop : bytes -> Z -> Z -> list (value * value) -> Z -> result (value * Z))
    (loads_bytes' : bytes -> Z -> option Z -> Z -> result (bytes * Z))
    (data : bytes) (offset depth : Z) (returntags : bool) :
  _loads_body self array_loop map_loop loads_bytes' data offset depth returntags =
  if depth >? _MAX_DEPTH then Raise RecursionDepthLimit
  else
    c <- getitem data offset ;;
    if ord c =? CBOR_FLOAT16 then Raise Float16Unsupported
    else if ord c =? CBOR_FLOAT32 then
      pf <- unpack_from 4 data (offset + 1) ;; Ok (VFloat (float32_to_float64 pf), 5)
    else if ord c =? CBOR_FLOAT64 then
      pf <- unpack_from 8 data (offset + 1) ;; Ok (VFloat pf, 9)
    else
      x <- _tag_aux data offset (VInt (ord c)) ;;
      after_header self array_loop map_loop loads_bytes' data offset returntags (ord c)
                   (fst (fst (fst x))) (snd (fst x)) (snd x).
Proof.
  unfold _loads_body, after_header.
  destruct (depth >? _MAX_DEPTH); [reflexivity|].
  destruct (getitem data offset) as [c| |]; [|reflexivity|reflexivity]. cbn [bind].
  destruct (ord c =? CBOR_FLOAT16); [reflexivity|].
  destruct (ord c =? CBOR_FLOAT32); [reflexivity|].
  destruct (ord c =? CBOR_FLOAT64); [reflexivity|].
  destruct (_tag_aux data offset (VInt (ord c))) as [[[[tag tag_aux] aux] br]| |];
    reflexivity.
Qed.

(** Decoding at a header written by [_encode_type_num]. *)
Lemma _loads_at_header (fuel : nat) (cbor_type aux : Z) (hd rest data pre post : bytes)
    (returntags : bool) :
  In cbor_type major_types -> 0 <= aux <= 0x0ffffffffffffffff ->
  _encode_type_num cbor_type aux = Ok hd ->
  data = pre ++ (hd ++ rest) ++ post ->
  exists tb,
    _loads (S fuel) data (len pre) 0 returntags
    = after_header (_loads fuel) (_loads_array fuel) (_loads_map fuel) (loads_bytes fuel)
                   data (len pre) returntags tb cbor_type (Some aux) (len hd).
Proof.
  intros Ht Haux Hhd ->.
  destruct (@header_roundtrip cbor_type aux hd pre (rest ++ post) Ht Haux Hhd)
    as (c & tl & tag_aux & -> & F16 & F32 & F64 & Htag).
  exists (ord c). rewrite _loads_S, _loads_body_after_header.
  change (0 >? _MAX_DEPTH) with false. cbv iota.
  rewrite <- app_assoc.
  change ((c :: tl) ++ rest ++ post) with (c :: (tl ++ rest ++ post)).
  rewrite getitem_app. cbn [bind]. rewrite F16, F32, F64.
  change (c :: tl ++ rest ++ post) with ((c :: tl) ++ rest ++ post).
  rewrite Htag. reflexivity.
Qed.

(** Choosing the branch of a test between two known numbers. *)
Ltac pick_branch :=
  repeat match goal with
         | |- context [?a =? ?b] =>
             let r := eval vm_compute in (a =? b) in
             match r with
             | true => change (a =? b) with true
             | false => change (a =? b) with false
             end
         end;
  cbv iota.

Lemma len_nil {A : Type} : len (@nil A) = 0.
Proof. reflexivity. Qed.

Create Rewrite HintDb len.
#[local] Hint Rewrite @len_cons @len_app @len_nil @len_pack_be : len.

Lemma slice_at (data pre hd s post : bytes) :
  data = pre ++ (hd ++ s) ++ post ->
  slice data (len pre + len hd) (len pre + len hd + len s) = s.
Proof.
  intros ->. rewrite <- len_app.
  replace (pre ++ (hd ++ s) ++ post) with ((pre ++ hd) ++ s ++ post)
    by (rewrite <- !app_assoc; reflexivity).
  apply slice_app.
Qed.

Lemma major_type_In (cbor_type : Z) :
  existsb (Z.eqb cbor_type) major_types = true -> In cbor_type major_types.
Proof.
  intros H. apply existsb_exists in H. destruct H as (x & Hin & E).
  apply Z.eqb_eq in E. subst. exact Hin.
Qed.

Lemma decodes_to_Str (s hd : bytes) :
  len s <= 0x0ffffffffffffffff ->
  _encode_type_num CBOR_BYTES (len s) = Ok hd ->
  decodes_to (hd ++ s) (VStr s).
Proof.
  intros Hlen Hhd. exists 1%nat. intros fuel data pre post Hf Hdata.
  apply (@_loads_more_fuel 1 fuel); [assumption|].
  pose proof (len_nonneg s).
  destruct (@_loads_at_header 0 CBOR_BYTES (len s) hd s data pre post false)
    as [tb E]; [apply major_type_In; reflexivity|lia|assumption|assumption|].
  rewrite E. unfold after_header. pick_branch.
  cbn [loads_bytes bind]. rewrite (@slice_at _ _ _ _ _ Hdata), len_app. reflexivity.
Qed.

Lemma decodes_to_Unicode (u : list Z) (hd : bytes) :
  forallb code_point u = true -> no_surrogate_pair u = true ->
  len (utf8_encode u) <= 0x0ffffffffffffffff ->
  _encode_type_num CBOR_TEXT (len (utf8_encode u)) = Ok hd ->
  decodes_to (hd ++ utf8_encode u) (VUnicode u).
Proof.
  intros Hu Hp Hlen Hhd. exists 1%nat. intros fuel data pre post Hf Hdata.
  apply (@_loads_more_fuel 1 fuel); [assumption|].
  pose proof (len_nonneg (utf8_encode u)).
  destruct (@_loads_at_header 0 CBOR_TEXT (len (utf8_encode u)) hd (utf8_encode u)
                              data pre post false)
    as [tb E]; [apply major_type_In; reflexivity|lia|assumption|assumption|].
  rewrite E. unfold after_header. pick_branch.
  cbn [loads_bytes bind]. rewrite (@slice_at _ _ _ _ _ Hdata), utf8_decode_encode by assumption.
  cbn [bind]. rewrite len_app. reflexivity.
Qed.

Lemma decodes_to_uint (z : Z) (hd : bytes) :
  0 <= z <= 0x0ffffffffffffffff ->
  _encode_type_num CBOR_UINT z = Ok hd -> decodes_to hd (VInt z).
Proof.
  intros Hz Hhd. exists 1%nat. intros fuel data pre post Hf Hdata.
  apply (@_loads_more_fuel 1 fuel); [assumption|].
  destruct (@_loads_at_header 0 CBOR_UINT z hd [] data pre post false)
    as [tb E]; [apply major_type_In; reflexivity|lia|assumption| |].
  { rewrite app_nil_r. assumption. }
  rewrite E. unfold after_header. pick_branch. reflexivity.
Qed.

Lemma decodes_to_negint (z : Z) (hd : bytes) :
  0 <= z <= 0x0ffffffffffffffff ->
  _encode_type_num CBOR_NEGINT z = Ok hd -> decodes_to hd (VInt (-1 - z)).
Proof.
  intros Hz Hhd. exists 1%nat. intros fuel data pre post Hf Hdata.
  apply (@_loads_more_fuel 1 fuel); [assumption|].
  destruct (@_loads_at_header 0 CBOR_NEGINT z hd [] data pre post false)
    as [tb E]; [apply major_type_In; reflexivity|lia|assumption| |].
  { rewrite app_nil_r. assumption. }
  rewrite E. unfold after_header. pick_branch. reflexivity.
Qed.

(** A bignum tag (2 or 3) in front of a byte string. *)
Lemma decodes_to_tagged_bytes (tagnum : Z) (s hd : bytes) (v : value) :
  0 <= tagnum <= 23 ->
  len s <= 0x0ffffffffffffffff ->
  _encode_type_num CBOR_BYTES (len s) = Ok hd ->
  tagify (VStr s) (Some tagnum) = Ok v ->
  decodes_to (chr (Z.lor CBOR_TAG tagnum) :: hd ++ s) v.
Proof.
  intros Htag Hlen Hhd Hv.
  destruct (@decodes_to_Str s hd Hlen Hhd) as [f0 Hs].
  exists (S f0). intros fuel data pre post Hf Hdata.
  destruct fuel as [|fuel]; [lia|].
  destruct (@_loads_at_header fuel CBOR_TAG tagnum [chr (Z.lor CBOR_TAG tagnum)] (hd ++ s)
                              data pre post false)
    as [tb E]; [apply major_type_In; reflexivity|lia| |assumption|].
  { rewrite _encode_type_num_eq. unfold _encode_type_num_body.
    rewrite (proj2 (Z.ltb_ge tagnum 0)) by lia.
    rewrite (proj2 (Z.leb_le tagnum 23)) by lia. rewrite pack_be_1. reflexivity. }
  rewrite E. unfold after_header. pick_branch. rewrite <- len_app.
  rewrite (Hs fuel data (pre ++ [chr (Z.lor CBOR_TAG tagnum)]) post).
  - cbn [bind]. rewrite Hv. cbn [bind]. autorewrite with len.
    f_equal. f_equal. lia.
  - lia.
  - rewrite Hdata. cbn [app]. rewrite <- !app_assoc. reflexivity.
Qed.

Lemma sys_maxint_le : sys_maxint <= 0x0ffffffffffffffff.
Proof. unfold sys_maxint. lia. Qed.

Lemma _encode_type_num_Ok (cbor_type aux : Z) :
  0 <= aux <= 0x0ffffffffffffffff -> exists hd, _encode_type_num cbor_type aux = Ok hd.
Proof.
  intros H. destruct (_encode_type_num_length cbor_type H) as (hd & E & _). eauto.
Qed.

Lemma tagify_bignum (s : bytes) :
  tagify (VStr s) (Some CBOR_TAG_BIGNUM) = Ok (VInt (bytes_to_biguint s)).
Proof. unfold tagify. pick_branch. rewrite _bytes_to_biguint_str. reflexivity. Qed.

Lemma tagify_negbignum (s : bytes) :
  tagify (VStr s) (Some CBOR_TAG_NEGBIGNUM) = Ok (VInt (-1 - bytes_to_biguint s)).
Proof. unfold tagify. pick_branch. rewrite _bytes_to_biguint_str. reflexivity. Qed.

Lemma bignum_bytes_value (val : Z) :
  0 <= val -> bytes_to_biguint (_dumps_bignum_to_bytearray val) = val.
Proof.
  intros H. unfold _dumps_bignum_to_bytearray. rewrite bignum_loop_value by assumption.
  rewrite len_nil. change (bytes_to_biguint []) with 0. lia.
Qed.

(** Integers beyond 64 bits: the tag, the byte-string header and the
    bytes, and back. *)
Lemma dumps_int_big (z : Z) :
  0x0ffffffffffffffff < z ->
  len (_dumps_bignum_to_bytearray z) <= 0x0ffffffffffffffff ->
  exists hd,
    _encode_type_num CBOR_BYTES (len (_dumps_bignum_to_bytearray z)) = Ok hd
    /\ dumps_int z = Ok (chr (Z.lor CBOR_TAG CBOR_TAG_BIGNUM) :: hd
                         ++ _dumps_bignum_to_bytearray z)
    /\ decodes_to (chr (Z.lor CBOR_TAG CBOR_TAG_BIGNUM) :: hd
                   ++ _dumps_bignum_to_bytearray z) (VInt z).
Proof.
  intros Hz Hlen. pose proof (len_nonneg (_dumps_bignum_to_bytearray z)) as Hn.
  destruct (@_encode_type_num_Ok CBOR_BYTES (len (_dumps_bignum_to_bytearray z)))
    as [hd Hhd]; [lia|].
  exists hd. split; [assumption|]. split.
  - unfold dumps_int.
    rewrite (proj2 (Z.geb_le z 0)) by lia.
    rewrite (proj2 (Z.leb_gt z 23)) by lia. rewrite (proj2 (Z.leb_gt z 255)) by lia.
    rewrite (proj2 (Z.leb_gt z 65535)) by lia.
    rewrite (proj2 (Z.leb_gt z 4294967295)) by lia.
    rewrite (proj2 (Z.leb_gt z 18446744073709551615)) by lia.
    cbv zeta. rewrite Hhd. reflexivity.
  - apply decodes_to_tagged_bytes; try assumption; [unfold CBOR_TAG_BIGNUM; lia|].
    rewrite tagify_bignum, bignum_bytes_value by lia. reflexivity.
Qed.

Lemma dumps_int_negbig (z : Z) :
  z < - 0x0ffffffffffffffff - 1 ->
  len (_dumps_bignum_to_bytearray (-1 - z)) <= 0x0ffffffffffffffff ->
  exists hd,
    _encode_type_num CBOR_BYTES (len (_dumps_bignum_to_bytearray (-1 - z))) = Ok hd
    /\ dumps_int z = Ok (chr (Z.lor CBOR_TAG CBOR_TAG_NEGBIGNUM) :: hd
                         ++ _dumps_bignum_to_bytearray (-1 - z))
    /\ decodes_to (chr (Z.lor CBOR_TAG CBOR_TAG_NEGBIGNUM) :: hd
                   ++ _dumps_bignum_to_bytearray (-1 - z)) (VInt z).
Proof.
  intros Hz Hlen. pose proof (len_nonneg (_dumps_bignum_to_bytearray (-1 - z))) as Hn.
  destruct (@_encode_type_num_Ok CBOR_BYTES (len (_dumps_bignum_to_bytearray (-1 - z))))
    as [hd Hhd]; [lia|].
  exists hd. split; [assumption|]. split.
  - unfold dumps_int.
    destruct (z >=? 0) eqn:G; [apply Z.geb_le in G; lia|]. cbv zeta.
    rewrite _encode_type_num_eq. unfold _encode_type_num_body.
    rewrite (proj2 (Z.ltb_ge (-1 - z) 0)) by lia.
    rewrite (proj2 (Z.leb_gt (-1 - z) 23)) by lia.
    rewrite (proj2 (Z.leb_gt (-1 - z) 255)) by lia.
    rewrite (proj2 (Z.leb_gt (-1 - z) 65535)) by lia.
    rewrite (proj2 (Z.leb_gt (-1 - z) 4294967295)) by lia.
    rewrite (proj2 (Z.leb_gt (-1 - z) 18446744073709551615)) by lia.
    change (negb (CBOR_NEGINT =? CBOR_NEGINT)) with false. cbv iota zeta.
    rewrite Hhd. reflexivity.
  - apply decodes_to_tagged_bytes; try assumption; [unfold CBOR_TAG_NEGBIGNUM; lia|].
    rewrite tagify_negbignum, bignum_bytes_value by lia. f_equal. f_equal. lia.
Qed.

Lemma dumps_int_decodes (z : Z) :
  int_representable z = true -> exists bs, dumps_int z = Ok bs /\ decodes_to bs (VInt z).
Proof.
  unfold int_representable. intros H. apply Z.leb_le in H.
  pose proof sys_maxint_le as M.
  destruct (z >=? 0) eqn:G.
  - apply Z.geb_le in G.
    destruct (Z_le_gt_dec z 0x0ffffffffffffffff) as [Hle|Hgt].
    + destruct (@_encode_type_num_Ok CBOR_UINT z) as [hd Hhd]; [lia|].
      exists hd. rewrite dumps_int_nonneg_eq by lia. split; [assumption|].
      apply decodes_to_uint; [lia|assumption].
    + destruct (@dumps_int_big z) as (hd & _ & E & D); [lia|lia|]. eauto.
  - assert (Hneg : z < 0).
    { destruct (Z_lt_ge_dec z 0); [assumption|].
      rewrite (proj2 (Z.geb_le z 0)) in G by lia. discriminate. }
    destruct (Z_le_gt_dec (-1 - z) 0x0ffffffffffffffff) as [Hle|Hgt].
    + destruct (@_encode_type_num_Ok CBOR_NEGINT (-1 - z)) as [hd Hhd]; [lia|].
      exists hd. split.
      * unfold dumps_int. destruct (z >=? 0) eqn:G'; [discriminate|]. exact Hhd.
      * replace z with (-1 - (-1 - z)) at 1 by lia.
        apply decodes_to_negint; [lia|assumption].
    + destruct (@dumps_int_negbig z) as (hd & _ & E & D); [lia|lia|]. eauto.
Qed.

(** *** Lists *)

Lemma array_loop_decodes (parts : list bytes) (rest : list value) :
  Forall2 decodes_to parts rest ->
  exists fuel0, forall fuel data pre done post ob,
    (fuel0 <= fuel)%nat -> data = pre ++ (done ++ concat parts) ++ post ->
    _loads_array fuel data (len pre) (len rest) ob (len done)
    = Ok (VList (ob ++ rest), len done + len (concat parts)).
Proof.
  induction 1 as [|p v parts rest Hd _ (f0 & IH)].
  - exists 0%nat. intros fuel data pre done post ob _ _.
    rewrite _loads_array_eq. change (len [] <=? 0) with true. cbv iota.
    rewrite app_nil_r. cbn [concat]. rewrite len_nil, Z.add_0_r. reflexivity.
  - destruct Hd as (fe & Hd).
    exists (S (Nat.max fe f0)). intros fuel data pre done post ob Hf Hdata.
    destruct fuel as [|fuel]; [lia|].
    rewrite _loads_array_eq. pose proof (len_nonneg rest).
    rewrite len_cons, (proj2 (Z.leb_gt (len rest + 1) 0)) by lia. cbv iota.
    unfold _loads_array_turn. rewrite <- len_app.
    rewrite (Hd fuel data (pre ++ done) (concat parts ++ post)).
    2: lia.
    2:{ rewrite Hdata. cbn [concat]. rewrite <- !app_assoc. reflexivity. }
    cbn [bind].
    replace (len rest + 1 - 1) with (len rest) by lia.
    replace (len done + len p) with (len (done ++ p)) by apply len_app.
    rewrite (IH fuel data pre (done ++ p) post).
    2: lia.
    2:{ rewrite Hdata. cbn [concat]. rewrite <- !app_assoc. reflexivity. }
    rewrite <- app_assoc. cbn [app concat]. autorewrite with len.
    f_equal. f_equal. lia.
Qed.

Lemma map_result_decodes (l : list value) :
  Forall (fun x => representable x = true ->
                   exists bs, dumps x = Ok bs /\ decodes_to bs x) l ->
  forallb representable l = true ->
  exists parts, map_result dumps l = Ok parts /\ Forall2 decodes_to parts l.
Proof.
  induction 1 as [|x l Hx _ IH]; intros Hr.
  - exists []. split; [reflexivity|constructor].
  - cbn [forallb] in Hr. apply andb_prop in Hr. destruct Hr as [Hrx Hrl].
    destruct (Hx Hrx) as (bs & E & D). destruct (IH Hrl) as (parts & Ep & Dp).
    exists (bs :: parts). split; [|constructor; assumption].
    cbn [map_result]. rewrite E. cbn [bind].
    change ((fix go (l0 : list value) : result (list bytes) :=
               match l0 with
               | [] => Ok []
               | x0 :: r => y <- dumps x0;; ys <- go r;; Ok (y :: ys)
               end) l) with (map_result dumps l).
    rewrite Ep. reflexivity.
Qed.

Lemma dumps_list_decodes (l : list value) :
  Forall (fun x => representable x = true ->
                   exists bs, dumps x = Ok bs /\ decodes_to bs x) l ->
  representable (VList l) = true ->
  exists bs, dumps (VList l) = Ok bs /\ decodes_to bs (VList l).
Proof.
  intros IH Hr. cbn [representable] in Hr. apply andb_prop in Hr. destruct Hr as [Hlen Hr].
  apply Z.leb_le in Hlen. pose proof sys_maxint_le as M. pose proof (len_nonneg l) as Hn.
  destruct (map_result_decodes IH Hr) as (parts & Ep & Dp).
  destruct (@_encode_type_num_Ok CBOR_ARRAY (len l)) as [hd Hhd]; [lia|].
  exists (hd ++ concat parts). split.
  - change (dumps (VList l)) with (dumps_array dumps l). unfold dumps_array.
    rewrite Hhd. cbn [bind]. rewrite Ep. reflexivity.
  - destruct (array_loop_decodes Dp) as (f0 & Hloop).
    exists (S f0). intros fuel data pre post Hf Hdata.
    destruct fuel as [|fuel]; [lia|].
    destruct (@_loads_at_header fuel CBOR_ARRAY (len l) hd (concat parts) data pre post false)
      as [tb E]; [apply major_type_In; reflexivity|lia|assumption|assumption|].
    rewrite E. unfold after_header. pick_branch.
    unfold xrange. destruct (len l >? sys_maxint) eqn:G; [apply Z.gtb_gt in G; lia|].
    cbn [bind]. rewrite (Hloop fuel data pre hd post []); [|lia|assumption].
    rewrite len_app. reflexivity.
Qed.

(** *** Dicts *)

Lemma dict_update_new (ob : list (value * value)) (k v : value) :
  forallb (fun kv => negb (py_eq (fst kv) k)) ob = true ->
  dict_update ob k v = ob ++ [(k, v)].
Proof.
  induction ob as [|[k' v'] ob IH]; intros H; [reflexivity|].
  cbn [forallb fst] in H. apply andb_prop in H. destruct H as [Hk Hob].
  apply negb_true_iff in Hk. cbn [dict_update app]. rewrite Hk, IH by assumption.
  reflexivity.
Qed.

Lemma keys_distinct_app (ob : list (value * value)) (kv : value * value)
    (rest : list (value * value)) :
  keys_distinct (ob ++ kv :: rest) = true ->
  forallb (fun kv' => negb (py_eq (fst kv') (fst kv))) ob = true.
Proof.
  induction ob as [|a ob IH]; intros H; [reflexivity|].
  cbn [app keys_distinct] in H. apply andb_prop in H. destruct H as [Ha Hob].
  rewrite forallb_app in Ha. apply andb_prop in Ha. destruct Ha as [_ Ha].
  cbn [forallb] in Ha. apply andb_prop in Ha. destruct Ha as [Ha _].
  cbn [forallb]. rewrite Ha. cbn [andb]. apply IH, Hob.
Qed.

Lemma scalar_hashable (k : value) : scalar k = true -> hashable k = true.
Proof. destruct k; cbn [scalar]; intros H; try discriminate; reflexivity. Qed.

Lemma map_loop_decodes (parts : list bytes) (rest : list (value * value)) :
  Forall2 pair_decodes_to parts rest ->
  forallb (fun kv => scalar (fst kv)) rest = true ->
  exists fuel0, forall fuel data pre done post ob,
    (fuel0 <= fuel)%nat -> data = pre ++ (done ++ concat parts) ++ post ->
    keys_distinct (ob ++ rest) = true ->
    _loads_map fuel data (len pre) (len rest) ob (len done)
    = Ok (VDict (ob ++ rest), len done + len (concat parts)).
Proof.
  induction 1 as [|p kv parts rest Hd _ IH]; intros Hs.
  - exists 0%nat. intros fuel data pre done post ob _ _ _.
    rewrite _loads_map_eq. change (len [] <=? 0) with true. cbv iota.
    rewrite app_nil_r. cbn [concat]. rewrite len_nil, Z.add_0_r. reflexivity.
  - cbn [forallb] in Hs. apply andb_prop in Hs. destruct Hs as [Hk Hs].
    destruct (IH Hs) as (f0 & IHf).
    destruct Hd as (kb & vb & -> & (fk & Dk) & (fv & Dv)).
    exists (S (Nat.max (Nat.max fk fv) f0)). intros fuel data pre done post ob Hf Hdata Hkeys.
    destruct fuel as [|fuel]; [lia|].
    rewrite _loads_map_eq. pose proof (len_nonneg rest).
    rewrite len_cons, (proj2 (Z.leb_gt (len rest + 1) 0)) by lia. cbv iota.
    unfold _loads_map_turn. rewrite <- len_app.
    rewrite (Dk fuel data (pre ++ done) (vb ++ concat parts ++ post)).
    2: lia.
    2:{ rewrite Hdata. cbn [concat]. rewrite <- !app_assoc. reflexivity. }
    cbn [bind]. cbv zeta.
    replace (len pre + (len done + len kb)) with (len ((pre ++ done) ++ kb))
      by (autorewrite with len; lia).
    rewrite (Dv fuel data ((pre ++ done) ++ kb) (concat parts ++ post)).
    2: lia.
    2:{ rewrite Hdata. cbn [concat]. rewrite <- !app_assoc. reflexivity. }
    cbn [bind]. unfold dict_setitem. rewrite scalar_hashable by assumption.
    rewrite dict_update_new by (apply (keys_distinct_app _ _ _ Hkeys)).
    cbn [bind].
    replace (len rest + 1 - 1) with (len rest) by lia.
    replace (len done + len kb + len vb) with (len (done ++ kb ++ vb))
      by (autorewrite with len; lia).
    rewrite (IHf fuel data pre (done ++ kb ++ vb) post).
    + rewrite <- surjective_pairing, <- app_assoc. cbn [app concat].
      autorewrite with len. f_equal. f_equal. lia.
    + lia.
    + rewrite Hdata. cbn [concat]. rewrite <- !app_assoc. reflexivity.
    + rewrite <- surjective_pairing, <- app_assoc. exact Hkeys.
Qed.

Lemma map_result_pairs_decodes (d : list (value * value)) :
  Forall (fun kv =>
            (representable (fst kv) = true ->
             exists bs, dumps (fst kv) = Ok bs /\ decodes_to bs (fst kv))
            /\ (representable (snd kv) = true ->
                exists bs, dumps (snd kv) = Ok bs /\ decodes_to bs (snd kv))) d ->
  forallb (fun kv => scalar (fst kv) && representable (fst kv) && representable (snd kv)) d
  = true ->
  exists parts, map_result dumps_pair d = Ok parts
                /\ Forall2 pair_decodes_to parts d
                /\ forallb (fun kv => scalar (fst kv)) d = true.
Proof.
  induction 1 as [|kv d [Hk Hv] _ IH]; intros Hr.
  - exists []. repeat split; constructor.
  - cbn [forallb] in Hr. apply andb_prop in Hr. destruct Hr as [Hkv Hrd].
    apply andb_prop in Hkv. destruct Hkv as [Hkv Hrv].
    apply andb_prop in Hkv. destruct Hkv as [Hsk Hrk].
    destruct (Hk Hrk) as (kb & Ek & Dk). destruct (Hv Hrv) as (vb & Ev & Dv).
    destruct (IH Hrd) as (parts & Ep & Dp & Sp).
    exists ((kb ++ vb) :: parts). repeat split.
    + cbn [map_result]. unfold dumps_pair at 1. rewrite Ek, Ev. cbn [bind].
      change ((fix go (l : list (value * value)) : result (list bytes) :=
                 match l with
                 | [] => Ok []
                 | x :: r => y <- dumps_pair x;; ys <- go r;; Ok (y :: ys)
                 end) d) with (map_result dumps_pair d).
      rewrite Ep. reflexivity.
    + constructor; [|assumption]. exists kb, vb. auto.
    + cbn [forallb]. rewrite Hsk, Sp. reflexivity.
Qed.

Lemma dumps_dict_decodes (d : list (value * value)) :
  Forall (fun kv =>
            (representable (fst kv) = true ->
             exists bs, dumps (fst kv) = Ok bs /\ decodes_to bs (fst kv))
            /\ (representable (snd kv) = true ->
                exists bs, dumps (snd kv) = Ok bs /\ decodes_to bs (snd kv))) d ->
  representable (VDict d) = true ->
  exists bs, dumps (VDict d) = Ok bs /\ decodes_to bs (VDict d).
Proof.
  intros IH Hr. cbn [representable] in Hr.
  apply andb_prop in Hr. destruct Hr as [Hr Hkeys].
  apply andb_prop in Hr. destruct Hr as [Hlen Hr].
  apply Z.leb_le in Hlen. pose proof sys_maxint_le as M. pose proof (len_nonneg d) as Hn.
  destruct (map_result_pairs_decodes IH Hr) as (parts & Ep & Dp & Sp).
  destruct (@_encode_type_num_Ok CBOR_MAP (len d)) as [hd Hhd]; [lia|].
  exists (hd ++ concat parts). split.
  - change (dumps (VDict d))
      with (head <- _encode_type_num CBOR_MAP (len d) ;;
            parts <- map_result dumps_pair d ;; Ok (head ++ concat parts)).
    rewrite Hhd. cbn [bind]. rewrite Ep. reflexivity.
  - destruct (map_loop_decodes Dp Sp) as (f0 & Hloop).
    exists (S f0). intros fuel data pre post Hf Hdata.
    destruct fuel as [|fuel]; [lia|].
    destruct (@_loads_at_header fuel CBOR_MAP (len d) hd (concat parts) data pre post false)
      as [tb E]; [apply major_type_In; reflexivity|lia|assumption|assumption|].
    rewrite E. unfold after_header. pick_branch.
    unfold xrange. destruct (len d >? sys_maxint) eqn:G; [apply Z.gtb_gt in G; lia|].
    cbn [bind]. rewrite (Hloop fuel data pre hd post []); [|lia|assumption|assumption].
    rewrite len_app. reflexivity.
Qed.

(** Every representable value is encoded, and its encoding decodes to it
    wherever it sits. *)
Lemma dumps_decodes (v : value) :
  representable v = true -> exists bs, dumps v = Ok bs /\ decodes_to bs v.
Proof.
  induction v using value_nested_ind; intros Hr; try discriminate Hr.
  - exists (pack_be 1 CBOR_NULL). split; [reflexivity|apply decodes_to_None].
  - destruct b; eexists; (split; [reflexivity|apply decodes_to_Bool; reflexivity]).
  - apply dumps_int_decodes, Hr.
  - cbn [representable] in Hr. apply andb_prop in Hr. destruct Hr as [Hr _].
    apply andb_prop in Hr. destruct Hr as [H0 H1].
    apply Z.leb_le in H0. apply Z.ltb_lt in H1.
    eexists. split; [reflexivity|]. apply decodes_to_Float. lia.
  - cbn [representable] in Hr. apply Z.leb_le in Hr.
    pose proof sys_maxint_le. pose proof (len_nonneg s).
    destruct (@_encode_type_num_Ok CBOR_BYTES (len s)) as [hd Hhd]; [lia|].
    exists (hd ++ s). split.
    + cbn [dumps]. unfold dumps_string. cbn [bind orb negb]. rewrite Hhd. reflexivity.
    + apply decodes_to_Str; [lia|assumption].
  - cbn [representable] in Hr. apply andb_prop in Hr. destruct Hr as [Hu Hlen].
    apply andb_prop in Hu. destruct Hu as [Hu Hp].
    apply Z.leb_le in Hlen.
    pose proof sys_maxint_le. pose proof (len_nonneg (utf8_encode u)).
    destruct (@_encode_type_num_Ok CBOR_TEXT (len (utf8_encode u))) as [hd Hhd]; [lia|].
    exists (hd ++ utf8_encode u). split.
    + cbn [dumps]. unfold dumps_string. cbn [bind orb negb]. rewrite Hhd. reflexivity.
    + apply decodes_to_Unicode; [assumption|assumption|lia|assumption].
  - apply dumps_list_decodes; assumption.
  - apply dumps_dict_decodes; assumption.
Qed.

Lemma decodes_to_complete (bs : bytes) (v : value) :
  decodes_to bs v -> complete_encoding bs v.
Proof.
  intros (f0 & H). exists f0.
  apply (H f0 bs [] []); [lia|]. cbn [app]. rewrite app_nil_r. reflexivity.
Qed.

(** The encoding of a representable value is a complete encoding. *)
Lemma dumps_complete_encoding (v : value) :
  representable v = true ->
  exists bs, dumps v = Ok bs /\ complete_encoding bs v.
Proof.
  intros Hr. destruct (dumps_decodes v Hr) as (bs & E & D).
  exists bs. split; [assumption|apply decodes_to_complete, D].
Qed.

(** *** Equality of a value with itself *)

Lemma bytes_eqb_refl (s : bytes) : bytes_eqb s s = true.
Proof.
  unfold bytes_eqb. rewrite Nat.eqb_refl. cbn [andb].
  induction s as [|c s IH]; [reflexivity|].
  cbn [combine forallb fst snd]. rewrite Z.eqb_refl. exact IH.
Qed.

Lemma codes_eqb_refl (u : list Z) : codes_eqb u u = true.
Proof.
  unfold codes_eqb. rewrite Nat.eqb_refl. cbn [andb].
  induction u as [|c u IH]; [reflexivity|].
  cbn [combine forallb fst snd]. rewrite Z.eqb_refl. exact IH.
Qed.

Lemma py_eq_refl (v : value) : representable v = true -> py_eq v v = true.
Proof.
  induction v using value_nested_ind; intros Hr; try discriminate Hr.
  - reflexivity.
  - cbn [py_eq as_number number_eq]. apply Z.eqb_refl.
  - cbn [py_eq as_number number_eq]. apply Z.eqb_refl.
  - cbn [representable] in Hr. apply andb_prop in Hr. destruct Hr as [_ Hnan].
    cbn [py_eq as_number number_eq]. rewrite Hnan, Z.eqb_refl. reflexivity.
  - cbn [py_eq]. apply bytes_eqb_refl.
  - cbn [py_eq]. apply codes_eqb_refl.
  - cbn [representable] in Hr. apply andb_prop in Hr. destruct Hr as [_ Hr].
    cbn [py_eq]. induction H as [|x l Hx _ IH]; [reflexivity|].
    cbn [forallb] in Hr. apply andb_prop in Hr. destruct Hr as [Hrx Hrl].
    cbn [list_eqb]. rewrite (Hx Hrx). cbn [andb]. apply IH, Hrl.
  - cbn [representable] in Hr. apply andb_prop in Hr. destruct Hr as [Hr _].
    apply andb_prop in Hr. destruct Hr as [_ Hr].
    cbn [py_eq]. rewrite Nat.eqb_refl. cbn [andb].
    apply forallb_forall. intros kv Hin. apply existsb_exists. exists kv.
    split; [assumption|].
    rewrite Forall_forall in H. destruct (H kv Hin) as [Hk Hv].
    rewrite forallb_forall in Hr. specialize (Hr kv Hin).
    apply andb_prop in Hr. destruct Hr as [Hr Hrv].
    apply andb_prop in Hr. destruct Hr as [_ Hrk].
    rewrite (Hk Hrk), (Hv Hrv). reflexivity.
Qed.

(** ** C1: round trip *)

(** C1 (as the source has it): every value built from [None], booleans,
    integers, floats other than NaN, byte strings, text strings in which
    no high surrogate is followed at once by a low one, lists, and dicts
    with scalar keys is encoded, decoding the encoding returns that
    value, and the value compares equal to it with [==]. *)
Theorem dumps_loads_roundtrip (v : value) :
  representable v = true ->
  exists bs, dumps v = Ok bs /\ loads bs = Ok v /\ py_eq v v = true.
Proof.
  intros Hr. destruct (dumps_decodes v Hr) as (bs & E & D).
  exists bs. split; [assumption|]. split; [|apply py_eq_refl; assumption].
  destruct (decodes_to_complete D) as [fuel H].
  apply (loads_of_run _ _ H).
Qed.

Lemma dumps_loads_roundtrip_witness :
  representable roundtrip_sample = true
  /\ exists bs, dumps roundtrip_sample = Ok bs /\ loads bs = Ok roundtrip_sample
                /\ py_eq roundtrip_sample roundtrip_sample = true.
Proof.
  split; [vm_compute; reflexivity|].
  apply (dumps_loads_roundtrip roundtrip_sample). vm_compute. reflexivity.
Defined.

(** C1, as stated, fails where an array is a map key: a dict keyed by a
    tuple is encoded, and decoding the encoding raises TypeError, the key
    coming back as a list, which has no hash.  An array given as a tuple
    comes back as a list, which is not equal to it.  A text string of a
    high surrogate and a low surrogate, both of them code points, is
    written as the one character they stand for, and comes back as that
    character, a string of another length. *)
Lemma roundtrip_fails_on_array_key :
  dumps (VDict [(VTuple [VInt 1], VInt 0)]) = Ok [xa1; x81; x01; x00]
  /\ loads [xa1; x81; x01; x00] = Raise TypeError
  /\ dumps (VTuple [VInt 1]) = Ok [x81; x01]
  /\ loads [x81; x01] = Ok (VList [VInt 1])
  /\ py_eq (VList [VInt 1]) (VTuple [VInt 1]) = false
  /\ forallb code_point [0xD83D; 0xDE00] = true
  /\ dumps (VUnicode [0xD83D; 0xDE00]) = Ok [x64; xf0; x9f; x98; x80]
  /\ loads [x64; xf0; x9f; x98; x80] = Ok (VUnicode [0x1F600])
  /\ py_eq (VUnicode [0x1F600]) (VUnicode [0xD83D; 0xDE00]) = false.
Proof. repeat split; vm_compute; reflexivity. Qed.

(** ** C7: bignums *)

(** C7: an integer above 2^64-1 is written as tag 2, and one below -2^64
    as tag 3, in front of the byte string of its big-endian bytes (those
    of [-1 - n] for tag 3), and [loads] gives the integer back; the bytes
    [C2 42 01 00] decode to 256.  The length of the byte string has to fit
    its header, as the length of every string in memory does. *)
Theorem bignum_tags_roundtrip :
  (forall n, 0x0ffffffffffffffff < n ->
     let outb := _dumps_bignum_to_bytearray n in
     len outb <= 0x0ffffffffffffffff ->
     exists hd, _encode_type_num CBOR_BYTES (len outb) = Ok hd
                /\ dumps_int n = Ok (xc2 :: hd ++ outb)
                /\ bytes_to_biguint outb = n
                /\ loads (xc2 :: hd ++ outb) = Ok (VInt n))
  /\ (forall n, n <= - 2 ^ 64 - 1 ->
        let outb := _dumps_bignum_to_bytearray (-1 - n) in
        len outb <= 0x0ffffffffffffffff ->
        exists hd, _encode_type_num CBOR_BYTES (len outb) = Ok hd
                   /\ dumps_int n = Ok (xc3 :: hd ++ outb)
                   /\ bytes_to_biguint outb = -1 - n
                   /\ loads (xc3 :: hd ++ outb) = Ok (VInt n))
  /\ loads [xc2; x42; x01; x00] = Ok (VInt 256).
Proof.
  split; [|split].
  - intros n Hn outb Hlen.
    destruct (@dumps_int_big n Hn Hlen) as (hd & Hhd & E & D).
    exists hd. repeat split; try assumption.
    + apply bignum_bytes_value. lia.
    + destruct (decodes_to_complete D) as [fuel H]. apply (loads_of_run _ _ H).
  - intros n Hn outb Hlen.
    destruct (@dumps_int_negbig n) as (hd & Hhd & E & D); [lia|assumption|].
    exists hd. repeat split; try assumption.
    + apply bignum_bytes_value. lia.
    + destruct (decodes_to_complete D) as [fuel H]. apply (loads_of_run _ _ H).
  - vm_compute. reflexivity.
Qed.

Lemma bignum_tags_roundtrip_witness :
  exists hd, _encode_type_num CBOR_BYTES (len (_dumps_bignum_to_bytearray (2 ^ 64))) = Ok hd
             /\ dumps_int (2 ^ 64) = Ok (xc2 :: hd ++ _dumps_bignum_to_bytearray (2 ^ 64))
             /\ bytes_to_biguint (_dumps_bignum_to_bytearray (2 ^ 64)) = 2 ^ 64
             /\ loads (xc2 :: hd ++ _dumps_bignum_to_bytearray (2 ^ 64)) = Ok (VInt (2 ^ 64)).
Proof.
  apply (proj1 bignum_tags_roundtrip (2 ^ 64)); vm_compute; congruence.
Defined.


(** ** C3: truncated input *)

Lemma getitem_end (data : bytes) : getitem data (len data) = Raise IndexError.
Proof.
  unfold getitem. pose proof (len_nonneg data).
  rewrite (proj2 (Z.ltb_ge (len data) 0)) by lia.
  rewrite (proj2 (Z.ltb_ge (len data) (len data))) by lia.
  rewrite andb_false_r. reflexivity.
Qed.

Lemma header_shape (cbor_type aux : Z) (hd : bytes) :
  0 <= aux <= 0x0ffffffffffffffff ->
  _encode_type_num cbor_type aux = Ok hd ->
  exists info, 0 <= info <= 27
               /\ hd = chr (Z.lor cbor_type info) :: pack_be (follow_size info) aux.
Proof.
  intros Haux H. rewrite _encode_type_num_eq in H. unfold _encode_type_num_body in H.
  rewrite (proj2 (Z.ltb_ge aux 0)) in H by lia.
  rewrite !(pack_be_1 (Z.lor cbor_type _)) in H.
  destruct (aux <=? 23) eqn:E1.
  { apply Z.leb_le in E1. apply Ok_inj in H. subst hd. exists aux. split; [lia|].
    unfold follow_size. rewrite (proj2 (Z.leb_le aux 23)) by lia. reflexivity. }
  destruct (aux <=? 255); [apply Ok_inj in H; subst hd; exists 24; split; [lia|reflexivity]|].
  destruct (aux <=? 65535); [apply Ok_inj in H; subst hd; exists 25; split; [lia|reflexivity]|].
  destruct (aux <=? 4294967295);
    [apply Ok_inj in H; subst hd; exists 26; split; [lia|reflexivity]|].
  rewrite (proj2 (Z.leb_le aux 18446744073709551615)) in H by lia.
  apply Ok_inj in H. subst hd. exists 27. split; [lia|reflexivity].
Qed.

Lemma length_pack_be (n : nat) (val : Z) : length (pack_be n val) = n.
Proof. induction n; simpl; congruence. Qed.

Lemma unpack_from_short (size : nat) (pre : bytes) (c : byte) (tl : bytes) :
  (length tl < size)%nat ->
  unpack_from size (pre ++ c :: tl) (len pre + 1) = Raise StructError.
Proof.
  intros H. rewrite unpack_from_nonneg by (pose proof (len_nonneg pre); lia).
  autorewrite with len.
  rewrite (proj2 (Z.ltb_lt _ _)) by (unfold len; lia). reflexivity.
Qed.

Lemma _tag_aux_truncated (cbor_type info aux : Z) (pre tl r : bytes) :
  In cbor_type major_types -> 0 <= info <= 27 ->
  pack_be (follow_size info) aux = tl ++ r -> r <> [] ->
  _tag_aux (pre ++ chr (Z.lor cbor_type info) :: tl) (len pre)
           (VInt (ord (chr (Z.lor cbor_type info)))) = Raise StructError.
Proof.
  intros Ht Hi Hpack Hr.
  destruct (@first_byte_fields cbor_type info Ht Hi) as (F1 & F2 & _).
  rewrite _tag_aux_int_eq. cbv zeta. rewrite F1, F2.
  assert (Hlen : (length tl < follow_size info)%nat).
  { rewrite <- (length_pack_be (follow_size info) aux), Hpack, length_app.
    destruct r; [contradiction|]. simpl. lia. }
  unfold follow_size in Hlen.
  destruct (info <=? 23) eqn:E1; [simpl in Hlen; lia|].
  apply Z.leb_gt in E1.
  assert (Hc : info = 24 \/ info = 25 \/ info = 26 \/ info = 27) by lia.
  destruct Hc as [->|[->|[->| ->]]]; pick_branch;
    rewrite unpack_from_short by exact Hlen; reflexivity.
Qed.

(** A buffer that ends within a header: the first byte is missing, or a
    follow-on byte is. *)
Lemma _loads_truncated_header (fuel : nat) (cbor_type aux : Z) (hd pre p r : bytes)
    (rt : bool) :
  In cbor_type major_types -> 0 <= aux <= 0x0ffffffffffffffff ->
  _encode_type_num cbor_type aux = Ok hd ->
  hd = p ++ r -> r <> [] ->
  truncation_error (_loads (S fuel) (pre ++ p) (len pre) 0 rt).
Proof.
  intros Ht Haux Hhd Hp Hr.
  destruct (header_shape _ Haux Hhd) as (info & Hi & Hshape).
  rewrite _loads_S, _loads_body_after_header.
  change (0 >? _MAX_DEPTH) with false. cbv iota.
  destruct p as [|c tl].
  - rewrite app_nil_r, getitem_end. left. reflexivity.
  - rewrite Hshape in Hp. cbn [app] in Hp. injection Hp as Hc Hpack. subst c.
    destruct (@first_byte_fields cbor_type info Ht Hi) as (_ & _ & F16 & F32 & F64).
    rewrite getitem_app. cbn [bind]. rewrite F16, F32, F64.
    rewrite (@_tag_aux_truncated cbor_type info aux pre tl r) by assumption.
    right. reflexivity.
Qed.

Lemma _loads_at_end (fuel : nat) (data : bytes) (rt : bool) :
  _loads (S fuel) data (len data) 0 rt = Raise IndexError.
Proof.
  rewrite _loads_S, _loads_body_after_header.
  change (0 >? _MAX_DEPTH) with false. cbv iota. rewrite getitem_end. reflexivity.
Qed.

Lemma cons_inj {A : Type} (a b : A) (l m : list A) : a :: l = b :: m -> a = b /\ l = m.
Proof. intros [= -> ->]. auto. Qed.

Lemma prefix_raises_single (c : byte) : prefix_raises [c].
Proof.
  exists 1%nat. intros fuel pre p rest Hf Hp Hr.
  destruct fuel as [|fuel]; [lia|].
  destruct p as [|c' p].
  - rewrite app_nil_r, _loads_at_end. left. reflexivity.
  - exfalso. destruct p; [|discriminate Hp]. cbn [app] in Hp.
    injection Hp as _ Hp. symmetry in Hp. contradiction.
Qed.

Lemma prefix_raises_header (cbor_type aux : Z) (hd : bytes) :
  In cbor_type major_types -> 0 <= aux <= 0x0ffffffffffffffff ->
  _encode_type_num cbor_type aux = Ok hd -> prefix_raises hd.
Proof.
  intros Ht Haux Hhd. exists 1%nat. intros fuel pre p rest Hf Hp Hr.
  destruct fuel as [|fuel]; [lia|].
  apply (@_loads_truncated_header fuel cbor_type aux hd pre p rest); assumption.
Qed.

Lemma prefix_raises_Float (bits : Z) :
  prefix_raises (pack_be 1 CBOR_FLOAT64 ++ pack_be 8 bits).
Proof.
  exists 1%nat. intros fuel pre p rest Hf Hp Hr.
  destruct fuel as [|fuel]; [lia|].
  destruct p as [|c tl].
  - rewrite app_nil_r, _loads_at_end. left. reflexivity.
  - change (pack_be 1 CBOR_FLOAT64) with [xfb] in Hp. cbn [app] in Hp.
    apply cons_inj in Hp. destruct Hp as [Hc Hpack]. subst c.
    rewrite _loads_S, _loads_body_after_header.
    change (0 >? _MAX_DEPTH) with false. cbv iota.
    rewrite getitem_app. cbn [bind].
    change (ord xfb =? CBOR_FLOAT16) with false. change (ord xfb =? CBOR_FLOAT32) with false.
    change (ord xfb =? CBOR_FLOAT64) with true. cbv iota.
    rewrite unpack_from_short.
    + right. reflexivity.
    + rewrite <- (length_pack_be 8 bits), Hpack, length_app.
      destruct rest; [contradiction|]. simpl. lia.
Qed.

(** Where a cut falls in a concatenation: in the first part, or after it. *)
Lemma cut_app (a b p rest : bytes) :
  a ++ b = p ++ rest ->
  (exists r, r <> [] /\ a = p ++ r)
  \/ (exists l, p = a ++ l /\ b = l ++ rest).
Proof.
  intros H. apply app_eq_app in H. destruct H as [l [[Ha Hb]|[Hp Hb]]].
  - destruct l as [|x l].
    + right. exists []. rewrite app_nil_r in Ha. subst. split; [rewrite app_nil_r|]; reflexivity.
    + left. exists (x :: l). split; [discriminate|assumption].
  - right. exists l. auto.
Qed.

Lemma truncation_error_bind {A B : Type} (m : result A) (k : A -> result B) :
  truncation_error m -> truncation_error (bind m k).
Proof. intros [->| ->]; [left|right]; reflexivity. Qed.

Lemma array_loop_truncated (parts : list bytes) (l : list value) :
  Forall2 decodes_to parts l -> Forall prefix_raises parts ->
  exists fuel0, forall fuel pre done p rest ob,
    (fuel0 <= fuel)%nat -> concat parts = p ++ rest -> rest <> [] ->
    truncation_error (_loads_array fuel (pre ++ done ++ p) (len pre) (len l) ob (len done)).
Proof.
  induction 1 as [|part v parts l Hd _ IH]; intros Hpr.
  - exists 0%nat. intros fuel pre done p rest ob _ Hc Hr. exfalso.
    cbn [concat] in Hc. destruct p; [|discriminate]. cbn [app] in Hc.
    symmetry in Hc. contradiction.
  - inversion Hpr as [|? ? (fp & Hp) Hprs]; subst.
    destruct (IH Hprs) as (f0 & IHf). destruct Hd as (fd & Hd).
    exists (S (Nat.max (Nat.max fp fd) f0)). intros fuel pre done p rest ob Hf Hc Hr.
    destruct fuel as [|fuel]; [lia|].
    rewrite _loads_array_eq. pose proof (len_nonneg l).
    rewrite len_cons, (proj2 (Z.leb_gt (len l + 1) 0)) by lia. cbv iota.
    unfold _loads_array_turn. rewrite <- len_app.
    cbn [concat] in Hc. destruct (cut_app _ _ _ _ Hc) as [(r & Hrne & Hpart)|(q & Hpq & Hrest)].
    + apply truncation_error_bind. rewrite app_assoc.
      apply (Hp fuel (pre ++ done) p r); [lia|assumption|assumption].
    + rewrite (Hd fuel (pre ++ done ++ p) (pre ++ done) q).
      2: lia.
      2:{ rewrite Hpq, <- !app_assoc. reflexivity. }
      cbn [bind].
      replace (len l + 1 - 1) with (len l) by lia.
      replace (len done + len part) with (len (done ++ part)) by apply len_app.
      replace (pre ++ done ++ p) with (pre ++ (done ++ part) ++ q)
        by (rewrite Hpq, <- !app_assoc; reflexivity).
      apply (IHf fuel pre (done ++ part) q rest); [lia|assumption|assumption].
Qed.

Lemma map_loop_truncated (parts : list bytes) (d : list (value * value)) :
  Forall2 pair_truncates parts d ->
  forallb (fun kv => scalar (fst kv)) d = true ->
  exists fuel0, forall fuel pre done p rest ob,
    (fuel0 <= fuel)%nat -> concat parts = p ++ rest -> rest <> [] ->
    keys_distinct (ob ++ d) = true ->
    truncation_error (_loads_map fuel (pre ++ done ++ p) (len pre) (len d) ob (len done)).
Proof.
  induction 1 as [|part kv parts d Hd _ IH]; intros Hs.
  - exists 0%nat. intros fuel pre done p rest ob _ Hc Hr _. exfalso.
    cbn [concat] in Hc. destruct p; [|discriminate]. cbn [app] in Hc.
    symmetry in Hc. contradiction.
  - cbn [forallb] in Hs. apply andb_prop in Hs. destruct Hs as [Hk Hs].
    destruct (IH Hs) as (f0 & IHf).
    destruct Hd as (kb & vb & -> & (fk & Dk) & (fv & Dv) & (gk & Pk) & (gv & Pv)).
    exists (S (Nat.max (Nat.max (Nat.max fk fv) (Nat.max gk gv)) f0)).
    intros fuel pre done p rest ob Hf Hc Hr Hkeys.
    destruct fuel as [|fuel]; [lia|].
    rewrite _loads_map_eq. pose proof (len_nonneg d).
    rewrite len_cons, (proj2 (Z.leb_gt (len d + 1) 0)) by lia. cbv iota.
    unfold _loads_map_turn. rewrite <- len_app.
    cbn [concat] in Hc. rewrite <- app_assoc in Hc.
    destruct (cut_app _ _ _ _ Hc) as [(r & Hrne & Hkb)|(q & Hpq & Hrest)].
    + apply truncation_error_bind. rewrite app_assoc.
      apply (Pk fuel (pre ++ done) p r); [lia|assumption|assumption].
    + rewrite (Dk fuel (pre ++ done ++ p) (pre ++ done) q).
      2: lia.
      2:{ rewrite Hpq, <- !app_assoc. reflexivity. }
      cbn [bind]. cbv zeta.
      replace (len pre + (len done + len kb)) with (len ((pre ++ done) ++ kb))
        by (autorewrite with len; lia).
      destruct (cut_app _ _ _ _ Hrest) as [(r & Hrne & Hvb)|(q2 & Hq & Hrest2)].
      * apply truncation_error_bind.
        replace (pre ++ done ++ p) with (((pre ++ done) ++ kb) ++ q)
          by (rewrite Hpq, <- !app_assoc; reflexivity).
        apply (Pv fuel ((pre ++ done) ++ kb) q r); [lia|assumption|assumption].
      * rewrite (Dv fuel (pre ++ done ++ p) ((pre ++ done) ++ kb) q2).
        2: lia.
        2:{ rewrite Hpq, Hq, <- !app_assoc. reflexivity. }
        cbn [bind]. unfold dict_setitem. rewrite scalar_hashable by assumption.
        rewrite dict_update_new by (apply (keys_distinct_app _ _ _ Hkeys)).
        cbn [bind].
        replace (len d + 1 - 1) with (len d) by lia.
        replace (len done + len kb + len vb) with (len (done ++ kb ++ vb))
          by (autorewrite with len; lia).
        replace (pre ++ done ++ p) with (pre ++ (done ++ kb ++ vb) ++ q2)
          by (rewrite Hpq, Hq, <- !app_assoc; reflexivity).
        apply (IHf fuel pre (done ++ kb ++ vb) q2 rest); [lia|assumption|assumption|].
        rewrite <- surjective_pairing, <- app_assoc. exact Hkeys.
Qed.

Lemma map_result_prefix_raises (l : list value) (parts : list bytes) :
  Forall (fun x => representable x = true -> string_free x = true ->
                   forall bs, dumps x = Ok bs -> prefix_raises bs) l ->
  forallb representable l = true -> forallb string_free l = true ->
  map_result dumps l = Ok parts -> Forall prefix_raises parts.
Proof.
  intros H. revert parts. induction H as [|x l Hx _ IH]; intros parts Hr Hs Hm.
  - cbn [map_result] in Hm. apply Ok_inj in Hm. subst. constructor.
  - cbn [forallb] in Hr, Hs.
    apply andb_prop in Hr. destruct Hr as [Hrx Hrl].
    apply andb_prop in Hs. destruct Hs as [Hsx Hsl].
    cbn [map_result] in Hm.
    change ((fix go (l0 : list value) : result (list bytes) :=
               match l0 with
               | [] => Ok []
               | x0 :: r => y <- dumps x0;; ys <- go r;; Ok (y :: ys)
               end) l) with (map_result dumps l) in Hm.
    destruct (dumps x) as [bs| |] eqn:Ex; try discriminate Hm. cbn [bind] in Hm.
    destruct (map_result dumps l) as [ps| |] eqn:El; try discriminate Hm. cbn [bind] in Hm.
    apply Ok_inj in Hm. subst parts.
    constructor; [apply (Hx Hrx Hsx bs eq_refl)|apply IH; auto].
Qed.

Lemma Forall_dumps_decodes (l : list value) :
  (forall v, representable v = true -> exists bs, dumps v = Ok bs /\ decodes_to bs v) ->
  Forall (fun x => representable x = true ->
                   exists bs, dumps x = Ok bs /\ decodes_to bs x) l.
Proof. intros H. apply Forall_forall. intros x _. apply H. Qed.

Lemma dumps_list_prefix_raises (l : list value) :
  Forall (fun x => representable x = true -> string_free x = true ->
                   forall bs, dumps x = Ok bs -> prefix_raises bs) l ->
  representable (VList l) = true -> string_free (VList l) = true ->
  forall bs, dumps (VList l) = Ok bs -> prefix_raises bs.
Proof.
  intros IH Hr Hs bs Hbs. cbn [representable] in Hr. cbn [string_free] in Hs.
  apply andb_prop in Hr. destruct Hr as [Hlen Hr].
  apply Z.leb_le in Hlen. pose proof sys_maxint_le as M. pose proof (len_nonneg l) as Hn.
  destruct (map_result_decodes (Forall_dumps_decodes l dumps_decodes) Hr)
    as (parts & Ep & Dp).
  pose proof (map_result_prefix_raises IH Hr Hs Ep) as Pp.
  destruct (@_encode_type_num_Ok CBOR_ARRAY (len l)) as [hd Hhd]; [lia|].
  change (dumps (VList l)) with (dumps_array dumps l) in Hbs. unfold dumps_array in Hbs.
  rewrite Hhd in Hbs. cbn [bind] in Hbs. rewrite Ep in Hbs. cbn [bind] in Hbs.
  apply Ok_inj in Hbs. subst bs.
  destruct (array_loop_truncated Dp Pp) as (f0 & Hloop).
  exists (S f0). intros fuel pre p rest Hf Hp Hrest.
  destruct fuel as [|fuel]; [lia|].
  destruct (cut_app _ _ _ _ Hp) as [(r & Hrne & Hcut)|(q & Hpq & Hq)].
  - apply (@_loads_truncated_header fuel CBOR_ARRAY (len l) hd pre p r);
      [apply major_type_In; reflexivity|lia|assumption|assumption|assumption].
  - destruct (@_loads_at_header fuel CBOR_ARRAY (len l) hd q (pre ++ p) pre [] false)
      as [tb E]; [apply major_type_In; reflexivity|lia|assumption| |].
    { rewrite Hpq, app_nil_r. reflexivity. }
    rewrite E. unfold after_header. pick_branch.
    unfold xrange. destruct (len l >? sys_maxint) eqn:G; [apply Z.gtb_gt in G; lia|].
    cbn [bind]. rewrite Hpq.
    apply (Hloop fuel pre hd q rest []); [lia|assumption|assumption].
Qed.

Lemma map_result_pairs_truncates (d : list (value * value)) :
  Forall (fun kv =>
            (representable (fst kv) = true -> string_free (fst kv) = true ->
             forall bs, dumps (fst kv) = Ok bs -> prefix_raises bs)
            /\ (representable (snd kv) = true -> string_free (snd kv) = true ->
                forall bs, dumps (snd kv) = Ok bs -> prefix_raises bs)) d ->
  forallb (fun kv => scalar (fst kv) && representable (fst kv) && representable (snd kv)) d
  = true ->
  forallb (fun kv => string_free (fst kv) && string_free (snd kv)) d = true ->
  exists parts, map_result dumps_pair d = Ok parts
                /\ Forall2 pair_truncates parts d
                /\ forallb (fun kv => scalar (fst kv)) d = true.
Proof.
  induction 1 as [|kv d [Hk Hv] _ IH]; intros Hr Hs.
  - exists []. repeat split; constructor.
  - cbn [forallb] in Hr, Hs.
    apply andb_prop in Hr. destruct Hr as [Hkv Hrd].
    apply andb_prop in Hkv. destruct Hkv as [Hkv Hrv].
    apply andb_prop in Hkv. destruct Hkv as [Hsk Hrk].
    apply andb_prop in Hs. destruct Hs as [Hskv Hsd].
    apply andb_prop in Hskv. destruct Hskv as [Hfk Hfv].
    destruct (dumps_decodes _ Hrk) as (kb & Ek & Dk).
    destruct (dumps_decodes _ Hrv) as (vb & Ev & Dv).
    destruct (IH Hrd Hsd) as (parts & Ep & Dp & Sp).
    exists ((kb ++ vb) :: parts). repeat split.
    + cbn [map_result]. unfold dumps_pair at 1. rewrite Ek, Ev. cbn [bind].
      change ((fix go (l : list (value * value)) : result (list bytes) :=
                 match l with
                 | [] => Ok []
                 | x :: r => y <- dumps_pair x;; ys <- go r;; Ok (y :: ys)
                 end) d) with (map_result dumps_pair d).
      rewrite Ep. reflexivity.
    + constructor; [|assumption]. exists kb, vb.
      repeat split; try assumption; [apply (Hk Hrk Hfk kb Ek)|apply (Hv Hrv Hfv vb Ev)].
    + cbn [forallb]. rewrite Hsk, Sp. reflexivity.
Qed.

Lemma dumps_dict_prefix_raises (d : list (value * value)) :
  Forall (fun kv =>
            (representable (fst kv) = true -> string_free (fst kv) = true ->
             forall bs, dumps (fst kv) = Ok bs -> prefix_raises bs)
            /\ (representable (snd kv) = true -> string_free (snd kv) = true ->
                forall bs, dumps (snd kv) = Ok bs -> prefix_raises bs)) d ->
  representable (VDict d) = true -> string_free (VDict d) = true ->
  forall bs, dumps (VDict d) = Ok bs -> prefix_raises bs.
Proof.
  intros IH Hr Hs bs Hbs. cbn [representable] in Hr. cbn [string_free] in Hs.
  apply andb_prop in Hr. destruct Hr as [Hr Hkeys].
  apply andb_prop in Hr. destruct Hr as [Hlen Hr].
  apply Z.leb_le in Hlen. pose proof sys_maxint_le as M. pose proof (len_nonneg d) as Hn.
  destruct (map_result_pairs_truncates IH Hr Hs) as (parts & Ep & Dp & Sp).
  destruct (@_encode_type_num_Ok CBOR_MAP (len d)) as [hd Hhd]; [lia|].
  change (dumps (VDict d))
    with (head <- _encode_type_num CBOR_MAP (len d) ;;
          parts <- map_result dumps_pair d ;; Ok (head ++ concat parts)) in Hbs.
  rewrite Hhd in Hbs. cbn [bind] in Hbs. rewrite Ep in Hbs. cbn [bind] in Hbs.
  apply Ok_inj in Hbs. subst bs.
  destruct (map_loop_truncated Dp Sp) as (f0 & Hloop).
  exists (S f0). intros fuel pre p rest Hf Hp Hrest.
  destruct fuel as [|fuel]; [lia|].
  destruct (cut_app _ _ _ _ Hp) as [(r & Hrne & Hcut)|(q & Hpq & Hq)].
  - apply (@_loads_truncated_header fuel CBOR_MAP (len d) hd pre p r);
      [apply major_type_In; reflexivity|lia|assumption|assumption|assumption].
  - destruct (@_loads_at_header fuel CBOR_MAP (len d) hd q (pre ++ p) pre [] false)
      as [tb E]; [apply major_type_In; reflexivity|lia|assumption| |].
    { rewrite Hpq, app_nil_r. reflexivity. }
    rewrite E. unfold after_header. pick_branch.
    unfold xrange. destruct (len d >? sys_maxint) eqn:G; [apply Z.gtb_gt in G; lia|].
    cbn [bind]. rewrite Hpq.
    apply (Hloop fuel pre hd q rest []); [lia|assumption|assumption|assumption].
Qed.

(** The encoding of a representable value that holds no string raises
    an IndexError or a struct.error when cut short. *)
Lemma dumps_prefix_raises (v : value) :
  representable v = true -> string_free v = true ->
  forall bs, dumps v = Ok bs -> prefix_raises bs.
Proof.
  induction v using value_nested_ind; intros Hr Hs bs Hbs;
    try discriminate Hr; try discriminate Hs.
  - cbn [dumps] in Hbs. apply Ok_inj in Hbs. subst. apply (prefix_raises_single xf6).
  - destruct b; cbn [dumps dumps_bool] in Hbs; apply Ok_inj in Hbs; subst.
    + apply (prefix_raises_single xf5).
    + apply (prefix_raises_single xf4).
  - cbn [string_free] in Hs. apply andb_prop in Hs. destruct Hs as [Hlo Hhi].
    apply Z.leb_le in Hlo. apply Z.leb_le in Hhi. cbn [dumps] in Hbs.
    destruct (Z_le_gt_dec 0 z) as [Hpos|Hneg].
    + rewrite dumps_int_nonneg_eq in Hbs by lia.
      apply (@prefix_raises_header CBOR_UINT z);
        [apply major_type_In; reflexivity|lia|assumption].
    + unfold dumps_int in Hbs.
      destruct (z >=? 0) eqn:G; [apply Z.geb_le in G; lia|]. cbv zeta in Hbs.
      apply (@prefix_raises_header CBOR_NEGINT (-1 - z));
        [apply major_type_In; reflexivity|lia|assumption].
  - cbn [dumps dumps_float] in Hbs. apply Ok_inj in Hbs. subst.
    apply prefix_raises_Float.
  - eapply dumps_list_prefix_raises; eassumption.
  - eapply dumps_dict_prefix_raises; eassumption.
Qed.

(** An exception raised with enough fuel is the one [loads] raises. *)
Lemma loads_of_raise (fuel : nat) (data : bytes) (e : exn) :
  _loads fuel data 0 0 false = Raise e -> loads data = Raise e.
Proof.
  intros H. unfold loads.
  assert (Ht : terminates (_loads (loads_fuel data) data 0 0 false)).
  { apply _loads_terminates; [lia|]. unfold remaining, loads_fuel, len. lia. }
  set (big := Nat.max fuel (loads_fuel data)).
  assert (Hle1 : (fuel <= big)%nat) by (unfold big; lia).
  assert (Hle2 : (loads_fuel data <= big)%nat) by (unfold big; lia).
  destruct (proj1 (_loads_mono Hle1) data 0 0 false) as [E1|E1]; [congruence|].
  destruct (proj1 (_loads_mono Hle2) data 0 0 false) as [E2|E2]; [contradiction|].
  rewrite E2, <- E1, H. reflexivity.
Qed.

(** C3 (as the source has it): decoding a proper prefix of a complete
    encoding, whichever way the encoding was made, never ends within the
    prefix.  Either an exception is raised, or a value is returned with a
    count of bytes read that exceeds the length of the prefix; the second
    happens when the cut falls in the payload of a string, which is
    sliced without a check.  When the encoding is the encoder's own, of a
    value that holds no string, the prefix always raises, an IndexError
    or a struct.error. *)
Theorem loads_truncated (v : value) (bs p rest : bytes) :
  complete_encoding bs v -> bs = p ++ rest -> rest <> [] ->
  ((exists e, loads p = Raise e)
   \/ (exists v' n, _loads (loads_fuel p) p 0 0 false = Ok (v', n)
                    /\ len p < n /\ loads p = Ok v'))
  /\ (representable v = true -> string_free v = true -> dumps v = Ok bs ->
      loads p = Raise IndexError \/ loads p = Raise StructError).
Proof.
  intros [fuel H] Hp Hrest. split.
  - subst bs.
    destruct (_loads (loads_fuel p) p 0 0 false) as [[v' n]|e|] eqn:E.
    + right. exists v', n. split; [reflexivity|].
      split; [|unfold loads; rewrite E; reflexivity].
      destruct (Z_lt_ge_dec (len p) n) as [|Hle]; [assumption|exfalso].
      assert (Hext : _loads (loads_fuel p) (p ++ rest) 0 0 false = Ok (v', n))
        by (apply _loads_ext; [lia|lia|exact E]).
      set (big := Nat.max fuel (loads_fuel p)).
      assert (H1 : _loads big (p ++ rest) 0 0 false = Ok (v, len (p ++ rest)))
        by (apply (@_loads_more_fuel fuel big); [unfold big; lia|exact H]).
      assert (H2 : _loads big (p ++ rest) 0 0 false = Ok (v', n))
        by (apply (@_loads_more_fuel (loads_fuel p) big); [unfold big; lia|exact Hext]).
      rewrite H1 in H2. injection H2 as _ Hn. rewrite len_app in Hn.
      destruct rest; [contradiction|]. rewrite len_cons in Hn.
      pose proof (len_nonneg rest). lia.
    + left. exists e. unfold loads. rewrite E. reflexivity.
    + assert (Ht : terminates (_loads (loads_fuel p) p 0 0 false)).
      { apply _loads_terminates; [lia|]. unfold remaining, loads_fuel, len. lia. }
      contradiction.
  - intros Hr Hs Hbs. destruct (dumps_prefix_raises v Hr Hs Hbs) as (f0 & H0).
    destruct (H0 f0 [] p rest (le_n f0) Hp Hrest) as [E|E]; cbn [app] in E;
      rewrite len_nil in E; [left|right]; apply (loads_of_raise _ _ E).
Qed.

Lemma loads_truncated_witness :
  ((exists e, loads [x82; x01] = Raise e)
   \/ (exists v' n, _loads (loads_fuel [x82; x01]) [x82; x01] 0 0 false = Ok (v', n)
                    /\ len [x82; x01] < n /\ loads [x82; x01] = Ok v'))
  /\ (representable (VList [VInt 1; VInt 2]) = true ->
      string_free (VList [VInt 1; VInt 2]) = true ->
      dumps (VList [VInt 1; VInt 2]) = Ok [x82; x01; x02] ->
      loads [x82; x01] = Raise IndexError \/ loads [x82; x01] = Raise StructError).
Proof.
  apply (@loads_truncated (VList [VInt 1; VInt 2]) [x82; x01; x02] [x82; x01] [x02]).
  - exists 5%nat. vm_compute. reflexivity.
  - reflexivity.
  - discriminate.
Defined.

(** C3, as stated, fails: the one-byte prefix of the encoding of the byte
    string [b'a'] decodes to the empty byte string. *)
Lemma loads_truncated_string_returns :
  dumps (VStr [x61]) = Ok ([x41] ++ [x61])
  /\ complete_encoding ([x41] ++ [x61]) (VStr [x61])
  /\ loads [x41] = Ok (VStr [])
  /\ _loads (loads_fuel [x41]) [x41] 0 0 false = Ok (VStr [], 2).
Proof.
  split; [vm_compute; reflexivity|].
  split; [exists 5%nat; vm_compute; reflexivity|].
  split; vm_compute; reflexivity.
Qed.

(** * Further properties of the codec *)

(** ** Decoding at an offset *)

Lemma getitem_shift (pre data : bytes) (i : Z) :
  0 <= i -> getitem (pre ++ data) (len pre + i) = getitem data i.
Proof.
  intros Hi. unfold getitem. cbv zeta.
  pose proof (len_nonneg pre). pose proof (len_nonneg data).
  rewrite (proj2 (Z.ltb_ge (len pre + i) 0)) by lia.
  rewrite (proj2 (Z.ltb_ge i 0)) by lia.
  rewrite len_app, (proj2 (Z.leb_le 0 (len pre + i))), (proj2 (Z.leb_le 0 i)) by lia.
  cbn [andb].
  destruct (i <? len data) eqn:E.
  - apply Z.ltb_lt in E. rewrite (proj2 (Z.ltb_lt _ _)) by lia.
    rewrite nth_error_app2 by (unfold len; lia).
    replace (Z.to_nat (len pre + i) - length pre)%nat with (Z.to_nat i) by (unfold len; lia).
    reflexivity.
  - apply Z.ltb_ge in E. rewrite (proj2 (Z.ltb_ge _ _)) by lia. reflexivity.
Qed.

Lemma skipn_shift (pre data : bytes) (i : Z) :
  0 <= i -> skipn (Z.to_nat (len pre + i)) (pre ++ data) = skipn (Z.to_nat i) data.
Proof.
  intros Hi.
  replace (Z.to_nat (len pre + i)) with (length pre + Z.to_nat i)%nat by (unfold len; lia).
  rewrite skipn_app, skipn_all2 by lia.
  replace (length pre + Z.to_nat i - length pre)%nat with (Z.to_nat i) by lia.
  reflexivity.
Qed.

Lemma unpack_from_shift (size : nat) (pre data : bytes) (i : Z) :
  0 <= i -> unpack_from size (pre ++ data) (len pre + i) = unpack_from size data i.
Proof.
  intros Hi. rewrite !unpack_from_nonneg by (pose proof (len_nonneg pre); lia).
  rewrite len_app.
  replace (len pre + len data - (len pre + i)) with (len data - i) by lia.
  rewrite skipn_shift by assumption. reflexivity.
Qed.

Lemma slice_shift (pre data : bytes) (lo n : Z) :
  0 <= lo -> 0 <= n ->
  slice (pre ++ data) (len pre + lo) (len pre + lo + n) = slice data lo (lo + n).
Proof.
  intros Hlo Hn. pose proof (len_nonneg pre).
  rewrite !slice_nonneg by lia. rewrite skipn_shift by assumption.
  replace (len pre + lo + n - (len pre + lo)) with (lo + n - lo) by lia. reflexivity.
Qed.

Lemma _tag_aux_shift (pre data : bytes) (offset : Z) (tb : value) :
  0 <= offset -> _tag_aux (pre ++ data) (len pre + offset) tb = _tag_aux data offset tb.
Proof.
  intros Hoff. unfold _tag_aux.
  destruct (py_and tb CBOR_TYPE_MASK) as [tag| |]; [|reflexivity|reflexivity].
  destruct (py_and tb CBOR_INFO_BITS) as [tag_aux| |]; [|reflexivity|reflexivity].
  cbn [bind]. rewrite <- !Z.add_assoc. rewrite !unpack_from_shift by lia. reflexivity.
Qed.

(** One turn of the chunk loop is all there is: the byte read is a
    [str], which [_tag_aux] cannot mask. *)
Lemma loads_bytes_chunks_S (fuel : nat) (data : bytes) (offset btag : Z)
    (chunklist : list bytes) (total : Z) :
  loads_bytes_chunks (S fuel) data offset btag chunklist total
  = (c <- getitem data (offset + total) ;; Raise TypeError).
Proof.
  cbn [loads_bytes_chunks].
  destruct (getitem data (offset + total)); reflexivity.
Qed.

Lemma loads_bytes_shift (fuel : nat) (pre data : bytes) (offset : Z) (aux : option Z)
    (btag : Z) :
  0 <= offset -> match aux with Some a => 0 <= a | None => True end ->
  loads_bytes fuel (pre ++ data) (len pre + offset) aux btag
  = loads_bytes fuel data offset aux btag.
Proof.
  intros Hoff Ha. destruct aux as [a|]; cbn [loads_bytes].
  - rewrite slice_shift by assumption. reflexivity.
  - destruct fuel; [reflexivity|]. rewrite !loads_bytes_chunks_S.
    rewrite <- Z.add_assoc, getitem_shift by lia. reflexivity.
Qed.

Section BodyShift.
Variable self : bytes -> Z -> Z -> bool -> result (value * Z).
Variable array_loop : bytes -> Z -> Z -> list value -> Z -> result (value * Z).
Variable map_loop : bytes -> Z -> Z -> list (value * value) -> Z -> result (value * Z).
Variable fuel : nat.
Variable pre : bytes.
Hypothesis Pself : forall data offset d rt v n,
  0 <= offset -> self data offset d rt = Ok (v, n) -> offset < len data /\ 1 <= n.
Hypothesis Sself : forall data offset d rt,
  0 <= offset -> self (pre ++ data) (len pre + offset) d rt = self data offset d rt.
Hypothesis Sarray : forall data offset k ob br,
  0 <= offset -> 0 <= br ->
  array_loop (pre ++ data) (len pre + offset) k ob br = array_loop data offset k ob br.
Hypothesis Smap : forall data offset k ob br,
  0 <= offset -> 0 <= br ->
  map_loop (pre ++ data) (len pre + offset) k ob br = map_loop data offset k ob br.

Lemma _loads_body_shift (data : bytes) (offset depth : Z) (rt : bool) :
  0 <= offset ->
  _loads_body self array_loop map_loop (loads_bytes fuel) (pre ++ data) (len pre + offset)
              depth rt
  = _loads_body self array_loop map_loop (loads_bytes fuel) data offset depth rt.
Proof.
  intros Hoff. rewrite !_loads_body_after_header.
  destruct (depth >? _MAX_DEPTH); [reflexivity|].
  rewrite getitem_shift by lia.
  destruct (getitem data offset) as [c| |]; [|reflexivity|reflexivity]. cbn [bind].
  pose proof (ord_range c) as Hord.
  rewrite <- !Z.add_assoc. rewrite !unpack_from_shift by lia.
  destruct (ord c =? CBOR_FLOAT16); [reflexivity|].
  destruct (ord c =? CBOR_FLOAT32); [reflexivity|].
  destruct (ord c =? CBOR_FLOAT64); [reflexivity|].
  rewrite _tag_aux_shift by lia.
  destruct (_tag_aux data offset (VInt (ord c))) as [[[[tag ta] aux] br]| |] eqn:E;
    [|reflexivity|reflexivity].
  cbn [bind fst snd]. apply _tag_aux_Ok in E; [|lia|lia].
  unfold after_header. rewrite <- !Z.add_assoc.
  rewrite !loads_bytes_shift by (try lia; apply E). rewrite !Sself by lia.
  repeat match goal with
         | |- (if ?b then _ else _) = (if ?b then _ else _) => destruct b; [try reflexivity|]
         end; try reflexivity.
  - destruct (xrange aux); cbn [bind]; [apply Sarray; lia|reflexivity|reflexivity].
  - destruct (xrange aux); cbn [bind]; [apply Smap; lia|reflexivity|reflexivity].
Qed.

Lemma _loads_array_turn_shift (data : bytes) (offset k : Z) (ob : list value) (br : Z) :
  0 <= offset -> 0 <= br ->
  _loads_array_turn self array_loop (pre ++ data) (len pre + offset) k ob br
  = _loads_array_turn self array_loop data offset k ob br.
Proof.
  intros Hoff Hbr. unfold _loads_array_turn. rewrite <- Z.add_assoc, Sself by lia.
  destruct (self data (offset + br) 0 false) as [[subob subpos]| |] eqn:E;
    [|reflexivity|reflexivity].
  cbn [bind]. apply Pself in E; [|lia]. apply Sarray; lia.
Qed.

Lemma _loads_map_turn_shift (data : bytes) (offset k : Z) (ob : list (value * value))
    (br : Z) :
  0 <= offset -> 0 <= br ->
  _loads_map_turn self map_loop (pre ++ data) (len pre + offset) k ob br
  = _loads_map_turn self map_loop data offset k ob br.
Proof.
  intros Hoff Hbr. unfold _loads_map_turn. rewrite <- Z.add_assoc, Sself by lia.
  destruct (self data (offset + br) 0 false) as [[subk subpos]| |] eqn:E;
    [|reflexivity|reflexivity].
  cbn [bind]. cbv zeta. apply Pself in E; [|lia].
  rewrite <- Z.add_assoc, Sself by lia.
  destruct (self data (offset + (br + subpos)) 0 false) as [[subv subpos']| |] eqn:E';
    [|reflexivity|reflexivity].
  cbn [bind]. apply Pself in E'; [|lia].
  destruct (dict_setitem ob subk subv); cbn [bind]; [apply Smap; lia|reflexivity|reflexivity].
Qed.
End BodyShift.

(** What is in front of the offset is not looked at. *)
Lemma _loads_shift (pre : bytes) (fuel : nat) :
  (forall data offset d rt,
     0 <= offset ->
     _loads fuel (pre ++ data) (len pre + offset) d rt = _loads fuel data offset d rt)
  /\ (forall data offset k ob br,
        0 <= offset -> 0 <= br ->
        _loads_array fuel (pre ++ data) (len pre + offset) k ob br
        = _loads_array fuel data offset k ob br)
  /\ (forall data offset k ob br,
        0 <= offset -> 0 <= br ->
        _loads_map fuel (pre ++ data) (len pre + offset) k ob br
        = _loads_map fuel data offset k ob br).
Proof.
  induction fuel as [|fuel (IHl & IHa & IHm)].
  - repeat split; intros; rewrite ?_loads_array_eq, ?_loads_map_eq; reflexivity.
  - pose proof (_loads_progress fuel) as (Pl & _ & _).
    split; [|split].
    + intros * Hoff. rewrite !_loads_S. apply _loads_body_shift; auto.
    + intros * Hoff Hbr. rewrite !_loads_array_eq.
      destruct (k <=? 0); [reflexivity|]. apply _loads_array_turn_shift; auto.
    + intros * Hoff Hbr. rewrite !_loads_map_eq.
      destruct (k <=? 0); [reflexivity|]. apply _loads_map_turn_shift; auto.
Qed.

(** A result reached with some fuel is the result with the fuel [loads]
    gives, or more. *)
Lemma _loads_decided (fuel fuel' : nat) (data : bytes) (offset d : Z) (rt : bool)
    (r : value * Z) :
  0 <= offset -> (loads_fuel data <= fuel)%nat ->
  _loads fuel' data offset d rt = Ok r -> _loads fuel data offset d rt = Ok r.
Proof.
  intros Hoff Hf H.
  assert (Ht : terminates (_loads fuel data offset d rt)).
  { apply _loads_terminates; [assumption|].
    unfold remaining, loads_fuel, len in *. lia. }
  set (big := Nat.max fuel fuel').
  assert (Hle1 : (fuel <= big)%nat) by (unfold big; lia).
  assert (Hle2 : (fuel' <= big)%nat) by (unfold big; lia).
  pose proof (_loads_more_fuel _ _ _ _ Hle2 H) as H1.
  destruct (proj1 (_loads_mono Hle1) data offset d rt) as [E|E]; [contradiction|].
  rewrite E. exact H1.
Qed.

(** With the fuel [loads] gives, or more, the fuel does not matter. *)
Lemma _loads_fuel_irrelevant (fuel : nat) (data : bytes) (offset d : Z) (rt : bool) :
  0 <= offset -> (loads_fuel data <= fuel)%nat ->
  terminates (_loads fuel data offset d rt)
  /\ _loads fuel data offset d rt = _loads (loads_fuel data) data offset d rt.
Proof.
  intros Hoff Hf.
  assert (Ht : forall f, (loads_fuel data <= f)%nat ->
                         terminates (_loads f data offset d rt)).
  { intros f Hle. apply _loads_terminates; [assumption|].
    unfold remaining, loads_fuel, len in *. lia. }
  split; [apply Ht, Hf|].
  destruct (proj1 (_loads_mono Hf) data offset d rt) as [E|E].
  - exfalso. apply (Ht (loads_fuel data)); [lia|exact E].
  - symmetry. exact E.
Qed.

(** X1: [_loads] halts on every buffer, at every offset from 0 on, at
    every depth and with or without [returntags]: with the fuel [loads]
    gives, or more, the embedding never runs out, and the outcome (the
    value and the count of bytes read, or the exception) is the same
    whatever the fuel.  So [loads] returns or raises on every buffer. *)
Theorem _loads_halts (fuel : nat) (data : bytes) (offset depth : Z) (returntags : bool) :
  0 <= offset -> (loads_fuel data <= fuel)%nat ->
  _loads fuel data offset depth returntags <> OutOfFuel
  /\ _loads fuel data offset depth returntags
     = _loads (loads_fuel data) data offset depth returntags
  /\ loads data <> OutOfFuel.
Proof.
  intros Hoff Hf.
  destruct (@_loads_fuel_irrelevant fuel data offset depth returntags Hoff Hf) as [Ht E].
  split; [exact Ht|]. split; [exact E|apply loads_terminates].
Qed.

Lemma _loads_halts_witness :
  0 <= 1 /\ (loads_fuel [x82; x01] <= 9)%nat
  /\ _loads 9 [x82; x01] 1 0 true <> OutOfFuel
  /\ _loads 9 [x82; x01] 1 0 true = _loads (loads_fuel [x82; x01]) [x82; x01] 1 0 true
  /\ loads [x82; x01] <> OutOfFuel.
Proof.
  split; [lia|]. split; [vm_compute; lia|].
  apply (@_loads_halts 9 [x82; x01] 1 0 true); [lia|vm_compute; lia].
Defined.

(** X2: a call of [_loads] that returns found a byte at its offset, and
    reports at least one byte as read: a caller that walks a buffer item
    by item always moves forward. *)
Theorem _loads_reads_a_byte (fuel : nat) (data : bytes) (offset depth : Z)
    (returntags : bool) (ob : value) (bytes_read : Z) :
  0 <= offset ->
  _loads fuel data offset depth returntags = Ok (ob, bytes_read) ->
  offset < len data /\ 1 <= bytes_read.
Proof.
  intros Hoff H. exact (proj1 (_loads_progress fuel) _ _ _ _ _ _ Hoff H).
Qed.

Lemma _loads_reads_a_byte_witness :
  0 <= 1 /\ _loads 3 [x00; x81; x05] 1 0 false = Ok (VList [VInt 5], 2)
  /\ 1 < len [x00; x81; x05] /\ 1 <= 2.
Proof.
  assert (H : _loads 3 [x00; x81; x05] 1 0 false = Ok (VList [VInt 5], 2))
    by (vm_compute; reflexivity).
  split; [lia|]. split; [exact H|].
  apply (@_loads_reads_a_byte 3 [x00; x81; x05] 1 0 false (VList [VInt 5]) 2);
    [lia|exact H].
Defined.

(** X3: [_loads] at an offset does not look at what is in front of it:
    decoding at [offset] past a prefix gives what decoding the rest of
    the buffer at [offset] gives, the same value and count of bytes read,
    or the same exception. *)
Theorem _loads_offset_invariant (pre data : bytes) (fuel : nat) (offset depth : Z)
    (returntags : bool) :
  0 <= offset ->
  _loads fuel (pre ++ data) (len pre + offset) depth returntags
  = _loads fuel data offset depth returntags.
Proof.
  intros Hoff. apply _loads_shift, Hoff.
Qed.

Lemma _loads_offset_invariant_witness :
  0 <= 1
  /\ _loads 5 ([xff; x00] ++ [x00; x82; x01; x02]) (len [xff; x00] + 1) 0 false
     = _loads 5 [x00; x82; x01; x02] 1 0 false.
Proof.
  split; [lia|].
  apply (@_loads_offset_invariant [xff; x00] [x00; x82; x01; x02] 5 1 0 false). lia.
Defined.

(** X4: in a buffer made of the encodings of values put end to end,
    [_loads] at the offset where the encoding of [v] starts returns [v]
    and the length of that encoding, so the next item starts right after
    it. *)
Theorem loads_concatenated (before : list value) (v : value) (after : list value) :
  forallb representable (before ++ v :: after) = true ->
  exists pb bs pa,
    map_result dumps before = Ok pb /\ dumps v = Ok bs /\ map_result dumps after = Ok pa
    /\ forall fuel,
         (loads_fuel (concat pb ++ bs ++ concat pa) <= fuel)%nat ->
         _loads fuel (concat pb ++ bs ++ concat pa) (len (concat pb)) 0 false
         = Ok (v, len bs).
Proof.
  intros Hr. rewrite forallb_app in Hr. apply andb_prop in Hr. destruct Hr as [Hb Hr].
  cbn [forallb] in Hr. apply andb_prop in Hr. destruct Hr as [Hv Ha].
  destruct (map_result_decodes (Forall_dumps_decodes before dumps_decodes) Hb)
    as (pb & Eb & _).
  destruct (map_result_decodes (Forall_dumps_decodes after dumps_decodes) Ha)
    as (pa & Ea & _).
  destruct (dumps_decodes v Hv) as (bs & E & (f0 & D)).
  exists pb, bs, pa. repeat split; try assumption.
  intros fuel Hf.
  apply (@_loads_decided fuel f0); [apply len_nonneg|assumption|].
  apply (D f0 _ (concat pb) (concat pa)); [lia|reflexivity].
Qed.

Lemma loads_concatenated_witness :
  exists pb bs pa,
    map_result dumps [VInt 1000; VStr [x61]] = Ok pb
    /\ dumps (VList [VNone; VInt (-1)]) = Ok bs
    /\ map_result dumps [VBool true] = Ok pa
    /\ forall fuel,
         (loads_fuel (concat pb ++ bs ++ concat pa) <= fuel)%nat ->
         _loads fuel (concat pb ++ bs ++ concat pa) (len (concat pb)) 0 false
         = Ok (VList [VNone; VInt (-1)], len bs).
Proof.
  apply (@loads_concatenated [VInt 1000; VStr [x61]] (VList [VNone; VInt (-1)])
                             [VBool true]).
  vm_compute. reflexivity.
Defined.

(** X5: no encoding is a proper prefix of another one, and two values
    with the same encoding are the same value: if the encoding of [v1]
    is the start of the encoding of [v2] then [v1] is [v2] and nothing
    follows. *)
Theorem dumps_prefix_free (v1 v2 : value) (b1 rest : bytes) :
  representable v1 = true -> representable v2 = true ->
  dumps v1 = Ok b1 -> dumps v2 = Ok (b1 ++ rest) ->
  v1 = v2 /\ rest = [].
Proof.
  intros H1 H2 E1 E2.
  destruct (dumps_decodes v1 H1) as (b & E & (f1 & D1)).
  rewrite E1 in E. apply Ok_inj in E. subst b.
  destruct (dumps_decodes v2 H2) as (b & E & (f2 & D2)).
  rewrite E2 in E. apply Ok_inj in E. subst b.
  specialize (D1 (Nat.max f1 f2) (b1 ++ rest) [] rest ltac:(lia) eq_refl).
  specialize (D2 (Nat.max f1 f2) (b1 ++ rest) [] [] ltac:(lia)).
  rewrite D1 in D2.
  assert (Heq : Ok (v1, len b1) = Ok (v2, len (b1 ++ rest)) :> result (value * Z)).
  { apply D2. cbn [app]. rewrite app_nil_r. reflexivity. }
  apply Ok_inj in Heq. injection Heq as Hv Hl. split; [assumption|].
  rewrite len_app in Hl. destruct rest; [reflexivity|].
  rewrite len_cons in Hl. pose proof (len_nonneg rest). lia.
Qed.

Lemma dumps_prefix_free_witness :
  dumps (VInt 24) = Ok [x18; x18] /\ dumps (VInt 24) = Ok ([x18; x18] ++ [])
  /\ VInt 24 = VInt 24 /\ [] = @nil byte.
Proof.
  split; [reflexivity|]. split; [reflexivity|].
  apply (@dumps_prefix_free (VInt 24) (VInt 24) [x18; x18] []);
    vm_compute; reflexivity.
Defined.

(** ** What the encoder accepts *)

Lemma _encode_type_num_outcome (cbor_type n : Z) :
  0 <= n -> cbor_type <> CBOR_NEGINT ->
  if fits_header n
  then exists info, 0 <= info <= 27
                    /\ _encode_type_num cbor_type n
                       = Ok (chr (Z.lor cbor_type info) :: pack_be (follow_size info) n)
  else 0x0ffffffffffffffff < n /\ _encode_type_num cbor_type n = Raise (ValueTooBig n).
Proof.
  intros Hn Ht. unfold fits_header. destruct (n <=? 0x0ffffffffffffffff) eqn:E.
  - apply Z.leb_le in E.
    destruct (@_encode_type_num_Ok cbor_type n) as [hd Hhd]; [lia|].
    destruct (@header_shape cbor_type n hd) as (info & Hi & ->); [lia|assumption|].
    exists info. auto.
  - apply Z.leb_gt in E. split; [assumption|].
    rewrite _encode_type_num_eq. unfold _encode_type_num_body.
    rewrite (proj2 (Z.ltb_ge n 0)) by lia.
    rewrite (proj2 (Z.leb_gt n 23)) by lia. rewrite (proj2 (Z.leb_gt n 255)) by lia.
    rewrite (proj2 (Z.leb_gt n 65535)) by lia.
    rewrite (proj2 (Z.leb_gt n 4294967295)) by lia.
    rewrite (proj2 (Z.leb_gt n 18446744073709551615)) by lia.
    rewrite (proj2 (Z.eqb_neq cbor_type CBOR_NEGINT)) by assumption. reflexivity.
Qed.

Lemma header_major_type (cbor_type info : Z) :
  In cbor_type major_types -> 0 <= info <= 27 ->
  Z.land (ord (chr (Z.lor cbor_type info))) CBOR_TYPE_MASK = cbor_type.
Proof.
  intros Ht Hi. exact (proj1 (@first_byte_fields cbor_type info Ht Hi)).
Qed.

Lemma encoder_failure_too_big (n : Z) :
  0x0ffffffffffffffff < n -> encoder_failure (ValueTooBig n).
Proof. intros H. right. eauto. Qed.

(** The header of a string or of a container, and what follows it. *)
Lemma dumps_outcome_header {A : Type} (v : value) (cbor_type n : Z) (m : result A)
    (g : A -> bytes) :
  0 <= n -> In cbor_type major_types -> cbor_type <> CBOR_NEGINT ->
  encoded_major_type v = cbor_type ->
  (if fits_header n
   then if serializable v then exists a, m = Ok a
        else exists e, m = Raise e /\ encoder_failure e
   else serializable v = false) ->
  dumps_outcome v (hd <- _encode_type_num cbor_type n ;; parts <- m ;; Ok (hd ++ g parts)).
Proof.
  intros Hn Ht Hneg Hm H. unfold dumps_outcome.
  pose proof (@_encode_type_num_outcome cbor_type n Hn Hneg) as E.
  destruct (fits_header n).
  - destruct E as (info & Hi & ->). cbn [bind].
    destruct (serializable v).
    + destruct H as [tl ->]. cbn [bind app]. eexists _, _. split; [reflexivity|].
      rewrite Hm. apply header_major_type; assumption.
    + destruct H as (e & -> & He). exists e. split; [reflexivity|assumption].
  - destruct E as (Hbig & ->). rewrite H. cbn [bind].
    eexists. split; [reflexivity|apply encoder_failure_too_big, Hbig].
Qed.

Lemma dumps_int_outcome (z : Z) : dumps_outcome (VInt z) (dumps_int z).
Proof.
  unfold dumps_outcome. cbn [serializable encoded_major_type]. cbv zeta.
  pose proof (len_nonneg (_dumps_bignum_to_bytearray (if z >=? 0 then z else -1 - z))) as Hl.
  destruct (z >=? 0) eqn:G.
  - apply Z.geb_le in G. unfold fits_header at 1 3.
    destruct (z <=? 0x0ffffffffffffffff) eqn:E; cbn [orb].
    + apply Z.leb_le in E. rewrite dumps_int_nonneg_eq by lia.
      pose proof (@_encode_type_num_outcome CBOR_UINT z G ltac:(discriminate)) as H.
      unfold fits_header in H. rewrite (proj2 (Z.leb_le _ _)) in H by lia.
      destruct H as (info & Hi & ->). eexists _, _. split; [reflexivity|].
      apply header_major_type; [apply major_type_In; reflexivity|assumption].
    + apply Z.leb_gt in E.
      assert (Hd : dumps_int z
                   = (hd <- _encode_type_num CBOR_BYTES (len (_dumps_bignum_to_bytearray z)) ;;
                      Ok (chr (Z.lor CBOR_TAG CBOR_TAG_BIGNUM) :: hd
                          ++ _dumps_bignum_to_bytearray z))).
      { unfold dumps_int. rewrite (proj2 (Z.geb_le z 0)) by lia.
        rewrite (proj2 (Z.leb_gt z 23)) by lia. rewrite (proj2 (Z.leb_gt z 255)) by lia.
        rewrite (proj2 (Z.leb_gt z 65535)) by lia.
        rewrite (proj2 (Z.leb_gt z 4294967295)) by lia.
        rewrite (proj2 (Z.leb_gt z 18446744073709551615)) by lia. reflexivity. }
      rewrite Hd.
      pose proof (@_encode_type_num_outcome CBOR_BYTES _ Hl ltac:(discriminate)) as H.
      destruct (fits_header (len (_dumps_bignum_to_bytearray z))).
      * destruct H as (info & _ & ->). cbn [bind]. eexists _, _. split; reflexivity.
      * destruct H as (Hbig & ->). cbn [bind].
        eexists. split; [reflexivity|apply encoder_failure_too_big, Hbig].
  - assert (Hneg : z < 0).
    { destruct (Z_lt_ge_dec z 0); [assumption|].
      rewrite (proj2 (Z.geb_le z 0)) in G by lia. discriminate. }
    unfold dumps_int. rewrite G. cbv zeta. unfold fits_header at 1 3.
    destruct (-1 - z <=? 0x0ffffffffffffffff) eqn:E; cbn [orb].
    + apply Z.leb_le in E.
      destruct (@_encode_type_num_Ok CBOR_NEGINT (-1 - z)) as [hd Hhd]; [lia|].
      destruct (@header_shape CBOR_NEGINT (-1 - z) hd) as (info & Hi & ->);
        [lia|assumption|].
      rewrite Hhd. eexists _, _. split; [reflexivity|].
      apply header_major_type; [apply major_type_In; reflexivity|assumption].
    + apply Z.leb_gt in E.
      rewrite _encode_type_num_eq. unfold _encode_type_num_body.
      rewrite (proj2 (Z.ltb_ge (-1 - z) 0)) by lia.
      rewrite (proj2 (Z.leb_gt (-1 - z) 23)) by lia.
      rewrite (proj2 (Z.leb_gt (-1 - z) 255)) by lia.
      rewrite (proj2 (Z.leb_gt (-1 - z) 65535)) by lia.
      rewrite (proj2 (Z.leb_gt (-1 - z) 4294967295)) by lia.
      rewrite (proj2 (Z.leb_gt (-1 - z) 18446744073709551615)) by lia.
      change (negb (CBOR_NEGINT =? CBOR_NEGINT)) with false. cbv iota zeta.
      pose proof (@_encode_type_num_outcome CBOR_BYTES _ Hl ltac:(discriminate)) as H.
      destruct (fits_header (len (_dumps_bignum_to_bytearray (-1 - z)))).
      * destruct H as (info & _ & ->). cbn [bind]. eexists _, _. split; reflexivity.
      * destruct H as (Hbig & ->). cbn [bind].
        eexists. split; [reflexivity|apply encoder_failure_too_big, Hbig].
Qed.

Lemma map_result_cons {A B : Type} (f : A -> result B) (x : A) (l : list A) :
  map_result f (x :: l) = (y <- f x ;; ys <- map_result f l ;; Ok (y :: ys)).
Proof. reflexivity. Qed.

Lemma map_result_outcome {A : Type} (f : A -> result bytes) (ok : A -> bool) (l : list A) :
  Forall (fun x => if ok x then exists bs, f x = Ok bs
                   else exists e, f x = Raise e /\ encoder_failure e) l ->
  if forallb ok l then exists parts, map_result f l = Ok parts
  else exists e, map_result f l = Raise e /\ encoder_failure e.
Proof.
  induction 1 as [|x l Hx _ IH]; [exists []; reflexivity|].
  cbn [forallb]. rewrite map_result_cons.
  destruct (ok x); cbn [andb].
  - destruct Hx as [bs ->]. cbn [bind].
    destruct (forallb ok l).
    + destruct IH as [parts ->]. eexists. reflexivity.
    + destruct IH as (e & -> & He). exists e. split; [reflexivity|assumption].
  - destruct Hx as (e & -> & He). exists e. split; [reflexivity|assumption].
Qed.

Lemma dumps_outcome_Ok (v : value) :
  dumps_outcome v (dumps v) ->
  if serializable v then exists bs, dumps v = Ok bs
  else exists e, dumps v = Raise e /\ encoder_failure e.
Proof.
  unfold dumps_outcome. destruct (serializable v); [|auto].
  intros (c & tl & -> & _). eauto.
Qed.

Lemma dumps_array_outcome (v : value) (l : list value) :
  encoded_major_type v = CBOR_ARRAY ->
  serializable v = fits_header (len l) && forallb serializable l ->
  Forall (fun x => dumps_outcome x (dumps x)) l ->
  dumps_outcome v (dumps_array dumps l).
Proof.
  intros Hm Hs H. unfold dumps_array.
  apply (@dumps_outcome_header _ v CBOR_ARRAY (len l) (map_result dumps l) (@concat byte));
    [apply len_nonneg|apply major_type_In; reflexivity|discriminate|assumption|].
  rewrite Hs. destruct (fits_header (len l)); [|reflexivity]. cbn [andb].
  assert (H' : Forall (fun x => if serializable x then exists bs, dumps x = Ok bs
                                else exists e, dumps x = Raise e /\ encoder_failure e) l).
  { eapply Forall_impl; [|exact H]. intros x. apply dumps_outcome_Ok. }
  pose proof (map_result_outcome dumps serializable H') as R.
  destruct (forallb serializable l).
  - destruct R as [parts ->]. eexists. reflexivity.
  - destruct R as (e & -> & He). exists e. split; [reflexivity|assumption].
Qed.

Lemma dumps_dict_outcome (d : list (value * value)) :
  Forall (fun kv => dumps_outcome (fst kv) (dumps (fst kv))
                    /\ dumps_outcome (snd kv) (dumps (snd kv))) d ->
  dumps_outcome (VDict d) (dumps_dict dumps d).
Proof.
  intros H. unfold dumps_dict.
  apply (@dumps_outcome_header _ (VDict d) CBOR_MAP (len d) _ (@concat byte));
    [apply len_nonneg|apply major_type_In; reflexivity|discriminate|reflexivity|].
  cbn [serializable]. destruct (fits_header (len d)); [|reflexivity]. cbn [andb].
  apply (map_result_outcome _ (fun kv => serializable (fst kv) && serializable (snd kv))).
  eapply Forall_impl; [|exact H]. intros [k w] [Hk Hw]. cbn [fst snd] in *.
  apply dumps_outcome_Ok in Hk. apply dumps_outcome_Ok in Hw.
  destruct (serializable k); cbn [andb].
  - destruct Hk as [kb ->]. cbn [bind].
    destruct (serializable w).
    + destruct Hw as [wb ->]. eexists. reflexivity.
    + destruct Hw as (e & -> & He). exists e. split; [reflexivity|assumption].
  - destruct Hk as (e & -> & He). exists e. split; [reflexivity|assumption].
Qed.

Lemma dumps_string_outcome (v : value) (cbor_type : Z) (val : bytes) :
  In cbor_type major_types -> cbor_type <> CBOR_NEGINT ->
  encoded_major_type v = cbor_type -> serializable v = fits_header (len val) ->
  dumps_outcome v (hd <- _encode_type_num cbor_type (len val) ;; Ok (hd ++ val)).
Proof.
  intros Ht Hneg Hm Hs.
  apply (@dumps_outcome_header unit v cbor_type (len val) (Ok tt) (fun _ => val));
    [apply len_nonneg|assumption|assumption|assumption|].
  rewrite Hs. destruct (fits_header (len val)); [|reflexivity]. exists tt. reflexivity.
Qed.

Lemma dumps_outcome_all (v : value) : dumps_outcome v (dumps v).
Proof.
  induction v using value_nested_ind.
  - exists xf6, []. split; reflexivity.
  - destruct b; [exists xf5, []|exists xf4, []]; split; reflexivity.
  - apply dumps_int_outcome.
  - unfold dumps_outcome. cbn [serializable dumps]. unfold dumps_float.
    exists xfb, (pack_be 8 bits). split; reflexivity.
  - cbn [dumps]. unfold dumps_string. cbn [bind orb negb].
    apply dumps_string_outcome;
      [apply major_type_In; reflexivity|discriminate|reflexivity|reflexivity].
  - cbn [dumps]. unfold dumps_string. cbn [bind orb negb].
    apply dumps_string_outcome;
      [apply major_type_In; reflexivity|discriminate|reflexivity|reflexivity].
  - apply dumps_array_outcome; [reflexivity|reflexivity|assumption].
  - apply dumps_array_outcome; [reflexivity|reflexivity|assumption].
  - apply dumps_dict_outcome. assumption.
  - exists DontKnowHowToSerialize. split; [reflexivity|left; reflexivity].
  - exists DontKnowHowToSerialize. split; [reflexivity|left; reflexivity].
  - exists DontKnowHowToSerialize. split; [reflexivity|left; reflexivity].
Qed.

(** X6: [dumps] returns a non-empty byte string exactly on the values
    built from [None], booleans, integers, floats, byte and text strings,
    lists, tuples and dicts (whatever the keys), with lengths that fit a
    64-bit header.  On every other value it raises: the "don't know how
    to cbor serialize" exception when a [Tag], datetime or regex object
    is met first, the "value too big" exception when a length beyond 64
    bits is. *)
Theorem dumps_succeeds_iff_serializable (v : value) :
  if serializable v then exists bs, dumps v = Ok bs /\ bs <> []
  else exists e, dumps v = Raise e /\ encoder_failure e.
Proof.
  pose proof (dumps_outcome_all v) as H. unfold dumps_outcome in H.
  destruct (serializable v); [|exact H].
  destruct H as (c & tl & -> & _). eexists. split; [reflexivity|discriminate].
Qed.

(** X7: the first byte [dumps] writes carries the major type of the
    value: 0 or 1 for an integer within 64 bits, by its sign, and 6 (a
    tag) beyond; 2 for a [str], 3 for a [unicode], 4 for a list or tuple,
    5 for a dict, 7 for [None], booleans and floats. *)
Theorem dumps_first_byte (v : value) (bs : bytes) :
  dumps v = Ok bs ->
  exists c rest, bs = c :: rest /\ Z.land (ord c) CBOR_TYPE_MASK = encoded_major_type v.
Proof.
  intros E. pose proof (dumps_outcome_all v) as H. unfold dumps_outcome in H.
  destruct (serializable v).
  - destruct H as (c & tl & E' & Hm). rewrite E in E'. apply Ok_inj in E'. eauto.
  - destruct H as (e & E' & _). rewrite E in E'. discriminate.
Qed.

Lemma dumps_first_byte_witness :
  exists c rest, [x63; x61; xc3; xa9] = c :: rest
                 /\ Z.land (ord c) CBOR_TYPE_MASK = encoded_major_type (VUnicode [0x61; 0xE9]).
Proof.
  apply (@dumps_first_byte (VUnicode [0x61; 0xE9]) [x63; x61; xc3; xa9]). reflexivity.
Defined.

(** ** Headers *)

(** X8: for each of the seven major types with an auxiliary value and
    every auxiliary value within 64 bits, [_encode_type_num] writes a
    header of the minimal length, and [_tag_aux] reads it back, wherever
    it sits in a buffer: the major type, the auxiliary value, and the
    length of the header as the count of bytes read. *)
Theorem header_written_is_read (cbor_type aux : Z) (pre post : bytes) :
  In cbor_type major_types -> 0 <= aux <= 0x0ffffffffffffffff ->
  exists hd c tl tag_aux,
    _encode_type_num cbor_type aux = Ok hd /\ hd = c :: tl
    /\ Some (length hd) = minimal_header_length aux
    /\ _tag_aux (pre ++ hd ++ post) (len pre) (VInt (ord c))
       = Ok (cbor_type, tag_aux, Some aux, len hd).
Proof.
  intros Ht Haux.
  destruct (@_encode_type_num_length cbor_type aux Haux) as (hd & E & L).
  destruct (@header_roundtrip cbor_type aux hd pre post Ht Haux E)
    as (c & tl & tag_aux & Hhd & _ & _ & _ & R).
  exists hd, c, tl, tag_aux. auto.
Qed.

Lemma header_written_is_read_witness :
  exists hd c tl tag_aux,
    _encode_type_num CBOR_MAP 500 = Ok hd /\ hd = c :: tl
    /\ Some (length hd) = minimal_header_length 500
    /\ _tag_aux ([x00] ++ hd ++ [xff]) (len [x00]) (VInt (ord c))
       = Ok (CBOR_MAP, tag_aux, Some 500, len hd).
Proof.
  apply (@header_written_is_read CBOR_MAP 500 [x00] [xff]);
    [apply major_type_In; reflexivity|lia].
Defined.

Lemma follow_size_wide (info : Z) :
  24 <= info <= 27 ->
  (info = CBOR_UINT8_FOLLOWS /\ follow_size info = 1%nat)
  \/ (info = CBOR_UINT16_FOLLOWS /\ follow_size info = 2%nat)
  \/ (info = CBOR_UINT32_FOLLOWS /\ follow_size info = 4%nat)
  \/ (info = CBOR_UINT64_FOLLOWS /\ follow_size info = 8%nat).
Proof.
  intros H.
  assert (Hc : info = 24 \/ info = 25 \/ info = 26 \/ info = 27) by lia.
  destruct Hc as [->|[->|[->| ->]]]; auto 6.
Qed.

(** Decoding at a header whose auxiliary value is in follow-on bytes,
    whether or not it needed them. *)
Lemma _loads_wide_header (fuel : nat) (cbor_type info val : Z) (rest : bytes) (rt : bool) :
  In cbor_type major_types -> 24 <= info <= 27 ->
  0 <= val < 256 ^ Z.of_nat (follow_size info) ->
  let data := chr (Z.lor cbor_type info) :: pack_be (follow_size info) val ++ rest in
  _loads (S fuel) data 0 0 rt
  = after_header (_loads fuel) (_loads_array fuel) (_loads_map fuel) (loads_bytes fuel)
                 data 0 rt (ord (chr (Z.lor cbor_type info))) cbor_type (Some val)
                 (1 + Z.of_nat (follow_size info)).
Proof.
  intros Ht Hi Hval data.
  destruct (@first_byte_fields cbor_type info Ht ltac:(lia)) as (F1 & F2 & F16 & F32 & F64).
  rewrite _loads_S, _loads_body_after_header.
  change (0 >? _MAX_DEPTH) with false. cbv iota.
  unfold data at 1. rewrite getitem_cons_0. cbn [bind]. rewrite F16, F32, F64.
  rewrite _tag_aux_int_eq. cbv zeta. rewrite F1, F2.
  pose proof (@unpack_from_field (follow_size info) [] (chr (Z.lor cbor_type info)) val rest
                                 Hval) as U.
  cbn [app] in U. change (len [] + 1) with (0 + 1) in U. fold data in U.
  destruct (follow_size_wide Hi) as [[-> S]|[[-> S]|[[-> S]| [-> S]]]];
    rewrite S in *; pick_branch; rewrite U; reflexivity.
Qed.

(** X9: the decoder does not ask for the shortest header.  An auxiliary
    value written in 1, 2, 4 or 8 follow-on bytes is accepted even when
    fewer would hold it: as a non-negative integer, as a negative
    integer, and as the length of a byte string. *)
Theorem loads_accepts_wide_headers (info val : Z) (rest : bytes) :
  24 <= info <= 27 -> 0 <= val < 256 ^ Z.of_nat (follow_size info) ->
  loads (chr (Z.lor CBOR_UINT info) :: pack_be (follow_size info) val ++ rest)
  = Ok (VInt val)
  /\ loads (chr (Z.lor CBOR_NEGINT info) :: pack_be (follow_size info) val ++ rest)
     = Ok (VInt (-1 - val))
  /\ (forall raw, len raw = val ->
        loads (chr (Z.lor CBOR_BYTES info) :: pack_be (follow_size info) val ++ raw ++ rest)
        = Ok (VStr raw)).
Proof.
  intros Hi Hval. split; [|split].
  - apply (@loads_of_run 1 _ _ (1 + Z.of_nat (follow_size info))).
    rewrite (@_loads_wide_header 0 CBOR_UINT info val rest false);
      [|apply major_type_In; reflexivity|assumption|assumption].
    reflexivity.
  - apply (@loads_of_run 1 _ _ (1 + Z.of_nat (follow_size info))).
    rewrite (@_loads_wide_header 0 CBOR_NEGINT info val rest false);
      [|apply major_type_In; reflexivity|assumption|assumption].
    reflexivity.
  - intros raw Hraw.
    apply (@loads_of_run 1 _ _ (1 + Z.of_nat (follow_size info) + val)).
    rewrite (@_loads_wide_header 0 CBOR_BYTES info val (raw ++ rest) false);
      [|apply major_type_In; reflexivity|assumption|assumption].
    unfold after_header. pick_branch. cbn [loads_bytes bind].
    set (hd := chr (Z.lor CBOR_BYTES info) :: pack_be (follow_size info) val).
    assert (Hhd : len hd = 1 + Z.of_nat (follow_size info))
      by (unfold hd; rewrite len_cons, len_pack_be; lia).
    assert (Hdata : chr (Z.lor CBOR_BYTES info) :: pack_be (follow_size info) val
                    ++ raw ++ rest = [] ++ (hd ++ raw) ++ rest)
      by (unfold hd; cbn [app]; rewrite <- app_assoc; reflexivity).
    pose proof (@slice_at _ [] hd raw rest Hdata) as S.
    rewrite len_nil, Hhd, Hraw in S. rewrite S. reflexivity.
Qed.

Lemma loads_accepts_wide_headers_witness :
  24 <= 27 <= 27 /\ 0 <= 1 < 256 ^ Z.of_nat (follow_size 27)
  /\ loads (chr (Z.lor CBOR_UINT 27) :: pack_be (follow_size 27) 1 ++ [xff]) = Ok (VInt 1)
  /\ loads (chr (Z.lor CBOR_NEGINT 27) :: pack_be (follow_size 27) 1 ++ [xff])
     = Ok (VInt (-1 - 1))
  /\ (forall raw, len raw = 1 ->
        loads (chr (Z.lor CBOR_BYTES 27) :: pack_be (follow_size 27) 1 ++ raw ++ [xff])
        = Ok (VStr raw)).
Proof.
  split; [lia|]. split; [simpl; lia|].
  apply (@loads_accepts_wide_headers 27 1 [xff]); [lia|simpl; lia].
Defined.

(** X10: a first byte whose low five bits are 28, 29 or 30 fails the
    "bogus tag" assertion of [_tag_aux], in every major type and whatever
    follows. *)
Theorem loads_reserved_info_bits (c : byte) (rest : bytes) :
  28 <= Z.land (ord c) CBOR_INFO_BITS <= 30 ->
  loads (c :: rest) = Raise (BogusTag (Z.land (ord c) CBOR_INFO_BITS)).
Proof.
  intros H. apply (@loads_of_raise 1).
  rewrite _loads_S, _loads_body_after_header.
  change (0 >? _MAX_DEPTH) with false. cbv iota.
  rewrite getitem_cons_0. cbn [bind].
  destruct (ord c =? CBOR_FLOAT16) eqn:F16;
    [apply Z.eqb_eq in F16; rewrite F16 in H;
     change (Z.land CBOR_FLOAT16 CBOR_INFO_BITS) with 25 in H; lia|].
  destruct (ord c =? CBOR_FLOAT32) eqn:F32;
    [apply Z.eqb_eq in F32; rewrite F32 in H;
     change (Z.land CBOR_FLOAT32 CBOR_INFO_BITS) with 26 in H; lia|].
  destruct (ord c =? CBOR_FLOAT64) eqn:F64;
    [apply Z.eqb_eq in F64; rewrite F64 in H;
     change (Z.land CBOR_FLOAT64 CBOR_INFO_BITS) with 27 in H; lia|].
  rewrite _tag_aux_int_eq. cbv zeta.
  set (ta := Z.land (ord c) CBOR_INFO_BITS) in *.
  rewrite (proj2 (Z.leb_gt ta 23)) by lia.
  rewrite (proj2 (Z.eqb_neq ta CBOR_UINT8_FOLLOWS)) by (unfold CBOR_UINT8_FOLLOWS; lia).
  rewrite (proj2 (Z.eqb_neq ta CBOR_UINT16_FOLLOWS)) by (unfold CBOR_UINT16_FOLLOWS; lia).
  rewrite (proj2 (Z.eqb_neq ta CBOR_UINT32_FOLLOWS)) by (unfold CBOR_UINT32_FOLLOWS; lia).
  rewrite (proj2 (Z.eqb_neq ta CBOR_UINT64_FOLLOWS)) by (unfold CBOR_UINT64_FOLLOWS; lia).
  rewrite (proj2 (Z.eqb_neq ta CBOR_VAR_FOLLOWS)) by (unfold CBOR_VAR_FOLLOWS; lia).
  reflexivity.
Qed.

Lemma loads_reserved_info_bits_witness :
  28 <= Z.land (ord x9c) CBOR_INFO_BITS <= 30
  /\ loads (x9c :: [x01; x02]) = Raise (BogusTag (Z.land (ord x9c) CBOR_INFO_BITS)).
Proof.
  split; [vm_compute; split; discriminate|].
  apply (@loads_reserved_info_bits x9c [x01; x02]). vm_compute. split; discriminate.
Defined.

Lemma tagify_None (ob : value) : tagify ob None = Ok ob.
Proof. reflexivity. Qed.

(** X11: the indefinite-length marker (low five bits 31) outside
    strings.  On an unsigned integer it decodes to [None]; on a negative
    integer, an array or a map it raises TypeError ([-1 - None],
    [xrange(None)]); on a tag the tagged item is decoded and returned as
    it is, as if the tag byte were not there. *)
Theorem loads_indefinite_marker :
  (forall rest, loads (x1f :: rest) = Ok VNone)
  /\ (forall rest, loads (x3f :: rest) = Raise TypeError)
  /\ (forall rest, loads (x9f :: rest) = Raise TypeError)
  /\ (forall rest, loads (xbf :: rest) = Raise TypeError)
  /\ (forall rest, loads (xdf :: rest) = loads rest).
Proof.
  repeat split; intros rest; try (rewrite loads_cons; reflexivity).
  unfold loads at 1. rewrite loads_fuel_S, _loads_S, _loads_body_after_header.
  change (0 >? _MAX_DEPTH) with false. cbv iota.
  rewrite getitem_cons_0. cbn [bind].
  change (_tag_aux (xdf :: rest) 0 (VInt (ord xdf))) with (@Ok (Z * Z * option Z * Z) (CBOR_TAG, 31, None, 1)).
  change (ord xdf =? CBOR_FLOAT16) with false. change (ord xdf =? CBOR_FLOAT32) with false.
  change (ord xdf =? CBOR_FLOAT64) with false. cbv iota. cbn [bind fst snd].
  unfold after_header. pick_branch.
  change (xdf :: rest) with ([xdf] ++ rest). change (0 + 1) with (len [xdf] + 0).
  rewrite (proj1 (_loads_shift [xdf] _)) by lia.
  rewrite (proj2 (@_loads_fuel_irrelevant (2 * length ([xdf] ++ rest)) rest 0 0 false
                                          ltac:(lia) ltac:(unfold loads_fuel; simpl; lia))).
  unfold loads.
  destruct (_loads (loads_fuel rest) rest 0 0 false) as [[ob n]| |]; reflexivity.
Qed.

(** ** Reading past the end *)

Lemma getitem_past_end (data : bytes) (i : Z) :
  len data <= i -> getitem data i = Raise IndexError.
Proof.
  intros H. unfold getitem. cbv zeta. pose proof (len_nonneg data).
  rewrite (proj2 (Z.ltb_ge i 0)) by lia.
  rewrite (proj2 (Z.ltb_ge i (len data))) by lia.
  rewrite andb_false_r. reflexivity.
Qed.

(** X12: decoding at an offset at or past the end of the buffer raises
    IndexError; in particular [loads] of the empty buffer does. *)
Theorem _loads_past_end (fuel : nat) (data : bytes) (offset depth : Z) (returntags : bool) :
  len data <= offset -> depth <= _MAX_DEPTH ->
  _loads (S fuel) data offset depth returntags = Raise IndexError
  /\ (offset = 0 -> loads data = Raise IndexError).
Proof.
  intros Hoff Hd.
  assert (H : forall f rt, _loads (S f) data offset depth rt = Raise IndexError).
  { intros f rt. rewrite _loads_S, _loads_body_after_header.
    destruct (depth >? _MAX_DEPTH) eqn:G; [apply Z.gtb_gt in G; lia|].
    rewrite getitem_past_end by assumption. reflexivity. }
  split; [apply H|].
  intros ->. destruct data as [|c data]; [reflexivity|].
  rewrite len_cons in Hoff. pose proof (len_nonneg data). lia.
Qed.

Lemma _loads_past_end_witness :
  len [x01] <= 1 /\ 0 <= _MAX_DEPTH
  /\ _loads 1 [x01] 1 0 false = Raise IndexError
  /\ (1 = 0 -> loads [x01] = Raise IndexError).
Proof.
  split; [vm_compute; discriminate|]. split; [vm_compute; discriminate|].
  apply (@_loads_past_end 0 [x01] 1 0 false); vm_compute; discriminate.
Defined.

(** ** Maps *)

(** The map loop assigns the pairs in the order they come. *)
Lemma map_loop_assigns (parts : list bytes) (rest : list (value * value)) :
  Forall2 pair_decodes_to parts rest ->
  forallb (fun kv => scalar (fst kv)) rest = true ->
  exists fuel0, forall fuel data pre done post ob,
    (fuel0 <= fuel)%nat -> data = pre ++ (done ++ concat parts) ++ post ->
    _loads_map fuel data (len pre) (len rest) ob (len done)
    = Ok (VDict (fold_left (fun ob kv => dict_update ob (fst kv) (snd kv)) rest ob),
          len done + len (concat parts)).
Proof.
  induction 1 as [|p kv parts rest Hd _ IH]; intros Hs.
  - exists 0%nat. intros fuel data pre done post ob _ _.
    rewrite _loads_map_eq. change (len [] <=? 0) with true. cbv iota.
    cbn [concat fold_left]. rewrite len_nil, Z.add_0_r. reflexivity.
  - cbn [forallb] in Hs. apply andb_prop in Hs. destruct Hs as [Hk Hs].
    destruct (IH Hs) as (f0 & IHf).
    destruct Hd as (kb & vb & -> & (fk & Dk) & (fv & Dv)).
    exists (S (Nat.max (Nat.max fk fv) f0)). intros fuel data pre done post ob Hf Hdata.
    destruct fuel as [|fuel]; [lia|].
    rewrite _loads_map_eq. pose proof (len_nonneg rest).
    rewrite len_cons, (proj2 (Z.leb_gt (len rest + 1) 0)) by lia. cbv iota.
    unfold _loads_map_turn. rewrite <- len_app.
    rewrite (Dk fuel data (pre ++ done) (vb ++ concat parts ++ post)).
    2: lia.
    2:{ rewrite Hdata. cbn [concat]. rewrite <- !app_assoc. reflexivity. }
    cbn [bind]. cbv zeta.
    replace (len pre + (len done + len kb)) with (len ((pre ++ done) ++ kb))
      by (autorewrite with len; lia).
    rewrite (Dv fuel data ((pre ++ done) ++ kb) (concat parts ++ post)).
    2: lia.
    2:{ rewrite Hdata. cbn [concat]. rewrite <- !app_assoc. reflexivity. }
    cbn [bind]. unfold dict_setitem. rewrite scalar_hashable by assumption.
    cbn [bind fold_left].
    replace (len rest + 1 - 1) with (len rest) by lia.
    replace (len done + len kb + len vb) with (len (done ++ kb ++ vb))
      by (autorewrite with len; lia).
    rewrite (IHf fuel data pre (done ++ kb ++ vb) post).
    + cbn [concat]. autorewrite with len. f_equal. f_equal. lia.
    + lia.
    + rewrite Hdata. cbn [concat]. rewrite <- !app_assoc. reflexivity.
Qed.

Lemma Forall_pairs_decode (d : list (value * value)) :
  Forall (fun kv =>
            (representable (fst kv) = true ->
             exists bs, dumps (fst kv) = Ok bs /\ decodes_to bs (fst kv))
            /\ (representable (snd kv) = true ->
                exists bs, dumps (snd kv) = Ok bs /\ decodes_to bs (snd kv))) d.
Proof. apply Forall_forall. intros kv _. split; apply dumps_decodes. Qed.

(** X13: a map is decoded by assigning its pairs in the order they
    come: when two keys of the encoding are equal ([1] and [1.0], say)
    the decoded dict has one entry for them, with the first of the keys
    and the last of the values, and no error is raised.  Stated for
    scalar keys. *)
Theorem loads_map_assigns_in_order (d : list (value * value)) :
  len d <= sys_maxint ->
  forallb (fun kv => scalar (fst kv) && representable (fst kv) && representable (snd kv)) d
  = true ->
  exists hd parts,
    _encode_type_num CBOR_MAP (len d) = Ok hd /\ map_result dumps_pair d = Ok parts
    /\ loads (hd ++ concat parts) = Ok (VDict (dict_of_pairs d)).
Proof.
  intros Hlen Hr. pose proof sys_maxint_le as M. pose proof (len_nonneg d) as Hn.
  destruct (map_result_pairs_decodes (Forall_pairs_decode d) Hr) as (parts & Ep & Dp & Sp).
  destruct (@_encode_type_num_Ok CBOR_MAP (len d)) as [hd Hhd]; [lia|].
  exists hd, parts. split; [assumption|]. split; [assumption|].
  destruct (map_loop_assigns Dp Sp) as (f0 & Hloop).
  apply (@loads_of_run (S f0) _ _ (len (hd ++ concat parts))).
  destruct (@_loads_at_header f0 CBOR_MAP (len d) hd (concat parts) (hd ++ concat parts)
                              [] [] false)
    as [tb E]; [apply major_type_In; reflexivity|lia|assumption| |].
  { cbn [app]. rewrite app_nil_r. reflexivity. }
  change (_loads (S f0) (hd ++ concat parts) 0 0 false)
    with (_loads (S f0) (hd ++ concat parts) (len (@nil byte)) 0 false).
  rewrite E. unfold after_header. pick_branch.
  unfold xrange. destruct (len d >? sys_maxint) eqn:G; [apply Z.gtb_gt in G; lia|].
  cbn [bind].
  rewrite (Hloop f0 (hd ++ concat parts) [] hd [] []); [|lia|].
  - rewrite len_app. reflexivity.
  - cbn [app]. rewrite app_nil_r. reflexivity.
Qed.

Lemma loads_map_assigns_in_order_witness :
  exists hd parts,
    _encode_type_num CBOR_MAP (len [(VInt 1, VStr [x61]); (VFloat 0x3FF0000000000000, VStr [x62])])
    = Ok hd
    /\ map_result dumps_pair [(VInt 1, VStr [x61]); (VFloat 0x3FF0000000000000, VStr [x62])]
       = Ok parts
    /\ loads (hd ++ concat parts) = Ok (VDict [(VInt 1, VStr [x62])]).
Proof.
  apply (@loads_map_assigns_in_order
           [(VInt 1, VStr [x61]); (VFloat 0x3FF0000000000000, VStr [x62])]);
    vm_compute; congruence.
Defined.

(** ** What the decoder builds *)

Lemma decoder_made_tagify (ob : value) (aux : option Z) (v : value) :
  decoder_made ob = true -> tagify ob aux = Ok v -> decoder_made v = true.
Proof.
  intros Hob H. unfold tagify in H.
  repeat invert_run H; try (apply Ok_inj in H; subst v; try reflexivity; assumption).
  - unfold utcfromtimestamp in H. destruct (as_number ob); [|discriminate].
    apply Ok_inj in H. subst v. exact Hob.
  - unfold re_compile in H.
    destruct ob; try discriminate H; apply Ok_inj in H; subst v; exact Hob.
Qed.

Lemma decoder_made_dict_update (ob : list (value * value)) (k v : value) :
  forallb (fun kv => hashable (fst kv) && decoder_made (fst kv) && decoder_made (snd kv)) ob
  = true ->
  hashable k = true -> decoder_made k = true -> decoder_made v = true ->
  forallb (fun kv => hashable (fst kv) && decoder_made (fst kv) && decoder_made (snd kv))
          (dict_update ob k v) = true.
Proof.
  intros Hob Hh Hk Hv. induction ob as [|[k' v'] ob IH].
  - cbn [dict_update forallb fst snd]. rewrite Hh, Hk, Hv. reflexivity.
  - cbn [forallb fst snd] in Hob. apply andb_prop in Hob. destruct Hob as [Hkv Hob].
    apply andb_prop in Hkv. destruct Hkv as [Hkv Hv'].
    cbn [dict_update]. destruct (py_eq k' k); cbn [forallb fst snd].
    + rewrite Hkv, Hv, Hob. reflexivity.
    + rewrite Hkv, Hv', (IH Hob). reflexivity.
Qed.

Section BodyMade.
Variable self : bytes -> Z -> Z -> bool -> result (value * Z).
Variable array_loop : bytes -> Z -> Z -> list value -> Z -> result (value * Z).
Variable map_loop : bytes -> Z -> Z -> list (value * value) -> Z -> result (value * Z).
Variable fuel : nat.
Hypothesis Hself : forall data offset d v n,
  self data offset d false = Ok (v, n) -> decoder_made v = true.
Hypothesis Harray : forall data offset k ob br v n,
  forallb decoder_made ob = true ->
  array_loop data offset k ob br = Ok (v, n) -> decoder_made v = true.
Hypothesis Hmap : forall data offset k ob br v n,
  forallb (fun kv => hashable (fst kv) && decoder_made (fst kv) && decoder_made (snd kv)) ob
  = true ->
  map_loop data offset k ob br = Ok (v, n) -> decoder_made v = true.

Lemma _loads_body_made (data : bytes) (offset depth : Z) (v : value) (n : Z) :
  _loads_body self array_loop map_loop (loads_bytes fuel) data offset depth false = Ok (v, n) ->
  decoder_made v = true.
Proof.
  intros H. unfold _loads_body in H.
  repeat invert_run H;
    lazymatch type of H with
    | Ok _ = Ok _ => injection H as <- <-
    | _ => idtac
    end;
    try reflexivity;
    try match goal with
        | |- decoder_made (match ?o with Some _ => _ | None => _ end) = true =>
            destruct o; reflexivity
        end.
  - eapply Harray; [|exact H]. reflexivity.
  - eapply Hmap; [|exact H]. reflexivity.
  - match goal with E : self _ _ _ _ = Ok _ |- _ => apply Hself in E end.
    eapply decoder_made_tagify; eassumption.
Qed.

Lemma _loads_array_turn_made (data : bytes) (offset k : Z) (ob : list value) (br : Z)
    (v : value) (n : Z) :
  forallb decoder_made ob = true ->
  _loads_array_turn self array_loop data offset k ob br = Ok (v, n) -> decoder_made v = true.
Proof.
  intros Hob H. unfold _loads_array_turn in H.
  repeat invert_run H.
  match goal with E : self _ _ _ _ = Ok _ |- _ => apply Hself in E; rename E into Hs end.
  eapply Harray; [|exact H].
  rewrite forallb_app, Hob. cbn [forallb]. rewrite Hs. reflexivity.
Qed.

Lemma _loads_map_turn_made (data : bytes) (offset k : Z) (ob : list (value * value))
    (br : Z) (v : value) (n : Z) :
  forallb (fun kv => hashable (fst kv) && decoder_made (fst kv) && decoder_made (snd kv)) ob
  = true ->
  _loads_map_turn self map_loop data offset k ob br = Ok (v, n) -> decoder_made v = true.
Proof.
  intros Hob H. unfold _loads_map_turn in H.
  invert_run H. invert_run H.
  match goal with E : self _ _ _ _ = Ok _ |- _ => apply Hself in E; rename E into Hk end.
  invert_run H. invert_run H.
  match goal with E : self _ _ _ _ = Ok _ |- _ => apply Hself in E; rename E into Hv end.
  invert_run H.
  match goal with E : dict_setitem _ _ _ = Ok _ |- _ => unfold dict_setitem in E;
    rename E into Hset end.
  destruct (hashable _) eqn:Hh; [|discriminate Hset]. apply Ok_inj in Hset. subst.
  eapply Hmap; [|exact H].
  apply decoder_made_dict_update; assumption.
Qed.
End BodyMade.

Lemma _loads_made (fuel : nat) :
  (forall data offset d v n,
     _loads fuel data offset d false = Ok (v, n) -> decoder_made v = true)
  /\ (forall data offset k ob br v n,
        forallb decoder_made ob = true ->
        _loads_array fuel data offset k ob br = Ok (v, n) -> decoder_made v = true)
  /\ (forall data offset k ob br v n,
        forallb (fun kv => hashable (fst kv) && decoder_made (fst kv)
                           && decoder_made (snd kv)) ob = true ->
        _loads_map fuel data offset k ob br = Ok (v, n) -> decoder_made v = true).
Proof.
  induction fuel as [|fuel (IHl & IHa & IHm)].
  - repeat split; try discriminate; intros * Hob H.
    + rewrite _loads_array_eq in H. destruct (k <=? 0); [|discriminate].
      injection H as <- _. exact Hob.
    + rewrite _loads_map_eq in H. destruct (k <=? 0); [|discriminate].
      injection H as <- _. exact Hob.
  - split; [|split].
    + intros * H. rewrite _loads_S in H. eapply _loads_body_made; eauto.
    + intros * Hob H. rewrite _loads_array_eq in H.
      destruct (k <=? 0); [injection H as <- _; exact Hob|]. cbv iota in H.
      eapply _loads_array_turn_made; [| |exact Hob|exact H]; assumption.
    + intros * Hob H. rewrite _loads_map_eq in H.
      destruct (k <=? 0); [injection H as <- _; exact Hob|]. cbv iota in H.
      eapply _loads_map_turn_made; [| |exact Hob|exact H]; assumption.
Qed.

(** X14: whatever [loads] returns holds no tuple and no [Tag] anywhere
    (arrays come back as lists, and [returntags] is not set by [loads]
    or by a nested call), and every key of a dict in it has a hash. *)
Theorem loads_result_shape (data : bytes) (v : value) :
  loads data = Ok v -> decoder_made v = true.
Proof.
  unfold loads. intros H.
  destruct (_loads (loads_fuel data) data 0 0 false) as [[ob n]| |] eqn:E;
    [|discriminate H|discriminate H].
  cbn [bind] in H. apply Ok_inj in H. subst ob.
  exact (proj1 (_loads_made (loads_fuel data)) _ _ _ _ _ E).
Qed.

Lemma loads_result_shape_witness :
  loads [xa1; xc1; x01; x82; xc3; x41; xff; xd8; x23; x61; x61]
  = Ok (VDict [(VDatetime (VInt 1), VList [VInt (-256); VRegex (VUnicode [0x61])])])
  /\ decoder_made (VDict [(VDatetime (VInt 1), VList [VInt (-256); VRegex (VUnicode [0x61])])])
     = true.
Proof.
  assert (H : loads [xa1; xc1; x01; x82; xc3; x41; xff; xd8; x23; x61; x61]
              = Ok (VDict [(VDatetime (VInt 1),
                            VList [VInt (-256); VRegex (VUnicode [0x61])])]))
    by (vm_compute; reflexivity).
  split; [exact H|]. apply (loads_result_shape _ H).
Defined.

(** ** Tuples *)

(** X15: a tuple is encoded as the list of the same items is, and comes
    back as that list, which is not equal to the tuple. *)
Theorem dumps_tuple_loads_list (l : list value) :
  representable (VList l) = true ->
  exists bs, dumps (VTuple l) = Ok bs /\ dumps (VList l) = Ok bs
             /\ loads bs = Ok (VList l)
             /\ py_eq (VTuple l) (VList l) = false.
Proof.
  intros Hr. destruct (dumps_decodes (VList l) Hr) as (bs & E & D).
  exists bs. split; [exact E|]. split; [exact E|]. split; [|reflexivity].
  destruct (decodes_to_complete D) as [fuel H]. apply (loads_of_run _ _ H).
Qed.

Lemma dumps_tuple_loads_list_witness :
  exists bs, dumps (VTuple [VInt 1; VStr [x61]]) = Ok bs
             /\ dumps (VList [VInt 1; VStr [x61]]) = Ok bs
             /\ loads bs = Ok (VList [VInt 1; VStr [x61]])
             /\ py_eq (VTuple [VInt 1; VStr [x61]]) (VList [VInt 1; VStr [x61]]) = false.
Proof.
  apply (@dumps_tuple_loads_list [VInt 1; VStr [x61]]). vm_compute. reflexivity.
Defined.

(** ** Strings *)

Lemma utf8_decode_outcome (raw : bytes) :
  (exists u, utf8_decode raw = Ok u) \/ utf8_decode raw = Raise UnicodeDecodeError.
Proof.
  assert (H : forall n raw, (length raw <= n)%nat ->
              (exists u, utf8_decode raw = Ok u) \/ utf8_decode raw = Raise UnicodeDecodeError).
  { clear raw. induction n as [|n IH]; intros raw Hn.
    - destruct raw; [left; exists []; reflexivity|simpl in Hn; lia].
    - destruct raw as [|b0 r0]; [left; exists []; reflexivity|]. cbn [utf8_decode].
      cbn [length] in Hn.
      repeat match goal with
             | |- _ \/ (if ?b then _ else _) = _ => destruct b
             | |- _ \/ (match ?r with [] => _ | _ :: _ => _ end) = _ =>
                 destruct r; cbn [length] in Hn
             | |- _ \/ bind (utf8_decode ?r) _ = _ =>
                 let u := fresh "u" in
                 let E := fresh "E" in
                 destruct (IH r ltac:(lia)) as [[u E]|E]; rewrite E; cbn [bind]
             end;
        try (right; reflexivity); try (left; eexists; reflexivity). }
  apply (H (length raw)). lia.
Qed.

Lemma utf8_decode_ascii (s : bytes) : ascii s = true -> utf8_decode s = Ok (map ord s).
Proof.
  induction s as [|c s IH]; intros H; [reflexivity|].
  cbn [ascii forallb] in H. apply andb_prop in H. destruct H as [Hc Hs].
  apply Z.ltb_lt in Hc. cbn [utf8_decode map].
  rewrite (proj2 (Z.ltb_lt (ord c) 128)) by assumption.
  rewrite IH by exact Hs. reflexivity.
Qed.

(** Decoding at the header of a definite-length text string. *)
Lemma _loads_text (raw hd rest : bytes) :
  _encode_type_num CBOR_TEXT (len raw) = Ok hd ->
  _loads 1 (hd ++ raw ++ rest) 0 0 false
  = (ob <- utf8_decode raw ;; Ok (VUnicode ob, len hd + len raw)).
Proof.
  intros Hhd.
  assert (Hlen : len raw <= 0x0ffffffffffffffff).
  { pose proof (@_encode_type_num_outcome CBOR_TEXT (len raw) (len_nonneg raw)
                                          ltac:(discriminate)) as O.
    unfold fits_header in O.
    destruct (len raw <=? 0x0ffffffffffffffff) eqn:E; [apply Z.leb_le in E; exact E|].
    destruct O as [_ O]. rewrite O in Hhd. discriminate. }
  pose proof (len_nonneg raw).
  assert (Hdata : hd ++ raw ++ rest = [] ++ (hd ++ raw) ++ rest)
    by (cbn [app]; rewrite <- app_assoc; reflexivity).
  destruct (@_loads_at_header 0 CBOR_TEXT (len raw) hd raw (hd ++ raw ++ rest) [] rest false)
    as [tb E]; [apply major_type_In; reflexivity|lia|assumption|exact Hdata|].
  change (_loads 1 (hd ++ raw ++ rest) 0 0 false)
    with (_loads 1 (hd ++ raw ++ rest) (len (@nil byte)) 0 false).
  rewrite E. unfold after_header. pick_branch.
  cbn [loads_bytes bind]. rewrite (@slice_at _ _ _ _ _ Hdata). reflexivity.
Qed.

(** X16: a text string of definite length decodes to the utf8 decoding
    of its payload, whatever follows it, and raises UnicodeDecodeError
    when the payload is not utf8: the bytes are never returned
    undecoded. *)
Theorem loads_text_string_strict (raw hd rest : bytes) :
  _encode_type_num CBOR_TEXT (len raw) = Ok hd ->
  loads (hd ++ raw ++ rest)
  = match utf8_decode raw with
    | Ok u => Ok (VUnicode u)
    | _ => Raise UnicodeDecodeError
    end.
Proof.
  intros Hhd. pose proof (_loads_text raw rest Hhd) as H.
  destruct (utf8_decode_outcome raw) as [[u E]|E]; rewrite E in *; cbn [bind] in H.
  - apply (loads_of_run _ _ H).
  - apply (loads_of_raise _ _ H).
Qed.

Lemma loads_text_string_strict_witness :
  _encode_type_num CBOR_TEXT (len [xc3; x28]) = Ok [x62]
  /\ loads ([x62] ++ [xc3; x28] ++ [x00]) = Raise UnicodeDecodeError.
Proof.
  split; [reflexivity|].
  apply (@loads_text_string_strict [xc3; x28] [x62] [x00]). reflexivity.
Defined.

(** X17: the flags of [dumps_string].  A [unicode] is written as a text
    string whatever the flags; a [str] is written as a byte string
    unless [is_text] is [True] and [is_bytes] is not, in which case it is
    written as a text string with the same bytes; when those are ASCII,
    decoding gives the [unicode] with the same characters, equal to the
    [str]. *)
Theorem dumps_string_flags :
  (forall u is_text is_bytes,
     dumps_string (VUnicode u) is_text is_bytes = dumps (VUnicode u))
  /\ (forall s is_text, dumps_string (VStr s) is_text (Some true) = dumps (VStr s))
  /\ (forall s is_bytes, dumps_string (VStr s) None is_bytes = dumps (VStr s))
  /\ (forall s is_bytes, dumps_string (VStr s) (Some false) is_bytes = dumps (VStr s))
  /\ (forall s hd,
        _encode_type_num CBOR_TEXT (len s) = Ok hd ->
        dumps_string (VStr s) (Some true) None = Ok (hd ++ s)
        /\ dumps_string (VStr s) (Some true) (Some false) = Ok (hd ++ s)
        /\ (ascii s = true ->
            loads (hd ++ s) = Ok (VUnicode (map ord s))
            /\ py_eq (VStr s) (VUnicode (map ord s)) = true)).
Proof.
  split; [|split; [|split; [|split]]].
  - intros u is_text is_bytes. reflexivity.
  - intros s is_text. reflexivity.
  - intros s [[|]|]; reflexivity.
  - intros s [[|]|]; reflexivity.
  - intros s hd Hhd. unfold dumps_string. cbn [bind orb negb]. rewrite Hhd. cbn [bind].
    split; [reflexivity|]. split; [reflexivity|].
    intros Ha. split.
    + pose proof (@_loads_text s hd [] Hhd) as T. rewrite app_nil_r in T.
      rewrite utf8_decode_ascii in T by assumption.
      apply (loads_of_run _ _ T).
    + cbn [py_eq]. fold (ascii s). rewrite Ha. cbn [andb].
      apply codes_eqb_refl.
Qed.

Lemma dumps_string_flags_witness :
  dumps_string (VStr [x68; x69]) (Some true) None = Ok ([x62] ++ [x68; x69])
  /\ dumps_string (VStr [x68; x69]) (Some true) (Some false) = Ok ([x62] ++ [x68; x69])
  /\ (ascii [x68; x69] = true ->
      loads ([x62] ++ [x68; x69]) = Ok (VUnicode (map ord [x68; x69]))
      /\ py_eq (VStr [x68; x69]) (VUnicode (map ord [x68; x69])) = true).
Proof.
  apply (proj2 (proj2 (proj2 (proj2 dumps_string_flags))) [x68; x69] [x62]). reflexivity.
Defined.

(** ** Integers *)

Lemma _encode_type_num_fits (cbor_type n : Z) (hd : bytes) :
  0 <= n -> cbor_type <> CBOR_NEGINT ->
  _encode_type_num cbor_type n = Ok hd -> n <= 0x0ffffffffffffffff.
Proof.
  intros Hn Ht Hhd.
  pose proof (@_encode_type_num_outcome cbor_type n Hn Ht) as O.
  unfold fits_header in O.
  destruct (n <=? 0x0ffffffffffffffff) eqn:E; [apply Z.leb_le in E; exact E|].
  destruct O as [_ O]. rewrite O in Hhd. discriminate.
Qed.

Lemma bytes_to_biguint_leading_zeros (k : nat) (raw : bytes) :
  bytes_to_biguint (repeat x00 k ++ raw) = bytes_to_biguint raw.
Proof.
  induction k as [|k IH]; [reflexivity|].
  cbn [repeat app]. rewrite bytes_to_biguint_cons, IH.
  change (ord x00) with 0. lia.
Qed.

(** X18: tag 2 or 3 in front of any byte string decodes to the integer
    its bytes stand for in big-endian order (to [-1] minus it for tag
    3): the decoder does not ask for the shortest form, leading zero
    bytes change nothing, and an integer that fits 64 bits is accepted
    too. *)
Theorem loads_bignum_any_bytes (raw hd rest : bytes) :
  _encode_type_num CBOR_BYTES (len raw) = Ok hd ->
  loads (xc2 :: hd ++ raw ++ rest) = Ok (VInt (bytes_to_biguint raw))
  /\ loads (xc3 :: hd ++ raw ++ rest) = Ok (VInt (-1 - bytes_to_biguint raw))
  /\ forall k, bytes_to_biguint (repeat x00 k ++ raw) = bytes_to_biguint raw.
Proof.
  intros Hhd.
  assert (Hlen : len raw <= 0x0ffffffffffffffff)
    by (apply (@_encode_type_num_fits CBOR_BYTES _ hd);
        [apply len_nonneg|discriminate|assumption]).
  split; [|split; [|intros k; apply bytes_to_biguint_leading_zeros]].
  - destruct (@decodes_to_tagged_bytes CBOR_TAG_BIGNUM raw hd (VInt (bytes_to_biguint raw)))
      as [f0 D]; [unfold CBOR_TAG_BIGNUM; lia|assumption|assumption|apply tagify_bignum|].
    apply (@loads_of_run f0 _ _ (len (xc2 :: hd ++ raw))).
    apply (D f0 _ [] rest); [lia|].
    cbn [app]. rewrite <- app_assoc. reflexivity.
  - destruct (@decodes_to_tagged_bytes CBOR_TAG_NEGBIGNUM raw hd
                                       (VInt (-1 - bytes_to_biguint raw)))
      as [f0 D]; [unfold CBOR_TAG_NEGBIGNUM; lia|assumption|assumption|apply tagify_negbignum|].
    apply (@loads_of_run f0 _ _ (len (xc3 :: hd ++ raw))).
    apply (D f0 _ [] rest); [lia|].
    cbn [app]. rewrite <- app_assoc. reflexivity.
Qed.

Lemma loads_bignum_any_bytes_witness :
  _encode_type_num CBOR_BYTES (len [x00; x00; x05]) = Ok [x43]
  /\ loads (xc2 :: [x43] ++ [x00; x00; x05] ++ [xff]) = Ok (VInt 5)
  /\ loads (xc3 :: [x43] ++ [x00; x00; x05] ++ [xff]) = Ok (VInt (-6))
  /\ forall k, bytes_to_biguint (repeat x00 k ++ [x00; x00; x05])
               = bytes_to_biguint [x00; x00; x05].
Proof.
  split; [reflexivity|].
  apply (@loads_bignum_any_bytes [x00; x00; x05] [x43] [xff]). reflexivity.
Defined.

Lemma unpack_from_range (size : nat) (data : bytes) (offset x : Z) :
  (size <= 8)%nat -> unpack_from size data offset = Ok x -> 0 <= x < 2 ^ 64.
Proof.
  intros Hs H. unfold unpack_from in H. cbv zeta in H.
  destruct (_ || _); [discriminate H|]. apply Ok_inj in H. subst x.
  match goal with |- context [unpack_be ?l] => set (fld := l) end.
  change (unpack_be fld) with (bytes_to_biguint fld).
  pose proof (bytes_to_biguint_range fld) as R.
  assert (L : len fld <= 8).
  { unfold len, fld. rewrite length_firstn. lia. }
  assert (P : 256 ^ len fld <= 256 ^ 8)
    by (apply Z.pow_le_mono_r; [lia|exact L]).
  change (256 ^ 8) with (2 ^ 64) in P. lia.
Qed.

(** The three fields of a header: the major type and the info bits of the
    first byte, and an auxiliary value within 64 bits. *)
Lemma _tag_aux_fields (data : bytes) (offset tb tag tag_aux : Z) (aux : option Z)
    (bytes_read : Z) :
  _tag_aux data offset (VInt tb) = Ok (tag, tag_aux, aux, bytes_read) ->
  tag = Z.land tb CBOR_TYPE_MASK /\ tag_aux = Z.land tb CBOR_INFO_BITS
  /\ match aux with Some a => 0 <= a < 2 ^ 64 | None => tag_aux = CBOR_VAR_FOLLOWS end.
Proof.
  intros H. rewrite _tag_aux_int_eq in H. cbv zeta in H.
  assert (0 <= Z.land tb CBOR_INFO_BITS) by (apply Z.land_nonneg; right; discriminate).
  repeat invert_run H; injection H as <- <- <- <-;
    repeat match goal with
           | E : unpack_from _ _ _ = Ok _ |- _ => apply unpack_from_range in E; [|lia]
           | E : (_ <=? _) = true |- _ => apply Z.leb_le in E
           | E : (_ =? _) = true |- _ => apply Z.eqb_eq in E
           end;
    repeat split; try lia; try assumption.
Qed.

(** X19: what [loads] returns for a first byte of major type 0 is a
    non-negative integer below 2^64 ([None] for the indefinite-length
    marker), and for major type 1 an integer from -2^64 to -1. *)
Theorem loads_integer_range (c : byte) (rest : bytes) (v : value) :
  loads (c :: rest) = Ok v ->
  (Z.land (ord c) CBOR_TYPE_MASK = CBOR_UINT ->
   v = VNone \/ exists z, v = VInt z /\ 0 <= z < 2 ^ 64)
  /\ (Z.land (ord c) CBOR_TYPE_MASK = CBOR_NEGINT ->
      exists z, v = VInt z /\ - 2 ^ 64 <= z < 0).
Proof.
  intros H. rewrite loads_cons, _loads_body_after_header in H.
  change (0 >? _MAX_DEPTH) with false in H. cbv iota in H.
  rewrite getitem_cons_0 in H. cbn [bind] in H.
  split; intros Hm.
  - destruct (ord c =? CBOR_FLOAT16) eqn:F16;
      [apply Z.eqb_eq in F16; rewrite F16 in Hm; discriminate Hm|].
    destruct (ord c =? CBOR_FLOAT32) eqn:F32;
      [apply Z.eqb_eq in F32; rewrite F32 in Hm; discriminate Hm|].
    destruct (ord c =? CBOR_FLOAT64) eqn:F64;
      [apply Z.eqb_eq in F64; rewrite F64 in Hm; discriminate Hm|].
    destruct (_tag_aux (c :: rest) 0 (VInt (ord c))) as [[[[tag ta] aux] br]| |] eqn:E;
      [|discriminate H|discriminate H].
    cbn [bind fst snd] in H. destruct (_tag_aux_fields _ _ _ E) as (Ht & _ & Ha).
    rewrite Hm in Ht. subst tag. unfold after_header in H.
    change (CBOR_UINT =? CBOR_UINT) with true in H. cbv iota in H. cbn [bind] in H.
    apply Ok_inj in H. subst v.
    destruct aux as [a|]; [right; exists a; auto|left; reflexivity].
  - destruct (ord c =? CBOR_FLOAT16) eqn:F16;
      [apply Z.eqb_eq in F16; rewrite F16 in Hm; discriminate Hm|].
    destruct (ord c =? CBOR_FLOAT32) eqn:F32;
      [apply Z.eqb_eq in F32; rewrite F32 in Hm; discriminate Hm|].
    destruct (ord c =? CBOR_FLOAT64) eqn:F64;
      [apply Z.eqb_eq in F64; rewrite F64 in Hm; discriminate Hm|].
    destruct (_tag_aux (c :: rest) 0 (VInt (ord c))) as [[[[tag ta] aux] br]| |] eqn:E;
      [|discriminate H|discriminate H].
    cbn [bind fst snd] in H. destruct (_tag_aux_fields _ _ _ E) as (Ht & _ & Ha).
    rewrite Hm in Ht. subst tag. unfold after_header in H.
    change (CBOR_NEGINT =? CBOR_UINT) with false in H.
    change (CBOR_NEGINT =? CBOR_NEGINT) with true in H. cbv iota in H.
    destruct aux as [a|]; [|discriminate H]. cbn [bind] in H.
    apply Ok_inj in H. subst v. exists (-1 - a). split; [reflexivity|lia].
Qed.

Lemma loads_integer_range_witness :
  loads (x39 :: [xff; xff]) = Ok (VInt (-65536))
  /\ (Z.land (ord x39) CBOR_TYPE_MASK = CBOR_UINT ->
      VInt (-65536) = VNone \/ exists z, VInt (-65536) = VInt z /\ 0 <= z < 2 ^ 64)
  /\ (Z.land (ord x39) CBOR_TYPE_MASK = CBOR_NEGINT ->
      exists z, VInt (-65536) = VInt z /\ - 2 ^ 64 <= z < 0).
Proof.
  assert (H : loads (x39 :: [xff; xff]) = Ok (VInt (-65536))) by (vm_compute; reflexivity).
  split; [exact H|]. apply (@loads_integer_range x39 [xff; xff] _ H).
Defined.

(** ** Arrays and maps: the count of the header *)

Lemma _loads_array_count (fuel : nat) :
  forall data offset k ob br v n,
    _loads_array fuel data offset k ob br = Ok (v, n) ->
    exists l, v = VList (ob ++ l) /\ len l = Z.max 0 k.
Proof.
  induction fuel as [|fuel IH]; intros data offset k ob br v n H;
    rewrite _loads_array_eq in H; destruct (k <=? 0) eqn:K.
  - injection H as <- _. exists []. rewrite app_nil_r. apply Z.leb_le in K.
    split; [reflexivity|]. rewrite len_nil. lia.
  - discriminate H.
  - injection H as <- _. exists []. rewrite app_nil_r. apply Z.leb_le in K.
    split; [reflexivity|]. rewrite len_nil. lia.
  - apply Z.leb_gt in K. unfold _loads_array_turn in H.
    destruct (_loads fuel data (offset + br) 0 false) as [[subob subpos]| |];
      [|discriminate H|discriminate H].
    cbn [bind] in H. destruct (IH _ _ _ _ _ _ _ H) as (l & -> & Hl).
    exists (subob :: l). rewrite <- app_assoc. split; [reflexivity|].
    rewrite len_cons. lia.
Qed.

Lemma len_dict_update (ob : list (value * value)) (k v : value) :
  len (dict_update ob k v) <= len ob + 1.
Proof.
  induction ob as [|[k' v'] ob IH]; [cbn [dict_update]; rewrite len_cons; lia|].
  cbn [dict_update]. destruct (py_eq k' k); rewrite !len_cons; lia.
Qed.

Lemma _loads_map_count (fuel : nat) :
  forall data offset k ob br v n,
    _loads_map fuel data offset k ob br = Ok (v, n) ->
    exists d, v = VDict d /\ len d <= len ob + Z.max 0 k.
Proof.
  induction fuel as [|fuel IH]; intros data offset k ob br v n H;
    rewrite _loads_map_eq in H; destruct (k <=? 0) eqn:K.
  - injection H as <- _. exists ob. split; [reflexivity|lia].
  - discriminate H.
  - injection H as <- _. exists ob. split; [reflexivity|lia].
  - apply Z.leb_gt in K. unfold _loads_map_turn in H.
    destruct (_loads fuel data (offset + br) 0 false) as [[subk subpos]| |];
      [|discriminate H|discriminate H].
    cbn [bind] in H. cbv zeta in H.
    destruct (_loads fuel data (offset + (br + subpos)) 0 false) as [[subv subpos']| |];
      [|discriminate H|discriminate H].
    cbn [bind] in H. unfold dict_setitem in H.
    destruct (hashable subk); [|discriminate H]. cbn [bind] in H.
    destruct (IH _ _ _ _ _ _ _ H) as (d & -> & Hd).
    exists d. split; [reflexivity|].
    pose proof (len_dict_update ob subk subv). lia.
Qed.

(** X20: when [loads] returns on an array its result is a list with
    exactly as many items as the header announces, and on a map a dict
    with at most as many entries as the header announces. *)
Theorem loads_container_count (c : byte) (rest : bytes) (tag tag_aux n bytes_read : Z)
    (v : value) :
  _tag_aux (c :: rest) 0 (VInt (ord c)) = Ok (tag, tag_aux, Some n, bytes_read) ->
  loads (c :: rest) = Ok v ->
  (tag = CBOR_ARRAY -> exists l, v = VList l /\ len l = n)
  /\ (tag = CBOR_MAP -> exists d, v = VDict d /\ len d <= n).
Proof.
  intros E H. rewrite loads_cons, _loads_body_after_header in H.
  change (0 >? _MAX_DEPTH) with false in H. cbv iota in H.
  rewrite getitem_cons_0 in H. cbn [bind] in H.
  destruct (_tag_aux_fields _ _ _ E) as (Ht & _ & Hn).
  assert (F : tag = CBOR_ARRAY \/ tag = CBOR_MAP ->
              (ord c =? CBOR_FLOAT16) = false /\ (ord c =? CBOR_FLOAT32) = false
              /\ (ord c =? CBOR_FLOAT64) = false).
  { intros Hc. repeat split; apply Z.eqb_neq; intros Ho; rewrite Ho in Ht;
      destruct Hc as [Hc|Hc]; rewrite Hc in Ht; discriminate Ht. }
  split; intros Hc.
  - destruct F as (F16 & F32 & F64); [left; exact Hc|].
    rewrite F16, F32, F64, E in H. cbn [bind fst snd] in H.
    unfold after_header in H. rewrite Hc in H. revert H. pick_branch. intros H.
    unfold xrange in H. destruct (n >? sys_maxint); [discriminate H|]. cbn [bind] in H.
    destruct (_loads_array _ _ _ _ _ _) as [[ob m]| |] eqn:A;
      [|discriminate H|discriminate H].
    cbn [bind] in H. apply Ok_inj in H. subst ob.
    destruct (_loads_array_count _ _ _ _ _ _ A) as (l & -> & Hl).
    exists l. split; [reflexivity|lia].
  - destruct F as (F16 & F32 & F64); [right; exact Hc|].
    rewrite F16, F32, F64, E in H. cbn [bind fst snd] in H.
    unfold after_header in H. rewrite Hc in H. revert H. pick_branch. intros H.
    unfold xrange in H. destruct (n >? sys_maxint); [discriminate H|]. cbn [bind] in H.
    destruct (_loads_map _ _ _ _ _ _) as [[ob m]| |] eqn:A;
      [|discriminate H|discriminate H].
    cbn [bind] in H. apply Ok_inj in H. subst ob.
    destruct (_loads_map_count _ _ _ _ _ _ A) as (d & -> & Hd).
    exists d. split; [reflexivity|]. rewrite len_nil in Hd. lia.
Qed.

Lemma loads_container_count_witness :
  _tag_aux (xa2 :: [x01; x02; x01; x03]) 0 (VInt (ord xa2)) = Ok (CBOR_MAP, 2, Some 2, 1)
  /\ loads (xa2 :: [x01; x02; x01; x03]) = Ok (VDict [(VInt 1, VInt 3)])
  /\ (CBOR_MAP = CBOR_ARRAY -> exists l, VDict [(VInt 1, VInt 3)] = VList l /\ len l = 2)
  /\ (CBOR_MAP = CBOR_MAP -> exists d, VDict [(VInt 1, VInt 3)] = VDict d /\ len d <= 2).
Proof.
  assert (E : _tag_aux (xa2 :: [x01; x02; x01; x03]) 0 (VInt (ord xa2))
              = Ok (CBOR_MAP, 2, Some 2, 1)) by reflexivity.
  assert (H : loads (xa2 :: [x01; x02; x01; x03]) = Ok (VDict [(VInt 1, VInt 3)]))
    by (vm_compute; reflexivity).
  split; [exact E|]. split; [exact H|].
  apply (@loads_container_count xa2 [x01; x02; x01; x03] CBOR_MAP 2 2 1 _ E H).
Defined.

(** ** A string longer than the buffer *)

Lemma slice_short (hd raw : bytes) (n : Z) :
  len raw <= n -> slice (hd ++ raw) (len hd) (len hd + n) = raw.
Proof.
  intros H. pose proof (len_nonneg hd). pose proof (len_nonneg raw).
  rewrite slice_nonneg by lia. rewrite skipn_len_app.
  replace (len hd + n - len hd) with n by lia.
  apply firstn_all2. unfold len in H. lia.
Qed.

Lemma _loads_string_cut_short (cbor_type n : Z) (hd raw : bytes) :
  cbor_type = CBOR_BYTES \/ cbor_type = CBOR_TEXT ->
  _encode_type_num cbor_type n = Ok hd -> len raw <= n ->
  _loads 1 (hd ++ raw) 0 0 false
  = (if cbor_type =? CBOR_BYTES then Ok (VStr raw, len hd + n)
     else ob <- utf8_decode raw ;; Ok (VUnicode ob, len hd + n)).
Proof.
  intros Ht Hhd Hlen. pose proof (len_nonneg raw) as Hr.
  assert (Hneg : cbor_type <> CBOR_NEGINT) by (destruct Ht; subst; discriminate).
  assert (Hn : n <= 0x0ffffffffffffffff)
    by (apply (@_encode_type_num_fits cbor_type n hd); [lia|assumption|assumption]).
  assert (Hin : In cbor_type major_types)
    by (destruct Ht; subst; apply major_type_In; reflexivity).
  assert (Hdata : hd ++ raw = [] ++ (hd ++ raw) ++ [])
    by (cbn [app]; rewrite app_nil_r; reflexivity).
  destruct (@_loads_at_header 0 cbor_type n hd raw (hd ++ raw) [] [] false)
    as [tb E]; [assumption|lia|assumption|exact Hdata|].
  change (len []) with 0 in E. rewrite E. unfold after_header.
  destruct Ht; subst cbor_type; pick_branch; cbn [loads_bytes bind];
    change (0 + len hd) with (len hd); rewrite slice_short by assumption; reflexivity.
Qed.

(** X21: a string whose header announces more bytes than the buffer
    holds is not an error: the bytes that are there come back as the byte
    string (or, decoded, as the text string), and the announced length
    is reported as read. *)
Theorem loads_string_cut_short (n : Z) (hdb hdt raw : bytes) :
  _encode_type_num CBOR_BYTES n = Ok hdb -> _encode_type_num CBOR_TEXT n = Ok hdt ->
  len raw <= n ->
  loads (hdb ++ raw) = Ok (VStr raw)
  /\ _loads 1 (hdb ++ raw) 0 0 false = Ok (VStr raw, len hdb + n)
  /\ (forall u, utf8_decode raw = Ok u -> loads (hdt ++ raw) = Ok (VUnicode u)).
Proof.
  intros Hb Ht Hlen.
  pose proof (@_loads_string_cut_short CBOR_BYTES n hdb raw (or_introl eq_refl) Hb Hlen) as Rb.
  pose proof (@_loads_string_cut_short CBOR_TEXT n hdt raw (or_intror eq_refl) Ht Hlen) as Rt.
  change (CBOR_BYTES =? CBOR_BYTES) with true in Rb.
  change (CBOR_TEXT =? CBOR_BYTES) with false in Rt. cbv iota in Rb, Rt.
  split; [apply (loads_of_run _ _ Rb)|]. split; [exact Rb|].
  intros u Hu. rewrite Hu in Rt. cbn [bind] in Rt. apply (loads_of_run _ _ Rt).
Qed.

Lemma loads_string_cut_short_witness :
  _encode_type_num CBOR_BYTES 1000 = Ok [x59; x03; xe8]
  /\ _encode_type_num CBOR_TEXT 1000 = Ok [x79; x03; xe8]
  /\ len [x61; x62] <= 1000
  /\ loads ([x59; x03; xe8] ++ [x61; x62]) = Ok (VStr [x61; x62])
  /\ _loads 1 ([x59; x03; xe8] ++ [x61; x62]) 0 0 false
     = Ok (VStr [x61; x62], len [x59; x03; xe8] + 1000)
  /\ (forall u, utf8_decode [x61; x62] = Ok u ->
        loads ([x79; x03; xe8] ++ [x61; x62]) = Ok (VUnicode u)).
Proof.
  split; [reflexivity|]. split; [reflexivity|]. split; [vm_compute; discriminate|].
  apply (@loads_string_cut_short 1000 [x59; x03; xe8] [x79; x03; xe8] [x61; x62]);
    [reflexivity|reflexivity|vm_compute; discriminate].
Defined.

(** ** A key without a hash *)

(** X22: a map whose key is an array or a map cannot be decoded: once
    the key and its value are read, the assignment [ob[subk] = subv]
    raises TypeError, the key being a list or a dict, whatever follows
    in the buffer. *)
Theorem loads_unhashable_key (k v : value) :
  representable k = true -> representable v = true -> hashable k = false ->
  exists kb vb,
    dumps k = Ok kb /\ dumps v = Ok vb
    /\ forall rest, loads (xa1 :: kb ++ vb ++ rest) = Raise TypeError.
Proof.
  intros Hk Hv Hh.
  destruct (dumps_decodes k Hk) as (kb & Ek & (fk & Dk)).
  destruct (dumps_decodes v Hv) as (vb & Ev & (fv & Dv)).
  exists kb, vb. split; [assumption|]. split; [assumption|].
  intros rest. set (f := Nat.max fk fv).
  apply (@loads_of_raise (S (S f))).
  destruct (@_loads_at_header (S f) CBOR_MAP 1 [xa1] (kb ++ vb) (xa1 :: kb ++ vb ++ rest)
                              [] rest false)
    as [tb E]; [apply major_type_In; reflexivity|lia|reflexivity| |].
  { cbn [app]. rewrite <- app_assoc. reflexivity. }
  change (_loads (S (S f)) (xa1 :: kb ++ vb ++ rest) 0 0 false)
    with (_loads (S (S f)) (xa1 :: kb ++ vb ++ rest) (len (@nil byte)) 0 false).
  rewrite E. unfold after_header. pick_branch.
  change (xrange (Some 1)) with (@Ok Z 1). cbn [bind].
  rewrite _loads_map_eq. change (1 <=? 0) with false. cbv iota.
  unfold _loads_map_turn.
  change (len [] + len [xa1]) with (len [xa1]).
  rewrite (Dk f (xa1 :: kb ++ vb ++ rest) [xa1] (vb ++ rest)); [|unfold f; lia|reflexivity].
  cbn [bind]. cbv zeta.
  replace (len [] + (len [xa1] + len kb)) with (len ([xa1] ++ kb))
    by (autorewrite with len; lia).
  rewrite (Dv f (xa1 :: kb ++ vb ++ rest) ([xa1] ++ kb) rest); [|unfold f; lia|].
  - cbn [bind]. unfold dict_setitem. rewrite Hh. reflexivity.
  - reflexivity.
Qed.

Lemma loads_unhashable_key_witness :
  exists kb vb,
    dumps (VDict [(VInt 1, VInt 2)]) = Ok kb /\ dumps (VStr [x61]) = Ok vb
    /\ forall rest, loads (xa1 :: kb ++ vb ++ rest) = Raise TypeError.
Proof.
  apply (@loads_unhashable_key (VDict [(VInt 1, VInt 2)]) (VStr [x61]));
    vm_compute; reflexivity.
Defined.
